(** * endaq-pose-estimation: [utils.py]

    A shallow embedding of the numerical core of [utils.py] (the Lie-vector
    exponential map, the Madgwick-driven orientation filter [apply_ahrs],
    the calibration evaluator [msqError] and the position/velocity
    estimator [kalman_filter]) together with the properties its
    specification states about them.

    Numbers.  The Python code computes on [numpy.float64].  The embedding is
    generic in the number type (class [Num]): every structural property is
    proved for an arbitrary instance, the algebraic ones for an arbitrary
    field ([NumLaws]), and the geometric ones on the real numbers.  Two
    instances are provided: the reals [R], and the canonical rationals [Qc],
    on which every definition below evaluates. Floating-point rounding,
    overflow and underflow are outside the model.

    Effects.  Python exceptions are the [Err] results of [res]; a mutable
    object that outlives a call (the caller's [z] list, the [workspace]
    dictionary) is the state of the monad [M]. *)

From Stdlib Require Import String.
From Stdlib Require Import List Arith Lia Bool.
From Stdlib Require Import Reals Lra Field Ring RNsatz.
From Stdlib Require Import QArith Qcanon.
Import ListNotations.

Set Implicit Arguments.
Local Open Scope nat_scope.
Local Open Scope list_scope.

(** ** Exceptions and results *)

Inductive error : Type :=
| IndexError
| AssertionError
| LinAlgError
| KeyError
| ValueError.

Inductive res (X : Type) : Type :=
| Ok (x : X)
| Err (e : error).

Arguments Ok {X} x.
Arguments Err {X} e.

Definition res_bind {X Y : Type} (c : res X) (k : X -> res Y) : res Y :=
  match c with
  | Ok x => k x
  | Err e => Err e
  end.

(** A computation over a mutable store [S] that may raise: the store at the
    point of the exception is kept, as Python keeps the mutations made
    before a raise. *)
Definition M (S X : Type) : Type := S -> res X * S.

Definition ret {S X : Type} (x : X) : M S X := fun s => (Ok x, s).

Definition raise {S X : Type} (e : error) : M S X := fun s => (Err e, s).

Definition bind {S X Y : Type} (c : M S X) (k : X -> M S Y) : M S Y :=
  fun s =>
    match c s with
    | (Ok x, s') => k x s'
    | (Err e, s') => (Err e, s')
    end.

Definition lift {S X : Type} (r : res X) : M S X := fun s => (r, s).

Definition get {S : Type} : M S S := fun s => (Ok s, s).

Definition put {S : Type} (s : S) : M S unit := fun _ => (Ok tt, s).

Declare Scope py_scope.
Delimit Scope py_scope with py.
Notation "'let*' x ':=' c 'in' k" := (bind c (fun x => k))
  (at level 10, x name, c at level 100, k at level 200) : py_scope.
Notation "c ';;' k" := (bind c (fun _ => k))
  (at level 100, k at level 200, right associativity) : py_scope.

(** [for i in xs: body], threading the loop-carried locals [L]. *)
Fixpoint for_each {S I L : Type} (xs : list I) (body : I -> L -> M S L)
    (l : L) : M S L :=
  match xs with
  | [] => ret l
  | i :: xs' => bind (body i l) (for_each xs' body)
  end.

(** ** Sequences *)

(** [l[i]] on a Python list or a numpy array, for [i >= 0]. *)
Definition index {X : Type} (l : list X) (i : nat) : res X :=
  match nth_error l i with
  | Some x => Ok x
  | None => Err IndexError
  end.

(** The list [l] with position [i] replaced; unchanged when [i] is out of
    range. *)
Fixpoint set_nth {X : Type} (i : nat) (x : X) (l : list X) : list X :=
  match l, i with
  | [], _ => []
  | _ :: l', 0 => x :: l'
  | h :: l', S i' => h :: set_nth i' x l'
  end.

(** [l[i] = x]: raises [IndexError] out of range. *)
Definition assign {X : Type} (l : list X) (i : nat) (x : X) : res (list X) :=
  if i <? length l then Ok (set_nth i x l) else Err IndexError.

Fixpoint zipWith {X Y Z : Type} (f : X -> Y -> Z) (xs : list X)
    (ys : list Y) : list Z :=
  match xs, ys with
  | x :: xs', y :: ys' => f x y :: zipWith f xs' ys'
  | _, _ => []
  end.

Fixpoint mapi_from {X Y : Type} (f : nat -> X -> Y) (i : nat) (l : list X)
    : list Y :=
  match l with
  | [] => []
  | x :: l' => f i x :: mapi_from f (S i) l'
  end.

Definition mapi {X Y : Type} (f : nat -> X -> Y) (l : list X) : list Y :=
  mapi_from f 0 l.

(** ** Numbers *)

Class Num (num : Type) : Type := {
  n0 : num;
  n1 : num;
  nadd : num -> num -> num;
  nsub : num -> num -> num;
  nmul : num -> num -> num;
  ndiv : num -> num -> num;
  nopp : num -> num;
  ninv : num -> num;
  nltb : num -> num -> bool;
  neqb : num -> num -> bool
}.

(** The laws of exact arithmetic. *)
Class NumLaws (num : Type) {N : Num num} : Prop := {
  num_field : field_theory n0 n1 nadd nmul nsub nopp ndiv ninv (@eq num);
  neqb_eq : forall a b : num, neqb a b = true <-> a = b
}.

#[export] Instance NumR : Num R := {
  n0 := 0%R;
  n1 := 1%R;
  nadd := Rplus;
  nsub := Rminus;
  nmul := Rmult;
  ndiv := Rdiv;
  nopp := Ropp;
  ninv := Rinv;
  nltb := fun a b => if Rlt_dec a b then true else false;
  neqb := fun a b => if Req_dec_T a b then true else false
}.

#[export] Instance NumQc : Num Qc := {
  n0 := Q2Qc 0;
  n1 := Q2Qc 1;
  nadd := Qcplus;
  nsub := Qcminus;
  nmul := Qcmult;
  ndiv := Qcdiv;
  nopp := Qcopp;
  ninv := Qcinv;
  nltb := fun a b => match (a ?= b)%Qc with Lt => true | _ => false end;
  neqb := Qc_eq_bool
}.

Section Numeric.

Context {num : Type} {N : Num num}.

Definition n2 : num := nadd n1 n1.

Definition n3 : num := nadd n2 n1.

(** [float(n)] for a count [n]. *)
Fixpoint of_nat (n : nat) : num :=
  match n with
  | 0 => n0
  | S k => nadd (of_nat k) n1
  end.

(** ** numpy on vectors and matrices

    A one-dimensional array is a list, a two-dimensional array (and an
    [np.matrix]) the list of its rows.  Shapes are those the callers
    provide; numpy's shape-mismatch errors are not modelled. *)

Definition vadd (u v : list num) : list num := zipWith nadd u v.

Definition vsub (u v : list num) : list num := zipWith nsub u v.

Definition vscale (c : num) (v : list num) : list num := map (nmul c) v.

Definition vsum (v : list num) : num := fold_right nadd n0 v.

(** [np.dot(u, v)] of two vectors. *)
Definition vdot (u v : list num) : num := vsum (zipWith nmul u v).

Definition madd (m1 m2 : list (list num)) : list (list num) := zipWith vadd m1 m2.

Definition msub (m1 m2 : list (list num)) : list (list num) := zipWith vsub m1 m2.

(** [m.dot(v)] for a matrix [m] and a vector [v]. *)
Definition mv (m : list (list num)) (v : list num) : list num :=
  map (fun row => vdot row v) m.

Definition column (j : nat) (m : list (list num)) : list num :=
  map (fun row => nth j row n0) m.

Definition width (m : list (list num)) : nat :=
  match m with
  | [] => 0
  | row :: _ => length row
  end.

Definition transpose (m : list (list num)) : list (list num) :=
  map (fun j => column j m) (seq 0 (width m)).

(** [m1.dot(m2)] for two matrices. *)
Definition mm (m1 m2 : list (list num)) : list (list num) :=
  map (fun row => map (fun col => vdot row col) (transpose m2)) m1.

(** [np.zeros(n)] and [np.zeros((n, m))]. *)
Definition zeros (n : nat) : list num := repeat n0 n.

Definition zeros2 (n m : nat) : list (list num) := repeat (zeros m) n.

(** [np.diag(d)] of a vector. *)
Definition diag (d : list num) : list (list num) :=
  mapi (fun i x => set_nth i x (zeros (length d))) d.

(** [np.identity(n)]. *)
Definition identity (n : nat) : list (list num) := diag (repeat n1 n).

(** [np.mean] of a one-dimensional array: the sum over the count.  On the
    empty array numpy evaluates [0/0]. *)
Definition mean (v : list num) : num := ndiv (vsum v) (of_nat (length v)).

(** [np.mean] of a two-dimensional array: over all its entries. *)
Definition mean2 (m : list (list num)) : num := mean (concat m).

(** [m ** 2], entry by entry. *)
Definition msquare (m : list (list num)) : list (list num) :=
  map (map (fun x => nmul x x)) m.

(** *** [np.linalg.inv]

    numpy hands the matrix to LAPACK, which raises [LinAlgError] on a
    singular matrix.  In exact arithmetic every elimination order yields the
    same inverse and fails on the same matrices; the model is Gauss-Jordan
    elimination on the matrix augmented with the identity. *)

Fixpoint find_pivot (k : nat) (rows : list (list num)) (i : nat) : option nat :=
  match rows with
  | [] => None
  | row :: rows' =>
      if (k <=? i) && negb (neqb (nth k row n0) n0) then Some i
      else find_pivot k rows' (S i)
  end.

Definition swap_rows (i j : nat) (m : list (list num)) : list (list num) :=
  set_nth i (nth j m []) (set_nth j (nth i m []) m).

Definition eliminate (k : nat) (m : list (list num)) : list (list num) :=
  let prow := nth k m [] in
  let prow' := vscale (ninv (nth k prow n0)) prow in
  mapi (fun j row =>
          if j =? k then prow'
          else vsub row (vscale (nth k row n0) prow')) m.

Fixpoint gauss_jordan (cols : list nat) (m : list (list num))
    : res (list (list num)) :=
  match cols with
  | [] => Ok m
  | k :: cols' =>
      match find_pivot k m 0 with
      | None => Err LinAlgError
      | Some p => gauss_jordan cols' (eliminate k (swap_rows k p m))
      end
  end.

Definition inv (m : list (list num)) : res (list (list num)) :=
  let n := length m in
  res_bind (gauss_jordan (seq 0 n) (zipWith (@app num) m (identity n)))
           (fun m' => Ok (map (skipn n) m')).

(** The augmented matrix of the elimination on [diag r] once the first [k]
    columns are done. *)
Definition diag_stage (k : nat) (r : list num) : list (list num) :=
  mapi (fun i x =>
          set_nth i (if i <? k then n1 else x) (zeros (length r))
          ++ set_nth i (if i <? k then ninv x else n1) (zeros (length r))) r.

(** The old-state-to-new-state matrix [F] and the acceleration-to-state
    matrix [B], for the sampling interval [dt]. *)
Definition transition (dt : num) : list (list num) :=
  [ [n1; n0; n0; dt; n0; n0];
    [n0; n1; n0; n0; dt; n0];
    [n0; n0; n1; n0; n0; dt];
    [n0; n0; n0; n1; n0; n0];
    [n0; n0; n0; n0; n1; n0];
    [n0; n0; n0; n0; n0; n1] ].

Definition control (dt : num) : list (list num) :=
  let h := ndiv (nmul dt dt) n2 in
  [ [h; n0; n0];
    [n0; h; n0];
    [n0; n0; h];
    [dt; n0; n0];
    [n0; dt; n0];
    [n0; n0; dt] ].

(** [np.mean(t[1:] - t[0:-1])]. *)
Definition mean_step (t : list num) : num := mean (vsub (tl t) (removelast t)).

End Numeric.

(** ** [kalman_filter] *)

Module Kalman.

Section Filter.

Context {num : Type} {N : Num num}.

Local Open Scope py_scope.

(** The caller's measurement list [z] is the store: it is the one object of
    the call that the caller still holds afterwards.  After the
    initialisation loop every row is a list built by that loop, so rows do
    not alias each other and are kept by value. *)
Definition z_row (i : nat) : M (list (list num)) (list num) :=
  fun z => (index z i, z).

(** [z[i] = row]. *)
Definition z_assign (i : nat) (row : list num) : M (list (list num)) unit :=
  fun z =>
    match assign z i row with
    | Ok z' => (Ok tt, z')
    | Err e => (Err e, z)
    end.

(** [z[i][j] = x]. *)
Definition z_assign_entry (i j : nat) (x : num) : M (list (list num)) unit :=
  let* row := z_row i in
  let* row' := lift (assign row j x) in
  z_assign i row'.

(** [z[i] = [z[i][0], z[i][1], z[i][2], 0, 0, 0]]. *)
Definition clear_velocity (i : nat) : M (list (list num)) unit :=
  let* row := z_row i in
  let* a := lift (index row 0) in
  let* b := lift (index row 1) in
  let* c := lift (index row 2) in
  z_assign i [a; b; c; n0; n0; n0].

(** The local variables that the filter loop carries from one iteration to
    the next.  [state_guess] and [P] have [len(t)] entries from their
    creation on, and the loop index stays below [len(t)], so an assignment
    to one of their entries never raises. *)
Record locals : Type := {
  state_guess : list (list num);
  P : list (list (list num));
  next_zero : num;
  state_naive : list num;
  P_naive : list (list num)
}.

Variables (t : list num) (acc_lab : list (list num)) (q r : list num)
          (reset : bool) (time_period : num).

Definition F : list (list num) := transition (mean_step t).

Definition B : list (list num) := control (mean_step t).

Definition Q : list (list num) := diag q.

Definition R : list (list num) := diag r.

(** [for j in [3,4,5]: z[i][j] = state_guess[i-1][j]]. *)
Definition carry_velocity (i : nat) (prev : list num) : M (list (list num)) unit :=
  z_assign_entry i 3 (nth 3 prev n0) ;;
  z_assign_entry i 4 (nth 4 prev n0) ;;
  z_assign_entry i 5 (nth 5 prev n0).

(** One iteration of the filter loop, for the index [i >= 1]. *)
Definition kalman_step (i : nat) (l : locals) : M (list (list num)) locals :=
  (* Predict equations *)
  let prev := nth (i - 1) (state_guess l) [] in
  let* a := lift (index acc_lab i) in
  let state_naive' := vadd (mv F prev) (mv B a) in
  let P_naive' := madd (mm (mm F (nth (i - 1) (P l) [])) (transpose F)) Q in
  (if 1 <? i then carry_velocity i prev else ret tt) ;;
  (* Update equations *)
  let* s := lift (inv (madd P_naive' R)) in
  let K := mm P_naive' s in
  let* zi := z_row i in
  let y := vsub zi state_naive' in
  let state_guess' := set_nth i (vadd state_naive' (mv K y)) (state_guess l) in
  let P' := set_nth i (mm (msub (identity 6) K) P_naive') (P l) in
  if reset && nltb (next_zero l) (nth i t n0) then
    ret {| state_guess := set_nth i (zeros 6) state_guess';
           P := set_nth i (zeros2 6 6) P';
           next_zero := nadd (next_zero l) time_period;
           state_naive := state_naive';
           P_naive := P_naive' |}
  else
    ret {| state_guess := state_guess';
           P := P';
           next_zero := next_zero l;
           state_naive := state_naive';
           P_naive := P_naive' |}.

(** The local variables before the filter loop. *)
Definition kalman_init : M (list (list num)) locals :=
  let n := length t in
  let state_guess0 := repeat (zeros 6) n in
  let P0 := repeat (zeros2 6 6) n in
  for_each (seq 0 n) (fun i _ => clear_velocity i) tt ;;
  let* s0 := lift (index state_guess0 0) in
  let* p0 := lift (index P0 0) in
  ret {| state_guess := state_guess0;
         P := P0;
         next_zero := nopp n1;
         state_naive := s0;
         P_naive := p0 |}.

(** The first [k] iterations of the filter loop. *)
Definition kalman_loop (k : nat) (l : locals) : M (list (list num)) locals :=
  for_each (seq 1 k) kalman_step l.

(** The function up to its [return]: the local variables at that point. *)
Definition kalman_run : M (list (list num)) locals :=
  let* l := kalman_init in
  kalman_loop (length t - 1) l.

Definition kalman_filter : M (list (list num)) (list (list num)) :=
  let* l := kalman_run in
  ret (state_guess l).

(** Every entry of [state_guess] and of [P] is zero. *)
Definition zero_locals (l : locals) : Prop :=
  state_guess l = repeat (zeros 6) (length t)
  /\ P l = repeat (zeros2 6 6) (length t).

(** The locals after the first [k] iterations of the loop. *)
Definition kalman_prefix (k : nat) : M (list (list num)) locals :=
  let* l := kalman_init in
  kalman_loop k l.

(** The value of [next_zero] after [k] iterations when [reset] is set: the
    boundaries start at [-1] and lie [time_period] apart, and an iteration
    whose timestamp exceeds the pending one moves on to the next. *)
Fixpoint boundary (k : nat) : num :=
  match k with
  | 0 => nopp n1
  | S k' =>
      let b := boundary k' in
      if nltb b (nth k t n0) then nadd b time_period else b
  end.

End Filter.

(** A row of [z] with its three velocity entries taken from [vel]. *)
Definition with_velocity {num : Type} {N : Num num} (row vel : list num)
    : list num :=
  set_nth 5 (nth 5 vel n0) (set_nth 4 (nth 4 vel n0) (set_nth 3 (nth 3 vel n0) row)).

End Kalman.

(** ** The rotation module, on the real numbers *)

Notation real := Rdefinitions.R (only parsing).

Module Lie.

Local Open Scope R_scope.

(** [np.any(v)]: some entry is not zero. *)
Definition np_any (v : list real) : bool :=
  existsb (fun x => negb (neqb x 0)) v.

(** [numpy.linalg.norm] of a vector. *)
Definition norm (v : list real) : real := sqrt (vdot v v).

(** The result of a float64 operation: a number, an infinity, or
    not-a-number.  numpy returns the last two with a warning, and raises
    nothing. *)
Inductive float64 : Type :=
| Finite (x : real)
| Inf
| NaN.

(** Division of two numpy floats. *)
Definition np_divide (a b : real) : float64 :=
  if neqb b 0 then (if neqb a 0 then NaN else Inf) else Finite (a / b).

Definition np_arccos (x : float64) : float64 :=
  match x with
  | Finite v =>
      if Rle_dec (-1) v then
        if Rle_dec v 1 then Finite (acos v) else NaN
      else NaN
  | Inf => NaN
  | NaN => NaN
  end.

(** [subangle(v1, v2)]: the angle subtended between two vectors. *)
Definition subangle (v1 v2 : list real) : float64 :=
  np_arccos (np_divide (vdot v1 v2) (norm v1 * norm v2)).

(** [R(lie_vec)]: the 3x3 rotation matrix of the Lie generator.  Past the
    first line some entry of [lie_vec] is not zero, so [norm lie_vec] is
    positive and the divisions are ordinary ones. *)
Definition R (lie_vec : list real) : res (list (list real)) :=
  if negb (np_any lie_vec) then Ok (identity 3)
  else
    let angle := norm lie_vec / 2 in
    let n := map (fun a => a / norm lie_vec) lie_vec in
    let c := cos angle in
    let s := sin angle in
    res_bind (index n 0) (fun x =>
    res_bind (index n 1) (fun y =>
    res_bind (index n 2) (fun z =>
    Ok [ [c + x ^ 2 * (1 - c);     x * y * (1 - c) - z * s;  x * z * (1 - c) + y * s];
         [y * x * (1 - c) + z * s; c + y ^ 2 * (1 - c);      y * z * (1 - c) - x * s];
         [z * x * (1 - c) - y * s; z * y * (1 - c) + x * s;  c + z ^ 2 * (1 - c)] ]))).

(** [np.cross(a, b, axisa=0, axisb=0, axisc=0)] of two 3xN arrays: the
    cross products of the corresponding columns, as the columns of a 3xN
    array. *)
Definition cross_columns (a b : list (list real)) : list (list real) :=
  let a0 := nth 0 a [] in
  let a1 := nth 1 a [] in
  let a2 := nth 2 a [] in
  let b0 := nth 0 b [] in
  let b1 := nth 1 b [] in
  let b2 := nth 2 b [] in
  [ vsub (zipWith Rmult a1 b2) (zipWith Rmult a2 b1);
    vsub (zipWith Rmult a2 b0) (zipWith Rmult a0 b2);
    vsub (zipWith Rmult a0 b1) (zipWith Rmult a1 b0) ].

(** [axb2(a, b)] with [sumall=True]: the sum over the columns of
    [|a x b|^2]. *)
Definition axb2 (a b : list (list real)) : real :=
  vsum (concat (msquare (cross_columns a b))).

(** [axb2(a, b, sumall=False)]: one [|a x b|^2] per column. *)
Definition axb2_columns (a b : list (list real)) : list real :=
  let sq := msquare (cross_columns a b) in
  vadd (nth 0 sq []) (vadd (nth 1 sq []) (nth 2 sq [])).

(** [alignment_cost(a, b)], applied to [lie_params]. *)
Definition alignment_cost (a b : list (list real)) (lie_params : list real)
    : res real :=
  res_bind (R lie_params) (fun rot => Ok (axb2 a (mm rot b))).

(** [cal_matrix(params)], [params = [scale1, scale2, scale3, lie1, lie2,
    lie3]]. *)
Definition cal_matrix (params : list real) : res (list (list real)) :=
  res_bind (R (firstn 3 (skipn 3 params)))
           (fun rot => Ok (mm rot (diag (firstn 3 params)))).

(** [calibration_cost(a, b)], applied to [params]. *)
Definition calibration_cost (a b : list (list real)) (params : list real)
    : res real :=
  res_bind (cal_matrix params)
           (fun c => Ok (vsum (concat (msquare (msub a (mm c b)))))).

(** The determinant of a 3x3 matrix, by expansion along the first row. *)
Definition det3 (m : list (list real)) : real :=
  match m with
  | [[a; b; c]; [d; e; f]; [g; h; i]] =>
      a * (e * i - f * h) - b * (d * i - f * g) + c * (d * h - e * g)
  | _ => 0
  end.

(** [lie_angle(lie_vec)], in radians. *)
Definition lie_angle (lie_vec : list real) : real := norm lie_vec / 2.

(** Every entry of the vector is zero. *)
Definition all_zero (v : list real) : Prop := Forall (fun a => a = 0) v.

(** The trace of a 3x3 matrix. *)
Definition trace3 (m : list (list real)) : real :=
  match m with
  | [[a; _; _]; [_; e; _]; [_; _; i]] => a + e + i
  | _ => 0
  end.

(** The rotation by the angle [theta] about the first axis. *)
Definition rotation_x (theta : real) : list (list real) :=
  [ [1; 0; 0];
    [0; cos theta; - sin theta];
    [0; sin theta; cos theta] ].

End Lie.

(** ** The [workspace] dictionary *)

Section Dict.

Variable V : Type.

(** A Python [dict] with string keys. *)
Definition dict : Type := list (string * V).

Fixpoint dict_get (k : string) (d : dict) : option V :=
  match d with
  | [] => None
  | (k', v) :: d' => if String.eqb k k' then Some v else dict_get k d'
  end.

(** [k in d.keys()]. *)
Definition dict_mem (k : string) (d : dict) : bool :=
  match dict_get k d with
  | Some _ => true
  | None => false
  end.

(** [d[k] = v]. *)
Fixpoint dict_set (k : string) (v : V) (d : dict) : dict :=
  match d with
  | [] => [(k, v)]
  | (k', v') :: d' =>
      if String.eqb k k' then (k, v) :: d' else (k', v') :: dict_set k v d'
  end.

End Dict.

(** ** [apply_ahrs], [calibrate], [idx_filter] and [msqError] *)

Section Fusion.

Context {num : Type} {N : Num num}.

Local Open Scope py_scope.
Local Open Scope string_scope.

(** The [ahrs] package and [numpy.linalg.norm] are outside the repository:
    the Madgwick updates take the filter's [beta] and [frequency] first,
    then the arguments of the Python method; [quaternion q] is the array of
    the object [Quaternion(q)], and [rotate] its method of that name. *)
Variable norm : list num -> num.
Variable updateIMU : num -> num -> list num -> list num -> list num -> list num.
Variable updateMARG :
  num -> num -> list num -> list num -> list num -> list num -> list num.
Variable quaternion : list num -> list num.
Variable rotate : list num -> list num -> list num.

(** The workspace maps a key to a two-dimensional array.  The store of a
    call is the dictionary object it runs on: the one the caller passed, or,
    for a call that leaves [workspace] out, the one dictionary that the
    [def] statement built for the default and that the function object
    keeps from call to call. *)
Definition workspace : Type := dict (list (list num)).

(** [workspace=dict()], evaluated once, when the function is defined. *)
Definition default_workspace : workspace := [].

Definition ws_mem (k : string) : M workspace bool :=
  fun w => (Ok (dict_mem k w), w).

(** [workspace[k]]. *)
Definition ws_load (k : string) : M workspace (list (list num)) :=
  fun w =>
    match dict_get k w with
    | Some a => (Ok a, w)
    | None => (Err KeyError, w)
    end.

(** [workspace[k] = a]. *)
Definition ws_store (k : string) (a : list (list num)) : M workspace unit :=
  fun w => (Ok tt, dict_set k a w).

(** [workspace[k][t]]. *)
Definition ws_row (k : string) (t : nat) : M workspace (list num) :=
  let* a := ws_load k in
  lift (index a t).

(** [workspace[k][t] = row]: a write into the array that the key holds. *)
Definition ws_store_row (k : string) (t : nat) (row : list num)
    : M workspace unit :=
  let* a := ws_load k in
  let* a' := lift (assign a t row) in
  ws_store k a'.

(** The array that the workspace holds under a key; empty when the key is
    missing. *)
Definition arr (k : string) (w : workspace) : list (list num) :=
  match dict_get k w with
  | Some a => a
  | None => []
  end.

(** A workspace that a run on [n] samples can use: each of the three
    arrays is missing or has [n] rows, and the first row of ["acc_lab"],
    which no run writes, is the zero row that the allocation gave it. *)
Definition reusable (n : nat) (w : workspace) : Prop :=
  (forall k, k = "Q" \/ k = "Q_quat" \/ k = "acc_lab" ->
     forall a, dict_get k w = Some a -> length a = n)
  /\ (forall al, dict_get "acc_lab" w = Some al ->
        nth_error al 0 = Some (zeros 3)).

(** [if k not in workspace.keys(): workspace[k] = a]. *)
Definition allocate (k : string) (a : list (list num)) : M workspace unit :=
  let* present := ws_mem k in
  if present then ret tt else ws_store k a.

Definition assert {S : Type} (b : bool) : M S unit :=
  if b then ret tt else raise AssertionError.

Section Apply_ahrs.

(** The keyword [reset] of the Python function is never read, and is left
    out. *)
Variables (gyro acc mag : list (list num)) (ts : list num) (q0 g : list num)
          (position : bool) (zero_period : num) (filter : string)
          (betaval : num).

(** [q0/np.linalg.norm(q0)]. *)
Definition unit_q0 : list num := map (fun x => ndiv x (norm q0)) q0.

Definition frequency : num := ndiv n1 (mean_step ts).

(** The value of [next_zero] after [k] iterations when [position] is set:
    the first boundary is [zero_period], and a sample whose timestamp
    exceeds the pending boundary puts the next one [zero_period] after
    itself. *)
Fixpoint reset_boundary (k : nat) : num :=
  match k with
  | 0 => zero_period
  | S k' =>
      let b := reset_boundary k' in
      if nltb b (nth k ts n0) then nadd (nth k ts n0) zero_period else b
  end.

(** One iteration of the estimation loop, for the index [t >= 1].  The
    loop carries [next_zero]; it is read only when [position] is set. *)
Definition ahrs_step (t : nat) (next_zero : num) : M workspace num :=
  let A := transition (mean_step ts) in
  let B := control (mean_step ts) in
  (if filter =? "IMU" then
     let* qp := ws_row "Q" (t - 1) in
     let* w := lift (index gyro t) in
     let* a := lift (index acc t) in
     ws_store_row "Q" t (updateIMU betaval frequency qp w a)
   else if filter =? "MARG" then
     let* qp := ws_row "Q" (t - 1) in
     let* w := lift (index gyro t) in
     let* a := lift (index acc t) in
     let* m := lift (index mag t) in
     ws_store_row "Q" t (updateMARG betaval frequency qp w a m)
   else ret tt) ;;
  let* qt := ws_row "Q" t in
  ws_store_row "Q_quat" t (quaternion qt) ;;
  let* qt := ws_row "Q" t in
  let* a := lift (index acc t) in
  ws_store_row "acc_lab" t (vsub (rotate (quaternion qt) a) g) ;;
  if position then
    let* sp := ws_row "state" (t - 1) in
    let* ap := ws_row "acc_lab" (t - 1) in
    ws_store_row "state" t (vadd (mv A sp) (mv B ap)) ;;
    let* now := lift (index ts t) in
    if nltb next_zero now then
      ws_store_row "state" t (zeros 6) ;;
      ret (nadd now zero_period)
    else ret next_zero
  else ret next_zero.

(** The orientation filter, sample by sample, in IMU mode: the seed
    [q0], normalised, then one Madgwick correction per sample, from the
    previous quaternion and the current angular rate and accelerometer
    reading. *)
Fixpoint orientation (t : nat) : list num :=
  match t with
  | 0 => unit_q0
  | S t' =>
      updateIMU betaval frequency (orientation t') (nth t gyro []) (nth t acc [])
  end.

(** The lab-frame acceleration of a sample: the accelerometer reading
    rotated by the quaternion of that sample, less the gravity [g].  No
    step runs for the first sample, whose row stays at zero. *)
Definition lab_frame (t : nat) : list num :=
  match t with
  | 0 => zeros 3
  | S _ => vsub (rotate (quaternion (orientation t)) (nth t acc [])) g
  end.

Definition lab_history : list (list num) :=
  map lab_frame (seq 0 (length ts)).

(** The workspace once the samples up to [k] are filtered. *)
Definition filtered_up_to (k : nat) (w : workspace) : Prop :=
  exists Qk Qqk alk : list (list num),
    dict_get "Q" w = Some Qk
    /\ dict_get "Q_quat" w = Some Qqk
    /\ dict_get "acc_lab" w = Some alk
    /\ length Qk = length ts
    /\ length Qqk = length ts
    /\ length alk = length ts
    /\ (forall j, j <= k -> j < length ts ->
          nth_error Qk j = Some (orientation j)
          /\ nth_error alk j = Some (lab_frame j)).

(** What [apply_ahrs] returns: [acc_lab] and [Q], and [state] when
    [position] is set.  The arrays are those of the workspace. *)
Definition apply_ahrs
    : M workspace (list (list num) * list (list num) * option (list (list num))) :=
  assert (length gyro =? length acc)%nat ;;
  assert (length acc =? length mag)%nat ;;
  assert (length mag =? length ts)%nat ;;
  let q0 := unit_q0 in
  assert (length q0 =? 4)%nat ;;
  assert (length g =? 3)%nat ;;
  let num_samples := length ts in
  allocate "Q" (repeat q0 num_samples) ;;
  ws_store_row "Q" 0 q0 ;;
  allocate "Q_quat" (repeat (quaternion q0) num_samples) ;;
  ws_store_row "Q_quat" 0 (quaternion q0) ;;
  allocate "acc_lab" (zeros2 num_samples 3) ;;
  (if position then allocate "state" (zeros2 num_samples 6) else ret tt) ;;
  for_each (seq 1 (num_samples - 1)) ahrs_step zero_period ;;
  let* acc_lab := ws_load "acc_lab" in
  let* Q := ws_load "Q" in
  if position then
    let* state := ws_load "state" in
    ret (acc_lab, Q, Some state)
  else ret (acc_lab, Q, None).

(** The function up to the end of iteration [k] of its loop: the value of
    [next_zero] at that point. *)
Definition ahrs_prefix (k : nat) : M workspace num :=
  assert (length gyro =? length acc)%nat ;;
  assert (length acc =? length mag)%nat ;;
  assert (length mag =? length ts)%nat ;;
  let q0 := unit_q0 in
  assert (length q0 =? 4)%nat ;;
  assert (length g =? 3)%nat ;;
  let num_samples := length ts in
  allocate "Q" (repeat q0 num_samples) ;;
  ws_store_row "Q" 0 q0 ;;
  allocate "Q_quat" (repeat (quaternion q0) num_samples) ;;
  ws_store_row "Q_quat" 0 (quaternion q0) ;;
  allocate "acc_lab" (zeros2 num_samples 3) ;;
  (if position then allocate "state" (zeros2 num_samples 6) else ret tt) ;;
  for_each (seq 1 k) ahrs_step zero_period.

End Apply_ahrs.

(** [calibrate(data, params)]: the scale-bias operation on an Nx3 array. The
    bias is added to every row. *)
Definition calibrate (data : list (list num)) (params : option (list num))
    : list (list num) :=
  match params with
  | None => data
  | Some p =>
      let scale := firstn 3 p in
      let bias := firstn 3 (skipn 3 p) in
      map (fun row => vadd row bias) (mm data (diag scale))
  end.

(** [a[mask]] for a boolean array [mask]: numpy raises [IndexError] when
    the lengths differ. *)
Fixpoint select {X : Type} (mask : list bool) (a : list X) : res (list X) :=
  match mask, a with
  | [], [] => Ok []
  | b :: mask', x :: a' =>
      res_bind (select mask' a')
               (fun rest => Ok (if b then x :: rest else rest))
  | _, _ => Err IndexError
  end.

(** [idx_filter(t, data, intervals)]: the samples whose time lies strictly
    inside one of the intervals. *)
Definition idx_filter (t : list num) (data : list (list num))
    (intervals : list (num * num)) : res (list num * list (list num)) :=
  let mask :=
    fold_left (fun mask interval =>
                 zipWith orb mask
                         (map (fun x => nltb (fst interval) x
                                        && nltb x (snd interval)) t))
              intervals (repeat false (length t)) in
  res_bind (select mask t) (fun t' =>
  res_bind (select mask data) (fun data' => Ok (t', data'))).

(** The defaults of [apply_ahrs] that [msqError] leaves in place. *)
Definition default_zero_period : num := ndiv n3 (of_nat 10).

Definition default_betaval : num := ndiv n1 (of_nat 10).

(** [msqError(params, intervals, acc, gyro, mag, ts, g, workspace)]. *)
Definition msqError (params : list num) (intervals : list (num * num))
    (acc gyro mag : list (list num)) (ts : list num) (g : list num)
    : M workspace num :=
  let q0 := skipn 6 params in
  ws_store "acc_scratch" (calibrate acc (Some params)) ;;
  let* scratch := ws_load "acc_scratch" in
  let* out := apply_ahrs gyro scratch mag ts q0 g false
                         default_zero_period "IMU" default_betaval in
  ws_store "acc_scratch" (fst (fst out)) ;;
  let* scratch := ws_load "acc_scratch" in
  let* kept := lift (idx_filter ts scratch intervals) in
  ws_store "acc_scratch" (snd kept) ;;
  let* scratch := ws_load "acc_scratch" in
  ret (nmul n3 (mean2 (msquare scratch))).

(** *** The calibration evaluator, in the words of the specification *)

(** The scale-bias calibration of one accelerometer sample. *)
Definition scale_bias (params a : list num) : list num :=
  vadd (zipWith nmul a (firstn 3 params)) (firstn 3 (skipn 3 params)).

(** The time [x] lies strictly inside one of the quiet intervals. *)
Definition inside (intervals : list (num * num)) (x : num) : bool :=
  existsb (fun interval => nltb (fst interval) x && nltb x (snd interval))
          intervals.

(** The rows whose timestamp lies inside a quiet interval. *)
Definition quiet_rows (intervals : list (num * num)) (ts : list num)
    (rows : list (list num)) : list (list num) :=
  map snd (filter (fun p => inside intervals (fst p)) (combine ts rows)).

(** Calibrate the accelerometer stream, run the orientation filter seeded
    with the orientation part of [params], keep the lab-frame acceleration
    of the quiet samples, and return three times the mean of its squares. *)
Definition EvaluateCalibration (params : list num)
    (intervals : list (num * num)) (acc gyro : list (list num))
    (ts g : list num) : num :=
  let calibrated := map (scale_bias params) acc in
  let lab := lab_history gyro calibrated ts (skipn 6 params) g default_betaval in
  nmul n3 (mean2 (msquare (quiet_rows intervals ts lab))).

End Fusion.

(** ** Sample data, on the rationals *)

Module Sample.

Local Open Scope string_scope.

Definition q (a : Z) (b : positive) : Qc := Q2Qc (a # b).

(** The [ahrs] functions and the norm, as they act on the samples below:
    with a zero angular rate [Madgwick.updateIMU] and [updateMARG] return
    the quaternion they were given, [Quaternion] of a unit quaternion is
    that quaternion, the identity quaternion [1, 0, 0, 0] rotates a vector
    onto itself, and the norm of [1, 0, 0, 0] is its sum of squares. *)
Definition norm (v : list Qc) : Qc := vdot v v.

Definition updateIMU (beta frequency : Qc) (qp gyr acc : list Qc) : list Qc :=
  qp.

Definition updateMARG (beta frequency : Qc) (qp gyr acc mag : list Qc)
    : list Qc := qp.

Definition quaternion (qv : list Qc) : list Qc := qv.

Definition rotate (qv a : list Qc) : list Qc := a.

Definition v3 (a b c : Z) : list Qc := [q a 1; q b 1; q c 1].

(** Four samples, a tenth of a second apart, for [kalman_filter]. *)
Definition t4 : list Qc := [q 0 1; q 1 10; q 2 10; q 3 10].

Definition acc_lab4 : list (list Qc) := [v3 0 0 0; v3 1 0 0; v3 1 0 0; v3 1 0 0].

Definition z4 : list (list Qc) :=
  repeat [q 1 1; q 2 1; q 3 1; q 4 1; q 5 1; q 6 1] 4.

Definition noise : list Qc := repeat (q 1 10) 6.

Definition no_noise : list Qc := repeat (q 0 1) 6.

Definition at_rest4 : list (list Qc) := repeat (v3 0 0 0) 4.

(** Three samples, one second apart, for [apply_ahrs]: no rotation, and a
    gravity of one unit along the third axis. *)
Definition ts3 : list Qc := [q 0 1; q 1 1; q 2 1].

Definition gyro3 : list (list Qc) := repeat (v3 0 0 0) 3.

Definition acc3 : list (list Qc) := [v3 0 0 1; v3 1 0 1; v3 2 0 1].

Definition mag3 : list (list Qc) := repeat (v3 0 0 0) 3.

Definition q_identity : list Qc := [q 1 1; q 0 1; q 0 1; q 0 1].

Definition gravity : list Qc := v3 0 0 1.

(** [apply_ahrs] on a stream of samples, with the functions above. *)
Definition ahrs (gyro acc mag : list (list Qc)) (ts : list Qc)
    (position : bool) (zero_period : Qc)
    : M (workspace (num := Qc))
        (list (list Qc) * list (list Qc) * option (list (list Qc))) :=
  apply_ahrs norm updateIMU updateMARG quaternion rotate gyro acc mag ts
             q_identity gravity position zero_period "IMU" (q 1 10).

(** The value under [Ok], or the fallback. *)
Definition value {X : Type} (r : res X) (fallback : X) : X :=
  match r with
  | Ok x => x
  | Err _ => fallback
  end.

(** A run of [kalman_filter] on the four samples, and its outcome. *)
Definition kalman_run4 (reset : bool) : res Kalman.locals * list (list Qc) :=
  Kalman.kalman_run t4 acc_lab4 noise noise reset (q 3 10) z4.

Definition no_locals : Kalman.locals :=
  {| Kalman.state_guess := [];
     Kalman.P := [];
     Kalman.next_zero := q 0 1;
     Kalman.state_naive := [];
     Kalman.P_naive := [] |}.

Definition kalman_lf (reset : bool) : Kalman.locals :=
  value (fst (kalman_run4 reset)) no_locals.

Definition kalman_zf (reset : bool) : list (list Qc) := snd (kalman_run4 reset).

(** A run of [apply_ahrs] with [position=True] on the three samples, from
    the empty workspace, and its outcome. *)
Definition ahrs_run3 (zero_period : Qc) :=
  ahrs gyro3 acc3 mag3 ts3 true zero_period [].

Definition ahrs_lab (zero_period : Qc) : list (list Qc) :=
  fst (fst (value (fst (ahrs_run3 zero_period)) ([], [], None))).

Definition ahrs_Q (zero_period : Qc) : list (list Qc) :=
  snd (fst (value (fst (ahrs_run3 zero_period)) ([], [], None))).

Definition ahrs_state (zero_period : Qc) : list (list Qc) :=
  match snd (value (fst (ahrs_run3 zero_period)) ([], [], None)) with
  | Some st => st
  | None => []
  end.

Definition ahrs_w (zero_period : Qc) : workspace (num := Qc) :=
  snd (ahrs_run3 zero_period).

End Sample.

(** * Properties *)

#[export] Instance NumLawsQc : @NumLaws Qc NumQc.
Proof.
  split.
  - exact Qcft.
  - intros a b. split.
    + apply Qc_eq_bool_correct.
    + intros ->. unfold neqb, NumQc, Qc_eq_bool.
      destruct (Qc_eq_dec b b) as [_ | Hne]; [reflexivity | now elim Hne].
Qed.

#[export] Instance NumLawsR : @NumLaws real NumR.
Proof.
  split.
  - exact Rfield.
  - intros a b. unfold neqb, NumR.
    destruct (Req_dec_T a b) as [He | Hne]; split; intros H;
      try reflexivity; try assumption; try discriminate H.
    now elim Hne.
Qed.

(** ** The rotation module *)

Section Rotation_facts.

Local Open Scope R_scope.

Lemma neqb_R_refl (a : real) : neqb a a = true.
Proof.
  cbn. destruct (Req_dec_T a a) as [_ | Hne]; [reflexivity | now elim Hne].
Qed.

Lemma neqb_R_neq (a b : real) : a <> b -> neqb a b = false.
Proof.
  intros Hne. cbn. destruct (Req_dec_T a b) as [He | _]; [now elim Hne | reflexivity].
Qed.

Lemma neqb_R_true (a b : real) : neqb a b = true -> a = b.
Proof.
  cbn. destruct (Req_dec_T a b) as [He | _]; [intros _; exact He | discriminate].
Qed.

Lemma vdot_self_nonneg (v : list real) : 0 <= vdot v v.
Proof.
  unfold vdot, vsum. induction v as [| a v IH]; cbn.
  - lra.
  - cbn in IH. nra.
Qed.

Lemma vdot_self_zero (v : list real) : vdot v v = 0 -> Forall (fun a => a = 0) v.
Proof.
  unfold vdot, vsum. induction v as [| a v IH]; cbn; intros H.
  - constructor.
  - pose proof (vdot_self_nonneg v) as Hv. unfold vdot, vsum in Hv. cbn in Hv.
    assert (Ha : a = 0) by nra.
    constructor; [exact Ha | apply IH; cbn; nra].
Qed.

Lemma norm_zero (v : list real) : Lie.norm v = 0 -> Forall (fun a => a = 0) v.
Proof.
  unfold Lie.norm. intros H. apply vdot_self_zero.
  apply sqrt_eq_0; [apply vdot_self_nonneg | exact H].
Qed.

Lemma vdot_zero_l (u v : list real) : Forall (fun a => a = 0) u -> vdot u v = 0.
Proof.
  unfold vdot, vsum. intros Hu. revert v.
  induction Hu as [| a u Ha _ IH]; intros [| b v]; cbn; try reflexivity.
  specialize (IH v). cbn in IH. rewrite IH, Ha. lra.
Qed.

Lemma vdot_zero_r (u v : list real) : Forall (fun a => a = 0) v -> vdot u v = 0.
Proof.
  unfold vdot, vsum. intros Hv. revert u.
  induction Hv as [| b v Hb _ IH]; intros [| a u]; cbn; try reflexivity.
  specialize (IH u). cbn in IH. rewrite IH, Hb. lra.
Qed.

Lemma norm3_sqr (x y z : real) :
  Lie.norm [x; y; z] * Lie.norm [x; y; z] = x * x + y * y + z * z.
Proof.
  unfold Lie.norm. rewrite sqrt_sqrt.
  - cbn. lra.
  - apply vdot_self_nonneg.
Qed.

Lemma norm3_nonzero (x y z : real) :
  ~ (x = 0 /\ y = 0 /\ z = 0) -> Lie.norm [x; y; z] <> 0.
Proof.
  intros Hv Hn. apply norm_zero in Hn.
  inversion Hn as [| ? ? Hx Hn1]; subst.
  inversion Hn1 as [| ? ? Hy Hn2]; subst.
  inversion Hn2 as [| ? ? Hz _]; subst.
  apply Hv. repeat split; reflexivity.
Qed.

Lemma np_any3_nonzero (x y z : real) :
  ~ (x = 0 /\ y = 0 /\ z = 0) -> Lie.np_any [x; y; z] = true.
Proof.
  intros Hv. unfold Lie.np_any. cbn -[neqb].
  destruct (Req_dec_T x 0) as [Hx | Hx].
  2:{ rewrite (neqb_R_neq Hx). reflexivity. }
  destruct (Req_dec_T y 0) as [Hy | Hy].
  2:{ rewrite (neqb_R_neq Hy). cbn. now rewrite orb_true_r. }
  destruct (Req_dec_T z 0) as [Hz | Hz].
  2:{ rewrite (neqb_R_neq Hz). cbn. now rewrite !orb_true_r. }
  elim Hv. repeat split; assumption.
Qed.

(** The Rodrigues matrix of a unit axis and of a cosine-sine pair. *)
Lemma rodrigues_rotation (x y z c s : real) :
  x * x + y * y + z * z = 1 -> c * c + s * s = 1 ->
  let m :=
    [ [c + x ^ 2 * (1 - c);     x * y * (1 - c) - z * s;  x * z * (1 - c) + y * s];
      [y * x * (1 - c) + z * s; c + y ^ 2 * (1 - c);      y * z * (1 - c) - x * s];
      [z * x * (1 - c) - y * s; z * y * (1 - c) + x * s;  c + z ^ 2 * (1 - c)] ] in
  mm (transpose m) m = [[1; 0; 0]; [0; 1; 0]; [0; 0; 1]] /\ Lie.det3 m = 1.
Proof.
  intros Hn Hc m. subst m. split.
  - cbn. repeat (f_equal; try nsatz).
  - cbn. nsatz.
Qed.

(** C1. For every Lie vector [x; y; z] that is not the zero vector, [R]
    returns a matrix [m] that is orthogonal, [m^T m = I], and has
    determinant [1] (on the real numbers, where the floating tolerance is
    zero). *)
Theorem R_proper_rotation (x y z : real) :
  ~ (x = 0 /\ y = 0 /\ z = 0) ->
  exists m : list (list real),
    Lie.R [x; y; z] = Ok m
    /\ mm (transpose m) m = [[1; 0; 0]; [0; 1; 0]; [0; 0; 1]]
    /\ Lie.det3 m = 1.
Proof.
  intros Hv. unfold Lie.R.
  rewrite (np_any3_nonzero Hv). cbn [negb map index nth_error res_bind].
  pose proof (norm3_nonzero Hv) as Hn.
  pose proof (norm3_sqr x y z) as Hsq.
  set (nv := Lie.norm [x; y; z]) in *.
  eexists. split; [reflexivity |].
  apply rodrigues_rotation.
  - replace (x / nv * (x / nv) + y / nv * (y / nv) + z / nv * (z / nv))
      with ((x * x + y * y + z * z) / (nv * nv)) by (field; exact Hn).
    rewrite <- Hsq. field. exact Hn.
  - pose proof (sin2_cos2 (nv / 2)) as H. unfold Rsqr in H. lra.
Qed.

Lemma R_proper_rotation_witness :
  ~ (1 = 0 /\ 0 = 0 /\ 0 = 0)
  /\ exists m : list (list real),
       Lie.R [1; 0; 0] = Ok m
       /\ mm (transpose m) m = [[1; 0; 0]; [0; 1; 0]; [0; 0; 1]]
       /\ Lie.det3 m = 1.
Proof.
  assert (H : ~ (1 = 0 /\ 0 = 0 /\ 0 = 0)) by (intros [H _]; lra).
  split; [exact H | apply (R_proper_rotation H)].
Defined.

Lemma R_zeros : Lie.R [0; 0; 0] = Ok [[1; 0; 0]; [0; 1; 0]; [0; 0; 1]].
Proof.
  unfold Lie.R, Lie.np_any. cbn -[neqb]. rewrite !neqb_R_refl. reflexivity.
Qed.

(** C2. On the zero vector [R] returns exactly the 3x3 identity matrix. *)
Theorem R_zero_identity :
  Lie.R [0; 0; 0] = Ok [[1; 0; 0]; [0; 1; 0]; [0; 0; 1]].
Proof.
  exact R_zeros.
Qed.

Lemma np_divide_zero_denominator (a : real) :
  Lie.np_arccos (Lie.np_divide a 0) = Lie.NaN.
Proof.
  unfold Lie.np_divide. rewrite neqb_R_refl.
  destruct (neqb a 0); reflexivity.
Qed.

Lemma subangle_zero_norm (v1 v2 : list real) :
  Lie.norm v1 = 0 \/ Lie.norm v2 = 0 -> Lie.subangle v1 v2 = Lie.NaN.
Proof.
  intros H. unfold Lie.subangle.
  replace (Lie.norm v1 * Lie.norm v2) with 0 by (destruct H as [H | H]; rewrite H; ring).
  apply np_divide_zero_denominator.
Qed.

Lemma norm_zeros3 : Lie.norm [0; 0; 0] = 0.
Proof.
  unfold Lie.norm. cbn. replace (0 * 0 + (0 * 0 + (0 * 0 + 0))) with 0 by ring.
  apply sqrt_0.
Qed.

Lemma zipWith_mul_zero_l (u v : list real) :
  Lie.all_zero u -> Lie.all_zero (zipWith Rmult u v).
Proof.
  intros Hu. revert v. induction Hu as [| a u Ha _ IH]; intros [| b v]; cbn;
    try constructor.
  - rewrite Ha. ring.
  - apply IH.
Qed.

Lemma vsub_zero (u v : list real) :
  Lie.all_zero u -> Lie.all_zero v -> Lie.all_zero (vsub u v).
Proof.
  intros Hu. revert v. induction Hu as [| a u Ha _ IH]; intros v Hv; cbn.
  - constructor.
  - destruct Hv as [| b v Hb Hv]; cbn; constructor.
    + rewrite Ha, Hb. ring.
    + apply IH, Hv.
Qed.

Lemma nth_all_zero (a : list (list real)) (i : nat) :
  Forall Lie.all_zero a -> Lie.all_zero (nth i a []).
Proof.
  intros Ha. revert i. induction Ha as [| r a Hr _ IH]; intros [| i]; cbn;
    try constructor; auto.
Qed.

Lemma vsum_squares_zero (m : list (list real)) :
  Forall Lie.all_zero m -> vsum (concat (msquare m)) = 0.
Proof.
  unfold vsum, msquare. induction 1 as [| r m Hr _ IH]; cbn.
  - reflexivity.
  - rewrite fold_right_app. cbn in IH. rewrite IH.
    induction Hr as [| a r Ha _ IHr]; cbn.
    + reflexivity.
    + rewrite IHr, Ha. ring.
Qed.

Lemma axb2_zero_l (a b : list (list real)) :
  Forall Lie.all_zero a -> Lie.axb2 a b = 0.
Proof.
  intros Ha. unfold Lie.axb2. apply vsum_squares_zero.
  unfold Lie.cross_columns.
  repeat constructor; apply vsub_zero; apply zipWith_mul_zero_l;
    apply nth_all_zero; exact Ha.
Qed.

(** The angle function has no branch for a vector of norm zero: the value it
    returns there is not a number. *)
Lemma subangle_zero_vector_not_special_cased :
  Lie.norm [0; 0; 0] = 0
  /\ ~ (exists angle : real, Lie.subangle [0; 0; 0] [1; 0; 0] = Lie.Finite angle).
Proof.
  split; [apply norm_zeros3 |].
  intros [angle H].
  rewrite subangle_zero_norm in H by (left; apply norm_zeros3).
  discriminate H.
Qed.

(** C8, as amended. [R] special-cases the zero rotation vector and returns
    the identity.  [subangle] has no special case: when one of its vectors
    has norm zero it evaluates the arc cosine of [0/0] and returns
    not-a-number, which is a value and not an exception.  The cost function
    [axb2] has no special case and needs none: when the columns of [a] are
    zero, the cost is zero. *)
Theorem degenerate_geometry (v1 v2 : list real) (a b : list (list real)) :
  (Lie.norm v1 = 0 \/ Lie.norm v2 = 0) ->
  Forall Lie.all_zero a ->
  Lie.R [0; 0; 0] = Ok [[1; 0; 0]; [0; 1; 0]; [0; 0; 1]]
  /\ Lie.subangle v1 v2 = Lie.NaN
  /\ Lie.axb2 a b = 0.
Proof.
  intros Hn Ha. split; [apply R_zeros |].
  split; [apply subangle_zero_norm, Hn | apply axb2_zero_l, Ha].
Qed.

Lemma degenerate_geometry_witness :
  Lie.R [0; 0; 0] = Ok [[1; 0; 0]; [0; 1; 0]; [0; 0; 1]]
  /\ Lie.subangle [0; 0; 0] [1; 0; 0] = Lie.NaN
  /\ Lie.axb2 [[0; 0]; [0; 0]; [0; 0]] [[1; 2]; [3; 4]; [5; 6]] = 0.
Proof.
  apply degenerate_geometry.
  - left. apply norm_zeros3.
  - repeat constructor.
Defined.

End Rotation_facts.

(** ** The orientation filter: input validation *)

Section Validation_facts.

Context {num : Type} {N : Num num}.

Variable norm : list num -> num.
Variable updateIMU : num -> num -> list num -> list num -> list num -> list num.
Variable updateMARG :
  num -> num -> list num -> list num -> list num -> list num -> list num.
Variable quaternion : list num -> list num.
Variable rotate : list num -> list num -> list num.

(** C7. When the gyro, accelerometer, magnetometer and timestamp sequences
    do not all have the same length, [apply_ahrs] raises [AssertionError]
    and leaves the workspace as it found it: nothing was allocated and no
    filter step wrote a row, so no history is produced. *)
Theorem apply_ahrs_length_mismatch
    (gyro acc mag : list (list num)) (ts q0 g : list num) (position : bool)
    (zero_period : num) (filter : string) (betaval : num)
    (w : workspace (num := num)) :
  ~ (length gyro = length acc /\ length acc = length mag
     /\ length mag = length ts) ->
  apply_ahrs norm updateIMU updateMARG quaternion rotate
             gyro acc mag ts q0 g position zero_period filter betaval w
  = (Err AssertionError, w).
Proof.
  intros Hlen. unfold apply_ahrs, bind, assert.
  destruct (length gyro =? length acc) eqn:E1; [| reflexivity].
  destruct (length acc =? length mag) eqn:E2; [| reflexivity].
  destruct (length mag =? length ts) eqn:E3; [| reflexivity].
  apply Nat.eqb_eq in E1, E2, E3. elim Hlen. auto.
Qed.

End Validation_facts.

(** ** The monad and the loops *)

Section Monad_facts.

Variables S X Y : Type.

Lemma bind_ok (c : M S X) (k : X -> M S Y) (s s2 : S) (y : Y) :
  bind c k s = (Ok y, s2) ->
  exists (x : X) (s1 : S), c s = (Ok x, s1) /\ k x s1 = (Ok y, s2).
Proof.
  unfold bind. destruct (c s) as [[x | e] s1]; intros H.
  - exists x, s1. split; [reflexivity | exact H].
  - discriminate H.
Qed.

Lemma bind_eq (c : M S X) (k : X -> M S Y) (s s1 : S) (x : X) :
  c s = (Ok x, s1) -> bind c k s = k x s1.
Proof.
  intros H. unfold bind. rewrite H. reflexivity.
Qed.

Lemma lift_ok (r : res X) (s s1 : S) (x : X) :
  lift r s = (Ok x, s1) -> r = Ok x /\ s1 = s.
Proof.
  unfold lift. intros H. inversion H. split; reflexivity.
Qed.

Lemma ret_ok (x x' : X) (s s1 : S) :
  ret x s = (Ok x', s1) -> x' = x /\ s1 = s.
Proof.
  unfold ret. intros H. inversion H. split; reflexivity.
Qed.

End Monad_facts.

Section Loop_facts.

Variables S I L : Type.

Lemma for_each_app (xs ys : list I) (body : I -> L -> M S L) (l : L) (s : S) :
  for_each (xs ++ ys) body l s
  = bind (for_each xs body l) (for_each ys body) s.
Proof.
  revert l s. induction xs as [| i xs IH]; intros l s; cbn.
  - reflexivity.
  - unfold bind. destruct (body i l s) as [[l1 | e] s1].
    + rewrite IH. reflexivity.
    + reflexivity.
Qed.

(** A loop that completes has completed each of its prefixes. *)
Lemma for_each_prefix (xs ys : list I) (body : I -> L -> M S L) (l lf : L)
    (s sf : S) :
  for_each (xs ++ ys) body l s = (Ok lf, sf) ->
  exists (l1 : L) (s1 : S),
    for_each xs body l s = (Ok l1, s1)
    /\ for_each ys body l1 s1 = (Ok lf, sf).
Proof.
  rewrite for_each_app. apply bind_ok.
Qed.

End Loop_facts.

Lemma seq_split (a i k : nat) :
  i <= k -> seq a k = seq a i ++ seq (a + i) (k - i).
Proof.
  intros H. replace k with (i + (k - i)) at 1 by lia. apply seq_app.
Qed.

(** ** Lists *)

Section List_facts.

Variable X : Type.

Lemma set_nth_length (i : nat) (x : X) (l : list X) :
  length (set_nth i x l) = length l.
Proof.
  revert i. induction l as [| h l IH]; intros [| i]; cbn; auto.
Qed.

Lemma nth_set_nth_same (i : nat) (x d : X) (l : list X) :
  i < length l -> nth i (set_nth i x l) d = x.
Proof.
  revert i. induction l as [| h l IH]; intros [| i] H; cbn in *; try lia; auto.
  apply IH. lia.
Qed.

Lemma nth_set_nth_other (i j : nat) (x d : X) (l : list X) :
  i <> j -> nth j (set_nth i x l) d = nth j l d.
Proof.
  revert i j. induction l as [| h l IH]; intros [| i] [| j] H; cbn; auto; try lia.
Qed.

Lemma nth_error_set_nth_same (i : nat) (x : X) (l : list X) :
  i < length l -> nth_error (set_nth i x l) i = Some x.
Proof.
  revert i. induction l as [| h l IH]; intros [| i] H; cbn in *; try lia; auto.
  apply IH. lia.
Qed.

Lemma nth_error_set_nth_other (i j : nat) (x : X) (l : list X) :
  i <> j -> nth_error (set_nth i x l) j = nth_error l j.
Proof.
  revert i j. induction l as [| h l IH]; intros [| i] [| j] H; cbn; auto; try lia.
Qed.

Lemma index_ok (l : list X) (i : nat) (x : X) :
  index l i = Ok x <-> nth_error l i = Some x.
Proof.
  unfold index. destruct (nth_error l i); split; intros H; inversion H; reflexivity.
Qed.

Lemma assign_ok (l l' : list X) (i : nat) (x : X) :
  assign l i x = Ok l' -> i < length l /\ l' = set_nth i x l.
Proof.
  unfold assign. destruct (i <? length l) eqn:E; intros H; inversion H.
  apply Nat.ltb_lt in E. split; [exact E | reflexivity].
Qed.

Lemma set_nth_repeat (i n : nat) (x : X) : set_nth i x (repeat x n) = repeat x n.
Proof.
  revert i. induction n as [| n IH]; intros [| i]; cbn; auto. now rewrite IH.
Qed.

End List_facts.

Section List_facts2.

Variable X : Type.

Lemma set_nth_twice (i : nat) (x y : X) (l : list X) :
  set_nth i x (set_nth i y l) = set_nth i x l.
Proof.
  revert i. induction l as [| h l IH]; intros [| i]; cbn; auto. now rewrite IH.
Qed.

Lemma nth_error_nth_default (l : list X) (i : nat) (x d : X) :
  nth_error l i = Some x -> nth i l d = x.
Proof.
  intros H. apply nth_error_nth. exact H.
Qed.

End List_facts2.

(** ** [kalman_filter] *)

Section Kalman_facts.

Context {num : Type} {N : Num num}.

Variables (t : list num) (acc_lab : list (list num)) (q r : list num)
          (reset : bool) (time_period : num).

Local Notation step := (Kalman.kalman_step t acc_lab q r reset time_period).
Local Notation loop := (Kalman.kalman_loop t acc_lab q r reset time_period).
Local Notation F := (Kalman.F t).
Local Notation B := (Kalman.B t).
Local Notation Q := (Kalman.Q q).
Local Notation R := (Kalman.R r).

Lemma z_row_ok (i : nat) (z z' : list (list num)) (row : list num) :
  Kalman.z_row i z = (Ok row, z') -> nth_error z i = Some row /\ z' = z.
Proof.
  unfold Kalman.z_row. intros H. injection H as H1 H2.
  split; [apply index_ok; exact H1 | symmetry; exact H2].
Qed.

Lemma z_assign_ok (i : nat) (row : list num) (z z' : list (list num)) (u : unit) :
  Kalman.z_assign i row z = (Ok u, z') -> i < length z /\ z' = set_nth i row z.
Proof.
  unfold Kalman.z_assign. destruct (assign z i row) as [z1 | e] eqn:E; intros H;
    inversion H; subst.
  apply assign_ok in E. exact E.
Qed.

Lemma z_assign_entry_ok (i j : nat) (x : num) (z z' : list (list num)) (u : unit) :
  Kalman.z_assign_entry i j x z = (Ok u, z') ->
  exists row : list num,
    nth_error z i = Some row /\ j < length row
    /\ z' = set_nth i (set_nth j x row) z.
Proof.
  unfold Kalman.z_assign_entry. intros H.
  apply bind_ok in H as (row & z1 & H1 & H).
  apply z_row_ok in H1 as [H1 ->].
  apply bind_ok in H as (row' & z2 & H2 & H).
  apply lift_ok in H2 as [H2 ->].
  apply assign_ok in H2 as [Hj ->].
  apply z_assign_ok in H as [_ ->].
  exists row. auto.
Qed.

Lemma carry_velocity_ok (i : nat) (prev : list num) (z z' : list (list num))
    (u : unit) :
  Kalman.carry_velocity i prev z = (Ok u, z') ->
  exists row : list num,
    nth_error z i = Some row /\ 5 < length row
    /\ z' = set_nth i (Kalman.with_velocity row prev) z.
Proof.
  unfold Kalman.carry_velocity. intros H.
  apply bind_ok in H as (u1 & z1 & H1 & H).
  apply z_assign_entry_ok in H1 as (row & Hrow & H3 & ->).
  apply bind_ok in H as (u2 & z2 & H2 & H).
  assert (Hi : i < length z) by (apply nth_error_Some; congruence).
  apply z_assign_entry_ok in H2 as (row2 & Hrow2 & H4 & ->).
  rewrite nth_error_set_nth_same in Hrow2 by exact Hi.
  assert (E2 : row2 = set_nth 3 (nth 3 prev n0) row) by congruence.
  subst row2.
  apply z_assign_entry_ok in H as (row3 & Hrow3 & H5 & ->).
  rewrite nth_error_set_nth_same in Hrow3 by (rewrite set_nth_length; exact Hi).
  assert (E3 : row3 = set_nth 4 (nth 4 prev n0) (set_nth 3 (nth 3 prev n0) row))
    by congruence.
  subst row3.
  exists row. split; [exact Hrow |]. split.
  - rewrite !set_nth_length in H5. exact H5.
  - rewrite !set_nth_twice. reflexivity.
Qed.

(** What one completed iteration has computed. *)
Lemma kalman_step_ok (i : nat) (l l' : Kalman.locals) (z z' : list (list num)) :
  step i l z = (Ok l', z') ->
  let prev := nth (i - 1) (Kalman.state_guess l) [] in
  exists (a : list num) (s : list (list num)) (zi : list num),
    let sn := vadd (mv F prev) (mv B a) in
    let pn := madd (mm (mm F (nth (i - 1) (Kalman.P l) [])) (transpose F)) Q in
    let fired := reset && nltb (Kalman.next_zero l) (nth i t n0) in
    index acc_lab i = Ok a
    /\ (if 1 <? i then Kalman.carry_velocity i prev z = (Ok tt, z') else z' = z)
    /\ inv (madd pn R) = Ok s
    /\ nth_error z' i = Some zi
    /\ Kalman.state_naive l' = sn
    /\ Kalman.P_naive l' = pn
    /\ Kalman.state_guess l'
       = (if fired then set_nth i (zeros 6) (Kalman.state_guess l)
          else set_nth i (vadd sn (mv (mm pn s) (vsub zi sn))) (Kalman.state_guess l))
    /\ Kalman.P l'
       = (if fired then set_nth i (zeros2 6 6) (Kalman.P l)
          else set_nth i (mm (msub (identity 6) (mm pn s)) pn) (Kalman.P l))
    /\ Kalman.next_zero l'
       = (if fired then nadd (Kalman.next_zero l) time_period
          else Kalman.next_zero l).
Proof.
  intros H prev. unfold Kalman.kalman_step in H. fold prev in H.
  apply bind_ok in H as (a & z1 & Ha & H). apply lift_ok in Ha as [Ha ->].
  apply bind_ok in H as (u & z1 & Hc & H).
  apply bind_ok in H as (s & z2 & Hs & H). apply lift_ok in Hs as [Hs ->].
  apply bind_ok in H as (zi & z3 & Hz & H). apply z_row_ok in Hz as [Hz ->].
  exists a, s, zi. cbv zeta.
  assert (Hz1 : if 1 <? i then Kalman.carry_velocity i prev z = (Ok tt, z1)
                else z1 = z).
  { destruct (1 <? i).
    - destruct u. exact Hc.
    - apply ret_ok in Hc as [_ ->]. reflexivity. }
  destruct (reset && nltb (Kalman.next_zero l) (nth i t n0)) eqn:Ef;
    apply ret_ok in H as [-> ->]; cbn [Kalman.state_guess Kalman.P
      Kalman.next_zero Kalman.state_naive Kalman.P_naive];
    rewrite ?set_nth_twice; repeat split; auto.
Qed.

End Kalman_facts.

(** ** Exact arithmetic *)

Section Field_facts.

Context {num : Type} {N : Num num} {L : @NumLaws num N}.

Add Field num_field_theory : num_field.

Lemma neqb_refl (a : num) : neqb a a = true.
Proof. apply neqb_eq. reflexivity. Qed.

Lemma neqb_neq (a b : num) : a <> b -> neqb a b = false.
Proof.
  intros H. destruct (neqb a b) eqn:E; [| reflexivity].
  apply neqb_eq in E. contradiction.
Qed.

Lemma neqb_false_ne (a b : num) : neqb a b = false -> a <> b.
Proof.
  intros H E. apply neqb_eq in E. congruence.
Qed.

(** The inverse of the zero matrix does not exist. *)
Lemma inv_zeros_6 : inv (zeros2 6 6 : list (list num)) = Err LinAlgError.
Proof.
  assert (H : find_pivot 0 (zipWith (@app num) (zeros2 6 6) (identity 6)) 0 = None).
  { cbn. rewrite !neqb_refl. reflexivity. }
  unfold inv. cbn [length zeros2 repeat seq gauss_jordan].
  cbn [zeros2 repeat] in H. rewrite H. reflexivity.
Qed.

Lemma inv_diag_6 (r0 r1 r2 r3 r4 r5 : num) :
  r0 <> n0 -> r1 <> n0 -> r2 <> n0 -> r3 <> n0 -> r4 <> n0 -> r5 <> n0 ->
  inv (diag [r0; r1; r2; r3; r4; r5])
  = Ok (diag [ninv r0; ninv r1; ninv r2; ninv r3; ninv r4; ninv r5]).
Proof.
  intros H0 H1 H2 H3 H4 H5.
  set (r := [r0; r1; r2; r3; r4; r5]).
  assert (Hstep : forall k, k < 6 ->
            find_pivot k (diag_stage k r) 0 = Some k
            /\ eliminate k (swap_rows k k (diag_stage k r)) = diag_stage (S k) r).
  { intros k Hk.
    assert (Hcases : k = 0 \/ k = 1 \/ k = 2 \/ k = 3 \/ k = 4 \/ k = 5) by lia.
    destruct Hcases as [-> | [-> | [-> | [-> | [-> | ->]]]]];
      (split;
       [ cbn; rewrite ?neqb_refl, ?neqb_neq by assumption; reflexivity
       | cbn; repeat (f_equal; try (field; repeat split; assumption)) ]). }
  unfold inv. cbv zeta.
  change (length (diag r)) with 6.
  cbn [seq].
  change (zipWith (@app num) (diag r) (identity 6)) with (diag_stage 0 r).
  cbn [gauss_jordan].
  destruct (Hstep 0) as [-> ->]; [lia |].
  destruct (Hstep 1) as [-> ->]; [lia |].
  destruct (Hstep 2) as [-> ->]; [lia |].
  destruct (Hstep 3) as [-> ->]; [lia |].
  destruct (Hstep 4) as [-> ->]; [lia |].
  destruct (Hstep 5) as [-> ->]; [lia |].
  reflexivity.
Qed.

End Field_facts.

Section Kalman_loop_facts.

Context {num : Type} {N : Num num}.

Variables (t : list num) (acc_lab : list (list num)) (q r : list num)
          (reset : bool) (time_period : num).

Local Notation step := (Kalman.kalman_step t acc_lab q r reset time_period).
Local Notation F := (Kalman.F t).
Local Notation B := (Kalman.B t).
Local Notation Q := (Kalman.Q q).
Local Notation R := (Kalman.R r).

(** An iteration writes entry [i] of [state_guess], of [P] and of [z], and
    no other. *)
Lemma kalman_step_frame (i : nat) (l l' : Kalman.locals) (z z' : list (list num)) :
  step i l z = (Ok l', z') ->
  length (Kalman.state_guess l') = length (Kalman.state_guess l)
  /\ length (Kalman.P l') = length (Kalman.P l)
  /\ length z' = length z
  /\ (forall j d, j <> i ->
        nth j (Kalman.state_guess l') d = nth j (Kalman.state_guess l) d)
  /\ (forall j d, j <> i -> nth j (Kalman.P l') d = nth j (Kalman.P l) d)
  /\ (forall j, j <> i -> nth_error z' j = nth_error z j).
Proof.
  intros H. apply kalman_step_ok in H as (a & s & zi & H). cbv zeta in H.
  destruct H as (_ & Hz & _ & _ & _ & _ & Hsg & HP & _).
  assert (Hz' : length z' = length z
                /\ forall j, j <> i -> nth_error z' j = nth_error z j).
  { destruct (1 <? i).
    - apply carry_velocity_ok in Hz as (row & _ & _ & ->).
      split; [apply set_nth_length |].
      intros j Hj. apply nth_error_set_nth_other. auto.
    - subst z'. auto. }
  destruct Hz' as [Hz1 Hz2].
  rewrite Hsg, HP.
  destruct (reset && nltb (Kalman.next_zero l) (nth i t n0));
    rewrite !set_nth_length; repeat split; auto;
    intros j d Hj; apply nth_set_nth_other; auto.
Qed.

(** The iterations from [a] on leave the entries below [a] alone. *)
Lemma kalman_loop_frame (k a : nat) (l l' : Kalman.locals) (z z' : list (list num)) :
  for_each (seq a k) step l z = (Ok l', z') ->
  length (Kalman.state_guess l') = length (Kalman.state_guess l)
  /\ length (Kalman.P l') = length (Kalman.P l)
  /\ length z' = length z
  /\ (forall j d, j < a ->
        nth j (Kalman.state_guess l') d = nth j (Kalman.state_guess l) d)
  /\ (forall j d, j < a -> nth j (Kalman.P l') d = nth j (Kalman.P l) d)
  /\ (forall j, j < a -> nth_error z' j = nth_error z j).
Proof.
  revert a l z. induction k as [| k IH]; intros a l z H; cbn in H.
  - apply ret_ok in H as [-> ->]. repeat split; reflexivity.
  - apply bind_ok in H as (l1 & z1 & H1 & H2).
    apply kalman_step_frame in H1 as (A1 & A2 & A3 & A4 & A5 & A6).
    apply IH in H2 as (B1 & B2 & B3 & B4 & B5 & B6).
    repeat split; try congruence.
    + intros j d Hj. rewrite B4 by lia. apply A4. lia.
    + intros j d Hj. rewrite B5 by lia. apply A5. lia.
    + intros j Hj. rewrite B6 by lia. apply A6. lia.
Qed.

(** A completed loop, cut at its iteration [i]. *)
Lemma kalman_loop_at (k i : nat) (l0 lf : Kalman.locals) (z0 zf : list (list num)) :
  for_each (seq 1 k) step l0 z0 = (Ok lf, zf) ->
  1 <= i <= k ->
  exists (l1 l2 : Kalman.locals) (z1 z2 : list (list num)),
    for_each (seq 1 (i - 1)) step l0 z0 = (Ok l1, z1)
    /\ step i l1 z1 = (Ok l2, z2)
    /\ for_each (seq 1 i) step l0 z0 = (Ok l2, z2)
    /\ for_each (seq (S i) (k - i)) step l2 z2 = (Ok lf, zf).
Proof.
  intros H Hi.
  rewrite (@seq_split 1 i k) in H by lia.
  apply for_each_prefix in H as (l2 & z2 & H12 & H2).
  pose proof H12 as H12'.
  rewrite (@seq_split 1 (i - 1) i) in H12 by lia.
  apply for_each_prefix in H12 as (l1 & z1 & H1 & Hs).
  replace (i - (i - 1)) with 1 in Hs by lia.
  replace (1 + (i - 1)) with i in Hs by lia.
  cbn in Hs. apply bind_ok in Hs as (l2' & z2' & Hs & Hr).
  apply ret_ok in Hr as [E1 E2]. subst l2' z2'.
  exists l1, l2, z1, z2. repeat split; auto.
Qed.

(** With [reset] set, [next_zero] runs through the boundaries. *)
Lemma kalman_loop_next_zero (k : nat) (l0 l : Kalman.locals)
    (z0 z : list (list num)) :
  reset = true ->
  Kalman.next_zero l0 = nopp n1 ->
  for_each (seq 1 k) step l0 z0 = (Ok l, z) ->
  Kalman.next_zero l = Kalman.boundary t time_period k.
Proof.
  intros Hr H0. revert l z. induction k as [| k IH]; intros l z H.
  - cbn in H. apply ret_ok in H as [-> ->]. exact H0.
  - rewrite seq_S in H. apply for_each_prefix in H as (l1 & z1 & H1 & Hs).
    cbn in Hs. apply bind_ok in Hs as (l2 & z2 & Hs & Hret).
    apply ret_ok in Hret as [E1 E2]. subst l2 z2.
    apply IH in H1.
    apply kalman_step_ok in Hs as (a & s & zi & Hs). cbv zeta in Hs.
    destruct Hs as (_ & _ & _ & _ & _ & _ & _ & _ & Hnz).
    rewrite Hnz, H1, Hr. cbn [andb Kalman.boundary]. reflexivity.
Qed.

(** The initialisation loop rewrites the rows below [len(t)], and no
    other. *)
Lemma clear_velocity_ok (i : nat) (z z' : list (list num)) (u : unit) :
  Kalman.clear_velocity i z = (Ok u, z') ->
  exists (a b c : num) (rest : list num),
    nth_error z i = Some (a :: b :: c :: rest)
    /\ z' = set_nth i [a; b; c; n0; n0; n0] z.
Proof.
  unfold Kalman.clear_velocity. intros H.
  apply bind_ok in H as (row & z1 & H1 & H). apply z_row_ok in H1 as [H1 ->].
  apply bind_ok in H as (a & z1 & Ha & H). apply lift_ok in Ha as [Ha ->].
  apply bind_ok in H as (b & z1 & Hb & H). apply lift_ok in Hb as [Hb ->].
  apply bind_ok in H as (c & z1 & Hc & H). apply lift_ok in Hc as [Hc ->].
  apply z_assign_ok in H as [_ ->].
  apply index_ok in Ha, Hb, Hc.
  destruct row as [| a' [| b' [| c' rest]]]; try discriminate.
  cbn in Ha, Hb, Hc. inversion Ha; inversion Hb; inversion Hc; subst.
  exists a, b, c, rest. auto.
Qed.

Lemma clear_loop_ok (k a : nat) (z z' : list (list num)) (u : unit) :
  for_each (seq a k) (fun i _ => Kalman.clear_velocity (N := N) i) tt z = (Ok u, z') ->
  length z' = length z
  /\ (forall j, j < a \/ a + k <= j -> nth_error z' j = nth_error z j)
  /\ (forall j, a <= j < a + k ->
        exists (x y w : num) (rest : list num),
          nth_error z j = Some (x :: y :: w :: rest)
          /\ nth_error z' j = Some [x; y; w; n0; n0; n0]).
Proof.
  revert a z. induction k as [| k IH]; intros a z H; cbn in H.
  - apply ret_ok in H as [_ ->]. repeat split; auto. intros j Hj. lia.
  - apply bind_ok in H as (u1 & z1 & H1 & H2). destruct u1.
    apply clear_velocity_ok in H1 as (x & y & w & rest & Hrow & ->).
    apply IH in H2 as (B1 & B2 & B3).
    rewrite set_nth_length in B1.
    assert (Ha : a < length z) by (apply nth_error_Some; congruence).
    repeat split; auto.
    + intros j Hj. rewrite B2 by lia. apply nth_error_set_nth_other. lia.
    + intros j Hj. destruct (Nat.eq_dec j a) as [-> | Hne].
      * exists x, y, w, rest. split; [exact Hrow |].
        rewrite B2 by lia. apply nth_error_set_nth_same. exact Ha.
      * destruct (B3 j) as (x' & y' & w' & rest' & E1 & E2); [lia |].
        rewrite nth_error_set_nth_other in E1 by lia.
        exists x', y', w', rest'. auto.
Qed.

Lemma kalman_init_ok (z z0 : list (list num)) (l0 : Kalman.locals) :
  Kalman.kalman_init t z = (Ok l0, z0) ->
  0 < length t
  /\ Kalman.state_guess l0 = repeat (zeros 6) (length t)
  /\ Kalman.P l0 = repeat (zeros2 6 6) (length t)
  /\ Kalman.next_zero l0 = nopp n1
  /\ for_each (seq 0 (length t)) (fun i _ => Kalman.clear_velocity (N := N) i) tt z
     = (Ok tt, z0).
Proof.
  unfold Kalman.kalman_init. intros H.
  apply bind_ok in H as (u & z1 & Hc & H). destruct u.
  apply bind_ok in H as (s0 & z2 & Hs & H). apply lift_ok in Hs as [Hs ->].
  apply bind_ok in H as (p0 & z2 & Hp & H). apply lift_ok in Hp as [Hp ->].
  apply ret_ok in H as [-> ->]. cbn.
  repeat split; auto.
  destruct (length t); [discriminate Hs | lia].
Qed.

End Kalman_loop_facts.

Section Kalman_run_facts.

Context {num : Type} {N : Num num}.

Variables (t : list num) (acc_lab : list (list num)) (q r : list num)
          (reset : bool) (time_period : num).

Local Notation step := (Kalman.kalman_step t acc_lab q r reset time_period).
Local Notation run := (Kalman.kalman_run t acc_lab q r reset time_period).
Local Notation prefix := (Kalman.kalman_prefix t acc_lab q r reset time_period).
Local Notation F := (Kalman.F t).
Local Notation B := (Kalman.B t).
Local Notation Q := (Kalman.Q q).

(** A completed run, cut at its iteration [i]. *)
Lemma kalman_run_at (i : nat) (z zf : list (list num)) (lf : Kalman.locals) :
  run z = (Ok lf, zf) ->
  1 <= i < length t ->
  exists (l0 l1 l2 : Kalman.locals) (z0 z1 z2 : list (list num)),
    Kalman.kalman_init t z = (Ok l0, z0)
    /\ for_each (seq 1 (i - 1)) step l0 z0 = (Ok l1, z1)
    /\ step i l1 z1 = (Ok l2, z2)
    /\ prefix i z = (Ok l2, z2)
    /\ for_each (seq (S i) (length t - 1 - i)) step l2 z2 = (Ok lf, zf).
Proof.
  unfold Kalman.kalman_run, Kalman.kalman_loop. intros H Hi.
  apply bind_ok in H as (l0 & z0 & H0 & H).
  apply (@kalman_loop_at _ _ _ _ _ _ _ _ _ i) in H
    as (l1 & l2 & z1 & z2 & H1 & Hs & Hp & Hr); [| lia].
  exists l0, l1, l2, z0, z1, z2. repeat split; auto.
  unfold Kalman.kalman_prefix, Kalman.kalman_loop.
  unfold bind. rewrite H0. exact Hp.
Qed.

(** The predict step of iteration [i] starts from the estimate that the run
    returns for [i - 1], and from the acceleration of the current index. *)
Lemma kalman_predict (i : nat) (z zf : list (list num)) (lf : Kalman.locals) :
  run z = (Ok lf, zf) ->
  1 <= i < length t ->
  exists (li : Kalman.locals) (zi : list (list num)) (a : list num),
    prefix i z = (Ok li, zi)
    /\ nth_error acc_lab i = Some a
    /\ Kalman.state_naive li
       = vadd (mv F (nth (i - 1) (Kalman.state_guess lf) [])) (mv B a)
    /\ Kalman.P_naive li
       = madd (mm (mm F (nth (i - 1) (Kalman.P lf) [])) (transpose F)) Q.
Proof.
  intros H Hi.
  destruct (@kalman_run_at i z zf lf H Hi)
    as (l0 & l1 & l2 & z0 & z1 & z2 & H0 & H1 & Hs & Hp & Hr).
  assert (Hcopy := Hs); apply kalman_step_frame in Hcopy as (_ & _ & _ & S4 & S5 & _).
  assert (Hcopy := Hr); apply kalman_loop_frame in Hcopy as (_ & _ & _ & R4 & R5 & _).
  apply kalman_step_ok in Hs as (a & s & zi & Hs). cbv zeta in Hs.
  destruct Hs as (Ha & _ & _ & _ & Hsn & Hpn & _).
  exists l2, z2, a. split; [exact Hp |].
  split; [apply index_ok; exact Ha |].
  rewrite Hsn, Hpn.
  rewrite (R4 (i - 1)), (R5 (i - 1)) by lia.
  rewrite (S4 (i - 1)), (S5 (i - 1)) by lia.
  split; reflexivity.
Qed.

Lemma kalman_run_lengths (z zf : list (list num)) (lf : Kalman.locals) :
  run z = (Ok lf, zf) ->
  length (Kalman.state_guess lf) = length t
  /\ length (Kalman.P lf) = length t
  /\ length zf = length z.
Proof.
  unfold Kalman.kalman_run, Kalman.kalman_loop. intros H.
  apply bind_ok in H as (l0 & z0 & H0 & H).
  apply kalman_init_ok in H0 as (_ & E1 & E2 & _ & Hc).
  apply clear_loop_ok in Hc as (C1 & _).
  apply kalman_loop_frame in H as (A1 & A2 & A3 & _).
  rewrite A1, A2, A3, E1, E2, !repeat_length. auto.
Qed.

(** The rows of [z] that the filter loop rewrites. *)
Lemma kalman_loop_z (k a : nat) (l l' : Kalman.locals) (z z' : list (list num))
    (j : nat) :
  for_each (seq a k) step l z = (Ok l', z') ->
  nth_error z' j
  = if (a <=? j) && (j <? a + k) && (1 <? j)
    then option_map
           (fun row => Kalman.with_velocity row (nth (j - 1) (Kalman.state_guess l') []))
           (nth_error z j)
    else nth_error z j.
Proof.
  revert a l z. induction k as [| k IH]; intros a l z H; cbn [seq for_each] in H.
  - apply ret_ok in H as [_ ->].
    replace (j <? a + 0) with (j <? a) by (f_equal; lia).
    destruct (Nat.leb_spec a j), (Nat.ltb_spec j a); cbn; try reflexivity; lia.
  - apply bind_ok in H as (l1 & z1 & Hs & Hr).
    assert (Hcopy := Hs); apply kalman_step_frame in Hcopy as (_ & _ & _ & S4 & _ & S6).
    assert (Hcopy := Hr); apply kalman_loop_frame in Hcopy as (_ & _ & _ & R4 & _ & _).
    rewrite (IH _ _ _ Hr).
    apply kalman_step_ok in Hs as (x & s & zi & Hs). cbv zeta in Hs.
    destruct Hs as (_ & Hz & _).
    destruct (Nat.eq_dec j a) as [-> | Hne].
    + replace (S a <=? a) with false by (symmetry; apply Nat.leb_gt; lia).
      rewrite Nat.leb_refl.
      replace (a <? a + S k) with true by (symmetry; apply Nat.ltb_lt; lia).
      cbn [andb].
      destruct (1 <? a) eqn:E1.
      * apply Nat.ltb_lt in E1.
        apply carry_velocity_ok in Hz as (row & Hrow & _ & ->).
        rewrite nth_error_set_nth_same
          by (apply nth_error_Some; congruence).
        rewrite Hrow. cbn [option_map].
        rewrite (R4 (a - 1)) by lia. rewrite (S4 (a - 1)) by lia.
        reflexivity.
      * subst z1. reflexivity.
    + rewrite (S6 j Hne).
      replace (S a <=? j) with (a <=? j)
        by (destruct (Nat.leb_spec a j), (Nat.leb_spec (S a) j); auto; lia).
      replace (j <? S a + k) with (j <? a + S k) by (f_equal; lia).
      reflexivity.
Qed.

(** C10. [kalman_filter] rewrites the caller's [z] in place: a call that
    returns [out] leaves the length of [z] and its rows from [len(t)] on as
    they were, and leaves in every row [j < len(t)] the three position
    entries it held, followed by three zeros when [j <= 1] and by the
    velocity entries of the previous estimate [out[j-1]] when [j > 1]. *)
Theorem kalman_filter_mutates_z (z zf out : list (list num)) :
  Kalman.kalman_filter t acc_lab q r reset time_period z = (Ok out, zf) ->
  length zf = length z
  /\ (forall j, length t <= j -> nth_error zf j = nth_error z j)
  /\ (forall j, j < length t ->
        exists (x y w : num) (rest : list num),
          nth_error z j = Some (x :: y :: w :: rest)
          /\ nth_error zf j
             = Some (if 1 <? j
                     then [x; y; w; nth 3 (nth (j - 1) out []) n0;
                           nth 4 (nth (j - 1) out []) n0;
                           nth 5 (nth (j - 1) out []) n0]
                     else [x; y; w; n0; n0; n0])).
Proof.
  unfold Kalman.kalman_filter. intros H.
  apply bind_ok in H as (lf & z1 & Hrun & Hret).
  apply ret_ok in Hret as [E1 E2]. subst out z1.
  assert (Hcopy := Hrun); apply kalman_run_lengths in Hcopy as (_ & _ & Hlen).
  unfold Kalman.kalman_run, Kalman.kalman_loop in Hrun.
  apply bind_ok in Hrun as (l0 & z0 & H0 & Hloop).
  apply kalman_init_ok in H0 as (Hn & _ & _ & _ & Hc).
  apply clear_loop_ok in Hc as (_ & C2 & C3).
  split; [exact Hlen |]. split.
  - intros j Hj. erewrite kalman_loop_z by exact Hloop.
    replace (j <? 1 + (length t - 1)) with false
      by (symmetry; apply Nat.ltb_ge; lia).
    rewrite andb_false_r. cbn [andb]. apply C2. lia.
  - intros j Hj. destruct (C3 j) as (x & y & w & rest & Ez & Ez0); [lia |].
    exists x, y, w, rest. split; [exact Ez |].
    erewrite kalman_loop_z by exact Hloop. rewrite Ez0.
    replace (j <? 1 + (length t - 1)) with true
      by (symmetry; apply Nat.ltb_lt; lia).
    rewrite andb_true_r.
    destruct (1 <? j) eqn:E1.
    + apply Nat.ltb_lt in E1.
      replace (1 <=? j) with true by (symmetry; apply Nat.leb_le; lia).
      reflexivity.
    + rewrite andb_false_r. reflexivity.
Qed.

End Kalman_run_facts.

(** ** [kalman_filter] without noise and without acceleration *)

Section Kalman_zero_facts.

Context {num : Type} {N : Num num} {L : @NumLaws num N}.

Add Field num_field_theory_kalman : num_field.

Lemma zero_predict (dt : num) :
  vadd (mv (transition dt) (zeros 6)) (mv (control dt) (zeros 3)) = zeros 6.
Proof. cbn. repeat (f_equal; try ring). Qed.

Lemma zero_covariance (dt : num) :
  madd (mm (mm (transition dt) (zeros2 6 6)) (transpose (transition dt)))
       (diag (zeros 6))
  = zeros2 6 6.
Proof. cbn. repeat (f_equal; try ring). Qed.

Lemma zero_plus_diag (r0 r1 r2 r3 r4 r5 : num) :
  madd (zeros2 6 6) (diag [r0; r1; r2; r3; r4; r5])
  = diag [r0; r1; r2; r3; r4; r5].
Proof. cbn. repeat (f_equal; try ring). Qed.

Lemma zero_gain (r0 r1 r2 r3 r4 r5 : num) :
  mm (zeros2 6 6) (diag [r0; r1; r2; r3; r4; r5]) = zeros2 6 6.
Proof. cbn. repeat (f_equal; try ring). Qed.

Lemma zero_update (a b c d e f : num) :
  vadd (zeros 6) (mv (zeros2 6 6) (vsub [a; b; c; d; e; f] (zeros 6))) = zeros 6.
Proof. cbn. repeat (f_equal; try ring). Qed.

Lemma zero_covariance_update :
  mm (msub (identity 6) (zeros2 6 6)) (zeros2 6 6) = (zeros2 6 6 : list (list num)).
Proof. cbn. repeat (f_equal; try ring). Qed.

Lemma zero_plus_zero :
  madd (zeros2 6 6) (diag (zeros 6)) = (zeros2 6 6 : list (list num)).
Proof. cbn. repeat (f_equal; try ring). Qed.

Lemma nth_repeat_lt (X : Type) (x d : X) (n i : nat) :
  i < n -> nth i (repeat x n) d = x.
Proof.
  revert i. induction n as [| n IH]; intros [| i] H; cbn; try lia; auto.
  apply IH. lia.
Qed.

Lemma z_assign_entry_run (i j : nat) (x : num) (z : list (list num))
    (row : list num) :
  nth_error z i = Some row -> j < length row ->
  Kalman.z_assign_entry i j x z = (Ok tt, set_nth i (set_nth j x row) z).
Proof.
  intros Hrow Hj.
  assert (Hi : i < length z) by (apply nth_error_Some; congruence).
  unfold Kalman.z_assign_entry, bind, Kalman.z_row, lift, Kalman.z_assign,
    index, assign.
  rewrite Hrow.
  apply Nat.ltb_lt in Hj, Hi. rewrite Hj, Hi. reflexivity.
Qed.

Lemma carry_velocity_run (i : nat) (prev : list num) (z : list (list num))
    (row : list num) :
  nth_error z i = Some row -> 5 < length row ->
  Kalman.carry_velocity i prev z
  = (Ok tt, set_nth i (Kalman.with_velocity row prev) z).
Proof.
  intros Hrow Hlen.
  assert (Hi : i < length z) by (apply nth_error_Some; congruence).
  unfold Kalman.carry_velocity, bind.
  erewrite z_assign_entry_run; [| exact Hrow | lia].
  erewrite z_assign_entry_run;
    [| apply nth_error_set_nth_same; exact Hi | rewrite set_nth_length; lia].
  erewrite z_assign_entry_run;
    [| apply nth_error_set_nth_same; rewrite set_nth_length; exact Hi
     | rewrite !set_nth_length; lia].
  rewrite !set_nth_twice. reflexivity.
Qed.

Lemma clear_velocity_run (i : nat) (z : list (list num)) (a b c : num)
    (rest : list num) :
  nth_error z i = Some (a :: b :: c :: rest) ->
  Kalman.clear_velocity i z = (Ok tt, set_nth i [a; b; c; n0; n0; n0] z).
Proof.
  intros Hrow.
  assert (Hi : i < length z) by (apply nth_error_Some; congruence).
  unfold Kalman.clear_velocity, bind, Kalman.z_row, lift, Kalman.z_assign,
    index, assign.
  rewrite Hrow. cbn [nth_error].
  apply Nat.ltb_lt in Hi. rewrite Hi. reflexivity.
Qed.

(** The initialisation loop completes when the rows it reads have three
    entries. *)
Lemma clear_loop_run (k a : nat) (z : list (list num)) :
  (forall j, a <= j < a + k ->
     exists row, nth_error z j = Some row /\ 3 <= length row) ->
  exists z' : list (list num),
    for_each (seq a k) (fun i _ => Kalman.clear_velocity (N := N) i) tt z
    = (Ok tt, z').
Proof.
  revert a z. induction k as [| k IH]; intros a z H; cbn [seq for_each].
  - exists z. reflexivity.
  - destruct (H a) as (row & Hrow & Hlen); [lia |].
    destruct row as [| x [| y [| w rest]]]; cbn in Hlen; try lia.
    unfold bind. erewrite clear_velocity_run by exact Hrow.
    apply IH. intros j Hj. destruct (H j) as (rowj & Hj1 & Hj2); [lia |].
    exists rowj. rewrite nth_error_set_nth_other by lia. auto.
Qed.

Section Zero_run.

Variables (t : list num) (acc_lab : list (list num)) (r : list num)
          (reset : bool) (time_period : num).

Local Notation step :=
  (Kalman.kalman_step t acc_lab (zeros 6) r reset time_period).

Lemma zero_step (i : nat) (l : Kalman.locals) (z : list (list num))
    (row : list num) (r0 r1 r2 r3 r4 r5 : num) :
  r = [r0; r1; r2; r3; r4; r5] ->
  r0 <> n0 -> r1 <> n0 -> r2 <> n0 -> r3 <> n0 -> r4 <> n0 -> r5 <> n0 ->
  1 <= i < length t ->
  Kalman.zero_locals t l ->
  nth_error acc_lab i = Some (zeros 3) ->
  nth_error z i = Some row -> length row = 6 ->
  exists (l' : Kalman.locals) (z' : list (list num)),
    step i l z = (Ok l', z')
    /\ Kalman.zero_locals t l'
    /\ length z' = length z
    /\ (forall j, j <> i -> nth_error z' j = nth_error z j).
Proof.
  intros Hr H0 H1 H2 H3 H4 H5 Hi [Hsg HP] Hacc Hrow Hlen.
  destruct row as [| a [| b [| c [| d [| e [| f [| ? ?]]]]]]]; try discriminate Hlen.
  assert (Hz : i < length z) by (apply nth_error_Some; congruence).
  unfold Kalman.kalman_step.
  rewrite Hsg, HP, !nth_repeat_lt by lia.
  unfold bind at 1. unfold lift at 1. unfold index at 1. rewrite Hacc.
  unfold Kalman.F, Kalman.B, Kalman.Q, Kalman.R.
  rewrite zero_predict, zero_covariance, Hr, zero_plus_diag.
  rewrite inv_diag_6 by assumption.
  destruct (1 <? i) eqn:E1.
  - unfold bind at 1. erewrite carry_velocity_run; [| exact Hrow | cbn; lia].
    unfold bind at 1. unfold lift at 1. cbv beta iota.
    rewrite zero_gain, zero_covariance_update.
    unfold bind at 1. unfold Kalman.z_row, index.
    rewrite nth_error_set_nth_same by exact Hz.
    cbn [Kalman.with_velocity set_nth].
    rewrite zero_update.
    rewrite !set_nth_twice, !set_nth_repeat.
    destruct (reset && nltb (Kalman.next_zero l) (nth i t n0));
      eexists; eexists; (split; [reflexivity |]);
      (split; [split; reflexivity |]);
      (split; [apply set_nth_length |]);
      intros j Hj; apply nth_error_set_nth_other; auto.
  - unfold bind at 1. unfold ret at 1.
    unfold bind at 1. unfold lift at 1. cbv beta iota.
    rewrite zero_gain, zero_covariance_update.
    unfold bind at 1. unfold Kalman.z_row, index. rewrite Hrow.
    rewrite zero_update.
    rewrite ?set_nth_twice, !set_nth_repeat.
    destruct (reset && nltb (Kalman.next_zero l) (nth i t n0));
      eexists; eexists; (split; [reflexivity |]);
      (split; [split; reflexivity |]); split; auto.
Qed.

Lemma zero_loop (k a : nat) (l : Kalman.locals) (z : list (list num))
    (r0 r1 r2 r3 r4 r5 : num) :
  r = [r0; r1; r2; r3; r4; r5] ->
  r0 <> n0 -> r1 <> n0 -> r2 <> n0 -> r3 <> n0 -> r4 <> n0 -> r5 <> n0 ->
  1 <= a -> a + k <= length t ->
  Kalman.zero_locals t l ->
  (forall i, a <= i < a + k -> nth_error acc_lab i = Some (zeros 3)) ->
  (forall i, a <= i < a + k ->
     exists row, nth_error z i = Some row /\ length row = 6) ->
  exists (l' : Kalman.locals) (z' : list (list num)),
    for_each (seq a k) step l z = (Ok l', z') /\ Kalman.zero_locals t l'.
Proof.
  intros Hr H0 H1 H2 H3 H4 H5.
  revert a l z. induction k as [| k IH]; intros a l z Ha Hk Hl Hacc Hz;
    cbn [seq for_each].
  - exists l, z. split; [reflexivity | exact Hl].
  - destruct (Hz a) as (row & Hrow & Hlen); [lia |].
    destruct (@zero_step a l z row r0 r1 r2 r3 r4 r5)
      as (l1 & z1 & Hs & Hl1 & _ & Hz1); auto; try lia.
    { apply Hacc. lia. }
    unfold bind. rewrite Hs.
    apply IH; auto; try lia.
    + intros i Hi. apply Hacc. lia.
    + intros i Hi. rewrite Hz1 by lia. apply Hz. lia.
Qed.

(** Without process noise and without acceleration, and with a measurement
    noise that is not zero on any axis, the filter returns the zero state
    for every sample. *)
Lemma kalman_zero_run (z : list (list num)) (r0 r1 r2 r3 r4 r5 : num) :
  r = [r0; r1; r2; r3; r4; r5] ->
  r0 <> n0 -> r1 <> n0 -> r2 <> n0 -> r3 <> n0 -> r4 <> n0 -> r5 <> n0 ->
  0 < length t ->
  (forall i, 1 <= i < length t -> nth_error acc_lab i = Some (zeros 3)) ->
  (forall i, i < length t ->
     exists row, nth_error z i = Some row /\ 3 <= length row) ->
  exists zf : list (list num),
    Kalman.kalman_filter t acc_lab (zeros 6) r reset time_period z
    = (Ok (repeat (zeros 6) (length t)), zf).
Proof.
  intros Hr H0 H1 H2 H3 H4 H5 Hn Hacc Hz.
  destruct (@clear_loop_run (length t) 0 z) as (z0 & Hc).
  { intros j Hj. apply Hz. lia. }
  assert (Hc' := Hc). apply clear_loop_ok in Hc' as (_ & _ & C3).
  set (l0 := {| Kalman.state_guess := repeat (zeros 6) (length t);
                Kalman.P := repeat (zeros2 6 6) (length t);
                Kalman.next_zero := nopp n1;
                Kalman.state_naive := zeros 6;
                Kalman.P_naive := zeros2 6 6 |} : Kalman.locals (num := num)).
  assert (Hinit : Kalman.kalman_init t z = (Ok l0, z0)).
  { unfold Kalman.kalman_init, bind. rewrite Hc. unfold lift, index, ret.
    destruct (length t) as [| n]; [lia |]. reflexivity. }
  destruct (@zero_loop (length t - 1) 1 l0 z0 r0 r1 r2 r3 r4 r5)
    as (lf & zf & Hloop & Hlf & _); auto; try lia.
  { split; reflexivity. }
  { intros i Hi. apply Hacc. lia. }
  { intros i Hi. destruct (C3 i) as (x & y & w & rest & _ & E); [lia |].
    eexists. split; [exact E | reflexivity]. }
  exists zf.
  unfold Kalman.kalman_filter, Kalman.kalman_run, Kalman.kalman_loop, bind.
  rewrite Hinit, Hloop. unfold ret. rewrite Hlf. reflexivity.
Qed.

End Zero_run.

(** Without any noise the first update inverts the zero matrix. *)
Lemma kalman_singular (t : list num) (acc_lab z : list (list num))
    (reset : bool) (time_period : num) (a : list num) :
  2 <= length t ->
  nth_error acc_lab 1 = Some a ->
  (forall i, i < length t ->
     exists row, nth_error z i = Some row /\ 3 <= length row) ->
  exists z0 : list (list num),
    Kalman.kalman_filter t acc_lab (zeros 6) (zeros 6) reset time_period z
    = (Err LinAlgError, z0).
Proof.
  intros Hn Hacc Hz.
  destruct (@clear_loop_run (length t) 0 z) as (z0 & Hc).
  { intros j Hj. apply Hz. lia. }
  exists z0.
  unfold Kalman.kalman_filter, Kalman.kalman_run, Kalman.kalman_init,
    Kalman.kalman_loop.
  unfold bind at 1 2 3. rewrite Hc.
  destruct (length t) as [| [| n]] eqn:En; try lia.
  unfold lift, index, ret. cbn [repeat nth_error seq Nat.sub for_each].
  unfold bind at 1 2.
  unfold Kalman.kalman_step.
  unfold bind at 1. unfold lift at 1. unfold index at 1. rewrite Hacc.
  cbn [Kalman.P Kalman.state_guess nth Nat.sub Nat.ltb Nat.leb].
  unfold bind at 1. unfold ret at 1.
  unfold Kalman.Q, Kalman.R, Kalman.F.
  rewrite zero_covariance, zero_plus_zero, inv_zeros_6.
  reflexivity.
Qed.


End Kalman_zero_facts.

(** ** The workspace *)

Section Dict_facts.

Variable V : Type.

Lemma dict_get_set_same (k : string) (v : V) (d : dict V) :
  dict_get k (dict_set k v d) = Some v.
Proof.
  induction d as [| [k' v'] d IH]; cbn.
  - rewrite String.eqb_refl. reflexivity.
  - destruct (String.eqb k k') eqn:E; cbn.
    + rewrite String.eqb_refl. reflexivity.
    + rewrite E. exact IH.
Qed.

Lemma dict_get_set_other (k k' : string) (v : V) (d : dict V) :
  String.eqb k k' = false ->
  dict_get k' (dict_set k v d) = dict_get k' d.
Proof.
  intros Hne. induction d as [| [k2 v2] d IH]; cbn.
  - rewrite String.eqb_sym, Hne. reflexivity.
  - destruct (String.eqb k k2) eqn:E; cbn.
    + apply String.eqb_eq in E. subst k2.
      rewrite String.eqb_sym, Hne. reflexivity.
    + destruct (String.eqb k' k2); [reflexivity | exact IH].
Qed.

End Dict_facts.

Section Workspace_facts.

Context {num : Type} {N : Num num}.

Local Notation ws := (workspace (num := num)).

Lemma ws_load_ok (k : string) (w w' : ws) (a : list (list num)) :
  ws_load k w = (Ok a, w') -> w' = w /\ dict_get k w = Some a.
Proof.
  unfold ws_load. destruct (dict_get k w) as [a0 |]; intros H; inversion H.
  split; reflexivity.
Qed.

Lemma ws_load_run (k : string) (w : ws) (a : list (list num)) :
  dict_get k w = Some a -> ws_load k w = (Ok a, w).
Proof.
  intros H. unfold ws_load. rewrite H. reflexivity.
Qed.

Lemma ws_row_ok (k : string) (t : nat) (w w' : ws) (row : list num) :
  ws_row k t w = (Ok row, w') ->
  w' = w /\ exists a, dict_get k w = Some a /\ nth_error a t = Some row.
Proof.
  unfold ws_row. intros H.
  apply bind_ok in H as (a & w1 & H1 & H2).
  apply ws_load_ok in H1 as [-> H1].
  apply lift_ok in H2 as [H2 ->]. apply index_ok in H2.
  split; [reflexivity |]. exists a. auto.
Qed.

Lemma ws_row_run (k : string) (t : nat) (w : ws) (a : list (list num))
    (row : list num) :
  dict_get k w = Some a -> nth_error a t = Some row ->
  ws_row k t w = (Ok row, w).
Proof.
  intros H1 H2. unfold ws_row, bind. rewrite (ws_load_run _ _ H1).
  unfold lift, index. rewrite H2. reflexivity.
Qed.

Lemma ws_store_row_ok (k : string) (t : nat) (row : list num) (w w' : ws)
    (u : unit) :
  ws_store_row k t row w = (Ok u, w') ->
  exists a, dict_get k w = Some a /\ t < length a
            /\ w' = dict_set k (set_nth t row a) w.
Proof.
  unfold ws_store_row. intros H.
  apply bind_ok in H as (a & w1 & H1 & H2).
  apply ws_load_ok in H1 as [-> H1].
  apply bind_ok in H2 as (a' & w2 & H2 & H3).
  apply lift_ok in H2 as [H2 ->]. apply assign_ok in H2 as [Ht ->].
  unfold ws_store in H3. inversion H3.
  exists a. auto.
Qed.

Lemma ws_store_row_run (k : string) (t : nat) (row : list num) (w : ws)
    (a : list (list num)) :
  dict_get k w = Some a -> t < length a ->
  ws_store_row k t row w = (Ok tt, dict_set k (set_nth t row a) w).
Proof.
  intros H1 H2. unfold ws_store_row, bind. rewrite (ws_load_run _ _ H1).
  unfold lift, assign. apply Nat.ltb_lt in H2. rewrite H2. reflexivity.
Qed.

Lemma allocate_ok (k : string) (a : list (list num)) (w w' : ws) (u : unit) :
  allocate k a w = (Ok u, w') ->
  (exists a', dict_get k w' = Some a')
  /\ (forall a0, dict_get k w = Some a0 -> w' = w)
  /\ (dict_get k w = None -> w' = dict_set k a w)
  /\ (forall k', String.eqb k k' = false -> dict_get k' w' = dict_get k' w).
Proof.
  unfold allocate, bind, ws_mem, dict_mem.
  destruct (dict_get k w) as [a0 |] eqn:E; intros H.
  - apply ret_ok in H as [_ ->]. repeat split; auto.
    + exists a0. exact E.
    + intros H0. discriminate H0.
  - unfold ws_store in H. inversion H. repeat split; auto.
    + exists a. apply dict_get_set_same.
    + intros a0 H0. discriminate H0.
    + intros k' Hk. apply dict_get_set_other. exact Hk.
Qed.

End Workspace_facts.

(** A completed loop over [1 .. k], cut at its iteration [i]. *)
Lemma for_each_seq_at (S L : Type) (body : nat -> L -> M S L) (k i : nat)
    (l lf : L) (s sf : S) :
  for_each (seq 1 k) body l s = (Ok lf, sf) ->
  1 <= i <= k ->
  exists (l1 l2 : L) (s1 s2 : S),
    for_each (seq 1 (i - 1)) body l s = (Ok l1, s1)
    /\ body i l1 s1 = (Ok l2, s2)
    /\ for_each (seq (Datatypes.S i) (k - i)) body l2 s2 = (Ok lf, sf).
Proof.
  intros H Hi.
  rewrite (@seq_split 1 i k) in H by lia.
  apply for_each_prefix in H as (l2 & s2 & H12 & H2).
  rewrite (@seq_split 1 (i - 1) i) in H12 by lia.
  apply for_each_prefix in H12 as (l1 & s1 & H1 & Hs).
  replace (i - (i - 1)) with 1 in Hs by lia.
  replace (1 + (i - 1)) with i in Hs by lia.
  cbn in Hs. apply bind_ok in Hs as (l2' & s2' & Hs & Hr).
  apply ret_ok in Hr as [E1 E2]. subst l2' s2'.
  exists l1, l2, s1, s2. repeat split; auto.
Qed.

(** ** [apply_ahrs] with [position] set *)

Section Ahrs_position_facts.

Context {num : Type} {N : Num num}.

Variable norm : list num -> num.
Variable updateIMU : num -> num -> list num -> list num -> list num -> list num.
Variable updateMARG :
  num -> num -> list num -> list num -> list num -> list num -> list num.
Variable quaternion : list num -> list num.
Variable rotate : list num -> list num -> list num.

Variables (gyro acc mag : list (list num)) (ts : list num) (q0 g : list num)
          (zero_period : num) (filter : string) (betaval : num).

Local Open Scope string_scope.

Local Notation step :=
  (ahrs_step updateIMU updateMARG quaternion rotate gyro acc mag ts g true
             zero_period filter betaval).
Local Notation A := (transition (mean_step ts)).
Local Notation B := (control (mean_step ts)).

Ltac other_key :=
  repeat (rewrite dict_get_set_same || rewrite dict_get_set_other by reflexivity).

(** What one completed iteration has written. *)
Lemma ahrs_step_ok (t : nat) (nz nz' : num) (w w' : workspace (num := num)) :
  step t nz w = (Ok nz', w') ->
  exists (al st : list (list num)) (qt a sp ap : list num) (now : num),
    dict_get "acc_lab" w = Some al
    /\ dict_get "state" w = Some st
    /\ t < length al /\ t < length st
    /\ nth_error acc t = Some a
    /\ nth_error ts t = Some now
    /\ nth_error (arr "Q" w') t = Some qt
    /\ nth_error st (t - 1) = Some sp
    /\ nth_error (set_nth t (vsub (rotate (quaternion qt) a) g) al) (t - 1)
       = Some ap
    /\ dict_get "acc_lab" w'
       = Some (set_nth t (vsub (rotate (quaternion qt) a) g) al)
    /\ dict_get "state" w'
       = Some (set_nth t (if nltb nz now then zeros 6
                          else vadd (mv A sp) (mv B ap)) st)
    /\ nz' = (if nltb nz now then nadd now zero_period else nz).
Proof.
  unfold ahrs_step. intros H.
  apply bind_ok in H as (u1 & w1 & HQ & H).
  assert (Hframe : forall k, String.eqb "Q" k = false ->
                             dict_get k w1 = dict_get k w).
  { intros k Hk. destruct (filter =? "IMU").
    - apply bind_ok in HQ as (qp & x1 & E1 & HQ). apply ws_row_ok in E1 as [-> _].
      apply bind_ok in HQ as (gy & x1 & E1 & HQ). apply lift_ok in E1 as [_ ->].
      apply bind_ok in HQ as (a & x1 & E1 & HQ). apply lift_ok in E1 as [_ ->].
      apply ws_store_row_ok in HQ as (Q & _ & _ & ->).
      apply dict_get_set_other. exact Hk.
    - destruct (filter =? "MARG").
      + apply bind_ok in HQ as (qp & x1 & E1 & HQ). apply ws_row_ok in E1 as [-> _].
        apply bind_ok in HQ as (gy & x1 & E1 & HQ). apply lift_ok in E1 as [_ ->].
        apply bind_ok in HQ as (a & x1 & E1 & HQ). apply lift_ok in E1 as [_ ->].
        apply bind_ok in HQ as (m & x1 & E1 & HQ). apply lift_ok in E1 as [_ ->].
        apply ws_store_row_ok in HQ as (Q & _ & _ & ->).
        apply dict_get_set_other. exact Hk.
      + apply ret_ok in HQ as [_ ->]. reflexivity. }
  apply bind_ok in H as (qt & w2 & E & H). apply ws_row_ok in E as [-> (Q1 & HQ1 & Hqt)].
  apply bind_ok in H as (u2 & w2 & E & H).
  apply ws_store_row_ok in E as (Qq & HQq & _ & ->).
  apply bind_ok in H as (qt' & w3 & E & H).
  apply ws_row_ok in E as [-> (Q2 & HQ2 & Hqt')].
  rewrite dict_get_set_other in HQ2 by reflexivity.
  assert (Q2 = Q1) by congruence. subst Q2.
  assert (qt' = qt) by congruence. subst qt'.
  apply bind_ok in H as (a & w3 & E & H). apply lift_ok in E as [Ha ->].
  apply index_ok in Ha.
  apply bind_ok in H as (u3 & w3 & E & H).
  apply ws_store_row_ok in E as (al & Hal & Htal & ->).
  rewrite dict_get_set_other in Hal by reflexivity.
  rewrite Hframe in Hal by reflexivity.
  apply bind_ok in H as (sp & w4 & E & H).
  apply ws_row_ok in E as [-> (st & Hst & Hsp)].
  rewrite !dict_get_set_other in Hst by reflexivity.
  rewrite Hframe in Hst by reflexivity.
  apply bind_ok in H as (ap & w4 & E & H).
  apply ws_row_ok in E as [-> (al' & Hal' & Hap)].
  rewrite dict_get_set_same in Hal'. injection Hal' as <-.
  apply bind_ok in H as (u4 & w4 & E & H).
  apply ws_store_row_ok in E as (st' & Hst' & Htst & ->).
  rewrite !dict_get_set_other in Hst' by reflexivity.
  rewrite Hframe in Hst' by reflexivity.
  assert (st' = st) by congruence. subst st'.
  apply bind_ok in H as (now & w5 & E & H). apply lift_ok in E as [Hnow ->].
  apply index_ok in Hnow.
  exists al, st, qt, a, sp, ap, now.
  assert (HQw : forall w0 : workspace (num := num),
            dict_get "Q" w0 = Some Q1 -> nth_error (arr "Q" w0) t = Some qt).
  { intros w0 E. unfold arr. rewrite E. exact Hqt. }
  destruct (nltb nz now).
  - apply bind_ok in H as (u5 & w6 & E & H).
    apply ws_store_row_ok in E as (st2 & Hst2 & _ & ->).
    rewrite dict_get_set_same in Hst2. injection Hst2 as <-.
    apply ret_ok in H as [-> ->].
    repeat split; auto.
    + apply HQw. other_key. exact HQ1.
    + other_key. reflexivity.
    + other_key. rewrite set_nth_twice. reflexivity.
  - apply ret_ok in H as [-> ->].
    repeat split; auto.
    + apply HQw. other_key. exact HQ1.
    + other_key. reflexivity.
    + other_key. reflexivity.
Qed.

(** The same, on the arrays that the workspace holds. *)
Lemma ahrs_step_arrays (t : nat) (nz nz' : num) (w w' : workspace (num := num)) :
  step t nz w = (Ok nz', w') ->
  1 <= t ->
  exists (x : list num) (now : num),
    nth_error ts t = Some now
    /\ t < length (arr "acc_lab" w)
    /\ t < length (arr "state" w)
    /\ arr "acc_lab" w' = set_nth t x (arr "acc_lab" w)
    /\ arr "state" w'
       = set_nth t (if nltb nz now then zeros 6
                    else vadd (mv A (nth (t - 1) (arr "state" w) []))
                              (mv B (nth (t - 1) (arr "acc_lab" w) [])))
                 (arr "state" w)
    /\ nz' = (if nltb nz now then nadd now zero_period else nz).
Proof.
  intros H Ht.
  apply ahrs_step_ok in H
    as (al & st & qt & a & sp & ap & now & H1 & H2 & H3 & H4 & H5 & H6 & H7
        & H8 & H9 & H10 & H11 & H12).
  exists (vsub (rotate (quaternion qt) a) g), now.
  unfold arr. rewrite H1, H2, H10, H11.
  rewrite nth_error_set_nth_other in H9 by lia.
  rewrite (nth_error_nth_default _ _ [] H8), (nth_error_nth_default _ _ [] H9).
  repeat split; auto.
Qed.

Lemma ahrs_loop_frame (k a : nat) (nz nz' : num) (w w' : workspace (num := num)) :
  for_each (seq a k) step nz w = (Ok nz', w') ->
  1 <= a ->
  length (arr "acc_lab" w') = length (arr "acc_lab" w)
  /\ length (arr "state" w') = length (arr "state" w)
  /\ (forall j d, j < a -> nth j (arr "acc_lab" w') d = nth j (arr "acc_lab" w) d)
  /\ (forall j d, j < a -> nth j (arr "state" w') d = nth j (arr "state" w) d).
Proof.
  revert a nz w. induction k as [| k IH]; intros a nz w H Ha; cbn [seq for_each] in H.
  - apply ret_ok in H as [_ ->]. repeat split; reflexivity.
  - apply bind_ok in H as (nz1 & w1 & Hs & Hr).
    apply ahrs_step_arrays in Hs as (x & now & _ & _ & _ & E1 & E2 & _); [| exact Ha].
    apply IH in Hr as (B1 & B2 & B3 & B4); [| lia].
    rewrite B1, B2, E1, E2, !set_nth_length.
    repeat split; auto.
    + intros j d Hj. rewrite B3 by lia. rewrite E1.
      apply nth_set_nth_other. lia.
    + intros j d Hj. rewrite B4 by lia. rewrite E2.
      apply nth_set_nth_other. lia.
Qed.

Lemma ahrs_loop_next_zero (k : nat) (nz : num) (w w' : workspace (num := num)) :
  for_each (seq 1 k) step zero_period w = (Ok nz, w') ->
  nz = reset_boundary ts zero_period k.
Proof.
  revert nz w'. induction k as [| k IH]; intros nz w' H.
  - cbn in H. apply ret_ok in H as [-> _]. reflexivity.
  - rewrite seq_S in H. apply for_each_prefix in H as (nz1 & w1 & H1 & Hs).
    cbn [for_each] in Hs. apply bind_ok in Hs as (nz2 & w2 & Hs & Hret).
    apply ret_ok in Hret as [E1 E2]. subst nz2 w2.
    apply IH in H1. subst nz1.
    apply ahrs_step_arrays in Hs as (x & now & Hnow & _ & _ & _ & _ & ->);
      [| cbn; lia].
    cbn [Nat.add reset_boundary].
    rewrite (nth_error_nth_default _ _ n0 Hnow). reflexivity.
Qed.

Lemma assert_ok (S : Type) (b : bool) (s s' : S) (u : unit) :
  assert b s = (Ok u, s') -> b = true /\ s' = s.
Proof.
  unfold assert. destruct b; intros H; inversion H. auto.
Qed.

(** The state history that [apply_ahrs] returns: a sample whose timestamp
    exceeds the pending boundary holds the zero state, every other one the
    state advanced from the previous sample with the previous sample's
    lab-frame acceleration. *)
Lemma apply_ahrs_state (w w' : workspace (num := num))
    (acc_lab Q : list (list num)) (state : option (list (list num))) :
  apply_ahrs norm updateIMU updateMARG quaternion rotate gyro acc mag ts q0 g
             true zero_period filter betaval w
  = (Ok (acc_lab, Q, state), w') ->
  exists st : list (list num),
    state = Some st
    /\ forall t, 1 <= t < length ts ->
         nth t st []
         = if nltb (reset_boundary ts zero_period (t - 1)) (nth t ts n0)
           then zeros 6
           else vadd (mv A (nth (t - 1) st [])) (mv B (nth (t - 1) acc_lab [])).
Proof.
  unfold apply_ahrs. intros H.
  apply bind_ok in H as (u1 & s1 & E & H); apply assert_ok in E as [_ ->].
  apply bind_ok in H as (u2 & s2 & E & H); apply assert_ok in E as [_ ->].
  apply bind_ok in H as (u3 & s3 & E & H); apply assert_ok in E as [_ ->].
  apply bind_ok in H as (u4 & s4 & E & H); apply assert_ok in E as [_ ->].
  apply bind_ok in H as (u5 & s5 & E & H); apply assert_ok in E as [_ ->].
  apply bind_ok in H as (u6 & s6 & E6 & H).
  apply bind_ok in H as (u7 & s7 & E7 & H).
  apply bind_ok in H as (u8 & s8 & E8 & H).
  apply bind_ok in H as (u9 & s9 & E9 & H).
  apply bind_ok in H as (u10 & s10 & E10 & H).
  apply bind_ok in H as (u11 & s11 & E11 & H).
  apply bind_ok in H as (nzf & wf & Hloop & H).
  apply bind_ok in H as (al & w1 & E & H). apply ws_load_ok in E as [-> Hal].
  apply bind_ok in H as (Qf & w1 & E & H). apply ws_load_ok in E as [-> HQ].
  apply bind_ok in H as (st & w1 & E & H). apply ws_load_ok in E as [-> Hst].
  apply ret_ok in H as [E _]. inversion E; subst acc_lab Q state.
  exists st. split; [reflexivity |].
  intros t Ht.
  assert (Eal : arr "acc_lab" wf = al) by (unfold arr; rewrite Hal; reflexivity).
  assert (Est : arr "state" wf = st) by (unfold arr; rewrite Hst; reflexivity).
  apply (@for_each_seq_at _ _ _ _ t) in Hloop
    as (nz1 & nz2 & w1 & w2 & H1 & Hs & Hr); [| lia].
  apply ahrs_loop_next_zero in H1. subst nz1.
  apply ahrs_loop_frame in Hr as (_ & _ & R3 & R4); [| lia].
  apply ahrs_step_arrays in Hs as (x & now & Hnow & L1 & L2 & E1 & E2 & _); [| lia].
  rewrite Eal in R3. rewrite Est in R4.
  rewrite (R4 t), (R4 (t - 1)), (R3 (t - 1)) by lia.
  rewrite E1, E2.
  rewrite nth_set_nth_same by exact L2.
  rewrite !nth_set_nth_other by lia.
  rewrite (nth_error_nth_default _ _ n0 Hnow). reflexivity.
Qed.

End Ahrs_position_facts.

(** ** Periodic zeroing, iteration by iteration *)

(** A command that completes hands its result and its store to the
    continuation. *)
Lemma bind_run (S X Y : Type) (c : M S X) (k : X -> M S Y) (s s1 : S) (x : X) :
  c s = (Ok x, s1) -> bind c k s = k x s1.
Proof.
  intros H. unfold bind. rewrite H. reflexivity.
Qed.

Arguments bind_run {S X Y c k s s1 x} _.

Section Kalman_zeroing_facts.

Context {num : Type} {N : Num num}.

Variables (t : list num) (acc_lab : list (list num)) (q r : list num)
          (time_period : num).

Local Notation step := (Kalman.kalman_step t acc_lab q r true time_period).
Local Notation run := (Kalman.kalman_run t acc_lab q r true time_period).
Local Notation prefix := (Kalman.kalman_prefix t acc_lab q r true time_period).

(** Iteration [i] of a completed run with [reset] set: the pending
    boundary that it reads, and what it leaves in the result. *)
Lemma kalman_zeroing_at (i : nat) (z zf : list (list num)) (lf : Kalman.locals) :
  run z = (Ok lf, zf) ->
  1 <= i < length t ->
  exists (lp li : Kalman.locals) (zp zi s : list (list num)) (row : list num),
    prefix (i - 1) z = (Ok lp, zp)
    /\ prefix i z = (Ok li, zi)
    /\ Kalman.next_zero lp = Kalman.boundary t time_period (i - 1)
    /\ inv (madd (Kalman.P_naive li) (Kalman.R r)) = Ok s
    /\ nth_error zi i = Some row
    /\ nth i (Kalman.state_guess lf) []
       = (if nltb (Kalman.next_zero lp) (nth i t n0) then zeros 6
          else vadd (Kalman.state_naive li)
                    (mv (mm (Kalman.P_naive li) s)
                        (vsub row (Kalman.state_naive li))))
    /\ nth i (Kalman.P lf) []
       = (if nltb (Kalman.next_zero lp) (nth i t n0) then zeros2 6 6
          else mm (msub (identity 6) (mm (Kalman.P_naive li) s))
                  (Kalman.P_naive li))
    /\ Kalman.next_zero li
       = (if nltb (Kalman.next_zero lp) (nth i t n0)
          then nadd (Kalman.next_zero lp) time_period
          else Kalman.next_zero lp).
Proof.
  intros H Hi.
  destruct (@kalman_run_at _ _ t acc_lab q r true time_period i z zf lf H Hi)
    as (l0 & l1 & l2 & z0 & z1 & z2 & H0 & H1 & Hs & Hp & Hr).
  assert (Hcopy := H0); apply kalman_init_ok in Hcopy as (_ & E1 & E2 & Enz & _).
  assert (Hcopy := H1); apply kalman_loop_frame in Hcopy as (L1 & L2 & _).
  assert (Hcopy := Hr); apply kalman_loop_frame in Hcopy as (_ & _ & _ & R4 & R5 & _).
  assert (Hnz := H1); apply kalman_loop_next_zero in Hnz; [| reflexivity | exact Enz].
  apply kalman_step_ok in Hs as (a & s & zi & Hs). cbv zeta in Hs.
  destruct Hs as (_ & _ & Hinv & Hrow & Hsn & Hpn & Hsg & HP & Hnext).
  exists l1, l2, z1, z2, s, zi.
  split.
  { unfold Kalman.kalman_prefix, Kalman.kalman_loop, bind. rewrite H0. exact H1. }
  split; [exact Hp |]. split; [exact Hnz |].
  rewrite Hsn, Hpn. split; [exact Hinv |]. split; [exact Hrow |].
  rewrite (R4 i), (R5 i) by lia. rewrite Hsg, HP, Hnext. cbn [andb].
  destruct (nltb (Kalman.next_zero l1) (nth i t n0));
    rewrite !nth_set_nth_same
      by (rewrite ?L1, ?L2, ?E1, ?E2, repeat_length; lia);
    repeat split.
Qed.

End Kalman_zeroing_facts.

Section Ahrs_zeroing_facts.

Context {num : Type} {N : Num num}.

Variable norm : list num -> num.
Variable updateIMU : num -> num -> list num -> list num -> list num -> list num.
Variable updateMARG :
  num -> num -> list num -> list num -> list num -> list num -> list num.
Variable quaternion : list num -> list num.
Variable rotate : list num -> list num -> list num.

Variables (gyro acc mag : list (list num)) (ts : list num) (q0 g : list num)
          (zero_period : num) (filter : string) (betaval : num).

Local Open Scope string_scope.

Local Notation step :=
  (ahrs_step updateIMU updateMARG quaternion rotate gyro acc mag ts g true
             zero_period filter betaval).
Local Notation prefix :=
  (ahrs_prefix norm updateIMU updateMARG quaternion rotate gyro acc mag ts q0 g
               true zero_period filter betaval).
Local Notation A := (transition (mean_step ts)).
Local Notation B := (control (mean_step ts)).

(** Iteration [t] of a completed call with [position] set: the pending
    boundary that it reads, and what it leaves in the result. *)
Lemma apply_ahrs_zeroing_at (t : nat) (w w' : workspace (num := num))
    (acc_lab Q : list (list num)) (state : option (list (list num))) :
  apply_ahrs norm updateIMU updateMARG quaternion rotate gyro acc mag ts q0 g
             true zero_period filter betaval w
  = (Ok (acc_lab, Q, state), w') ->
  1 <= t < length ts ->
  exists (st : list (list num)) (nzp nzt : num) (wp wt : workspace),
    state = Some st
    /\ prefix (t - 1) w = (Ok nzp, wp)
    /\ prefix t w = (Ok nzt, wt)
    /\ nzp = reset_boundary ts zero_period (t - 1)
    /\ nth t st []
       = (if nltb nzp (nth t ts n0) then zeros 6
          else vadd (mv A (nth (t - 1) st [])) (mv B (nth (t - 1) acc_lab [])))
    /\ nzt = (if nltb nzp (nth t ts n0) then nadd (nth t ts n0) zero_period
              else nzp).
Proof.
  unfold apply_ahrs. intros H Ht.
  apply bind_ok in H as (u1 & s1 & E1 & H).
  apply bind_ok in H as (u2 & s2 & E2 & H).
  apply bind_ok in H as (u3 & s3 & E3 & H).
  apply bind_ok in H as (u4 & s4 & E4 & H).
  apply bind_ok in H as (u5 & s5 & E5 & H).
  apply bind_ok in H as (u6 & s6 & E6 & H).
  apply bind_ok in H as (u7 & s7 & E7 & H).
  apply bind_ok in H as (u8 & s8 & E8 & H).
  apply bind_ok in H as (u9 & s9 & E9 & H).
  apply bind_ok in H as (u10 & s10 & E10 & H).
  apply bind_ok in H as (u11 & s11 & E11 & H).
  apply bind_ok in H as (nzf & wf & Hloop & H).
  apply bind_ok in H as (al & w1 & E & H). apply ws_load_ok in E as [-> Hal].
  apply bind_ok in H as (Qf & w1 & E & H). apply ws_load_ok in E as [-> HQ].
  apply bind_ok in H as (st & w1 & E & H). apply ws_load_ok in E as [-> Hst].
  apply ret_ok in H as [E _]. inversion E; subst acc_lab Q state.
  assert (Eal : arr "acc_lab" wf = al) by (unfold arr; rewrite Hal; reflexivity).
  assert (Est : arr "state" wf = st) by (unfold arr; rewrite Hst; reflexivity).
  apply (@for_each_seq_at _ _ _ _ t) in Hloop
    as (nz1 & nz2 & w1 & w2 & H1 & Hs & Hr); [| lia].
  assert (Hpre : forall k nz wk,
             for_each (seq 1 k) step zero_period s11 = (Ok nz, wk) ->
             prefix k w = (Ok nz, wk)).
  { intros k nz wk Hk. unfold ahrs_prefix.
    rewrite (bind_run E1), (bind_run E2), (bind_run E3), (bind_run E4),
      (bind_run E5), (bind_run E6), (bind_run E7), (bind_run E8),
      (bind_run E9), (bind_run E10), (bind_run E11).
    exact Hk. }
  assert (Hstep : for_each (seq 1 t) step zero_period s11 = (Ok nz2, w2)).
  { rewrite (@seq_split 1 (t - 1) t) by lia.
    rewrite for_each_app, (bind_run H1).
    replace (t - (t - 1)) with 1 by lia.
    replace (1 + (t - 1)) with t by lia.
    cbn [seq for_each]. rewrite (bind_run Hs). reflexivity. }
  exists st, nz1, nz2, w1, w2.
  split; [reflexivity |].
  split; [apply Hpre; exact H1 |].
  split; [apply Hpre; exact Hstep |].
  split; [eapply ahrs_loop_next_zero; exact H1 |].
  apply ahrs_loop_frame in Hr as (_ & _ & R3 & R4); [| lia].
  apply ahrs_step_arrays in Hs as (x & now & Hnow & L1 & L2 & X1 & X2 & Hnz);
    [| lia].
  rewrite Eal in R3. rewrite Est in R4.
  rewrite (R4 t), (R4 (t - 1)), (R3 (t - 1)) by lia.
  rewrite X1, X2.
  rewrite nth_set_nth_same by exact L2.
  rewrite !nth_set_nth_other by lia.
  rewrite (nth_error_nth_default _ _ n0 Hnow). split; [reflexivity | exact Hnz].
Qed.

End Ahrs_zeroing_facts.

(** ** The estimators: predict step and periodic zeroing *)

Section Estimator_claims.

Context {num : Type} {N : Num num}.

Variable norm : list num -> num.
Variable updateIMU : num -> num -> list num -> list num -> list num -> list num.
Variable updateMARG :
  num -> num -> list num -> list num -> list num -> list num -> list num.
Variable quaternion : list num -> list num.
Variable rotate : list num -> list num -> list num.

(** The arguments of a call of [kalman_filter] and its outcome. *)
Variables (t : list num) (acc_lab : list (list num)) (q r : list num)
          (reset : bool) (time_period : num)
          (z zf : list (list num)) (lf : Kalman.locals (num := num)).

(** The arguments of a call of [apply_ahrs] with [position=True] and its
    outcome. *)
Variables (gyro acc mag : list (list num)) (ts q0 g : list num)
          (zero_period : num) (filter : string) (betaval : num)
          (w w' : workspace (num := num)) (lab Qh st : list (list num)).

(** C3, as amended. In [kalman_filter] the predict step of every iteration
    [i >= 1] computes [state_naive = F state[i-1] + B acc_lab[i]] and
    [P_naive = F P[i-1] F^T + Q], where [state[i-1]] and [P[i-1]] are the
    estimates of the previous sample.  The position estimator inside
    [apply_ahrs] keeps no covariance and advances the state, at a sample
    [j >= 1] that is not zeroed, from the lab-frame acceleration of the
    previous sample: [state[j] = A state[j-1] + B acc_lab[j-1]]. *)
Theorem predict_step (i j : nat) :
  Kalman.kalman_run t acc_lab q r reset time_period z = (Ok lf, zf) ->
  apply_ahrs norm updateIMU updateMARG quaternion rotate gyro acc mag ts q0 g
             true zero_period filter betaval w
  = (Ok (lab, Qh, Some st), w') ->
  1 <= i < length t ->
  1 <= j < length ts ->
  nltb (reset_boundary ts zero_period (j - 1)) (nth j ts n0) = false ->
  (exists (li : Kalman.locals) (zi : list (list num)) (a : list num),
      Kalman.kalman_prefix t acc_lab q r reset time_period i z = (Ok li, zi)
      /\ nth_error acc_lab i = Some a
      /\ Kalman.state_naive li
         = vadd (mv (Kalman.F t) (nth (i - 1) (Kalman.state_guess lf) []))
                (mv (Kalman.B t) a)
      /\ Kalman.P_naive li
         = madd (mm (mm (Kalman.F t) (nth (i - 1) (Kalman.P lf) []))
                    (transpose (Kalman.F t)))
                (Kalman.Q q))
  /\ nth j st []
     = vadd (mv (transition (mean_step ts)) (nth (j - 1) st []))
            (mv (control (mean_step ts)) (nth (j - 1) lab [])).
Proof.
  intros Hk Ha Hi Hj Hquiet. split.
  - eapply kalman_predict; eassumption.
  - apply apply_ahrs_state in Ha as (st' & E & Hst).
    injection E as <-. rewrite (Hst j Hj), Hquiet. reflexivity.
Qed.

(** C4. With zeroing enabled, both estimators force the state to zero at
    the samples that cross the pending boundary, and at no other.
    [kalman_filter] keeps [next_zero] on the boundaries that start at [-1]
    and lie [time_period] apart: an iteration whose timestamp exceeds the
    pending one leaves the zero vector in the returned state and the zero
    matrix in the covariance, in place of the update, and moves
    [next_zero] on by [time_period]; any other iteration leaves the Kalman
    update and the boundary as they are.  In [apply_ahrs] [next_zero]
    starts at [zero_period]: at a sample whose timestamp exceeds it the
    returned state is the zero vector, in place of the prediction, and
    [next_zero] becomes that timestamp plus [zero_period]; at any other
    sample the state is the prediction and the boundary stays. *)
Theorem periodic_zeroing (i j : nat) :
  Kalman.kalman_run t acc_lab q r true time_period z = (Ok lf, zf) ->
  apply_ahrs norm updateIMU updateMARG quaternion rotate gyro acc mag ts q0 g
             true zero_period filter betaval w
  = (Ok (lab, Qh, Some st), w') ->
  1 <= i < length t ->
  1 <= j < length ts ->
  (Kalman.kalman_filter t acc_lab q r true time_period z
   = (Ok (Kalman.state_guess lf), zf)
   /\ exists (lp li : Kalman.locals) (zp zi s : list (list num))
             (row : list num),
        Kalman.kalman_prefix t acc_lab q r true time_period (i - 1) z
        = (Ok lp, zp)
        /\ Kalman.kalman_prefix t acc_lab q r true time_period i z
           = (Ok li, zi)
        /\ Kalman.next_zero lp = Kalman.boundary t time_period (i - 1)
        /\ inv (madd (Kalman.P_naive li) (Kalman.R r)) = Ok s
        /\ nth_error zi i = Some row
        /\ if nltb (Kalman.next_zero lp) (nth i t n0)
           then nth i (Kalman.state_guess lf) [] = zeros 6
                /\ nth i (Kalman.P lf) [] = zeros2 6 6
                /\ Kalman.next_zero li
                   = nadd (Kalman.next_zero lp) time_period
           else nth i (Kalman.state_guess lf) []
                = vadd (Kalman.state_naive li)
                       (mv (mm (Kalman.P_naive li) s)
                           (vsub row (Kalman.state_naive li)))
                /\ nth i (Kalman.P lf) []
                   = mm (msub (identity 6) (mm (Kalman.P_naive li) s))
                        (Kalman.P_naive li)
                /\ Kalman.next_zero li = Kalman.next_zero lp)
  /\ exists (nzp nzj : num) (wp wj : workspace),
       ahrs_prefix norm updateIMU updateMARG quaternion rotate gyro acc mag ts
                   q0 g true zero_period filter betaval (j - 1) w
       = (Ok nzp, wp)
       /\ ahrs_prefix norm updateIMU updateMARG quaternion rotate gyro acc mag
                      ts q0 g true zero_period filter betaval j w
          = (Ok nzj, wj)
       /\ nzp = reset_boundary ts zero_period (j - 1)
       /\ if nltb nzp (nth j ts n0)
          then nth j st [] = zeros 6
               /\ nzj = nadd (nth j ts n0) zero_period
          else nth j st []
               = vadd (mv (transition (mean_step ts)) (nth (j - 1) st []))
                      (mv (control (mean_step ts)) (nth (j - 1) lab []))
               /\ nzj = nzp.
Proof.
  intros Hk Ha Hi Hj. split; [split |].
  - unfold Kalman.kalman_filter, bind. rewrite Hk. reflexivity.
  - destruct (@kalman_zeroing_at _ _ t acc_lab q r time_period i z zf lf Hk Hi)
      as (lp & li & zp & zi & s & row & P1 & P2 & Hb & Hs & Hrow & Hsg & HP
          & Hnz).
    exists lp, li, zp, zi, s, row.
    repeat (split; [assumption |]).
    destruct (nltb (Kalman.next_zero lp) (nth i t n0)); auto.
  - apply (@apply_ahrs_zeroing_at _ _ _ _ _ _ _ _ _ _ _ _ _ _ _ _ j) in Ha
      as (st' & nzp & nzj & wp & wj & E & P1 & P2 & Hb & Hst & Hnz);
      [| exact Hj].
    injection E as <-.
    exists nzp, nzj, wp, wj.
    repeat (split; [assumption |]).
    destruct (nltb nzp (nth j ts n0)); auto.
Qed.

End Estimator_claims.

Section Estimator_witnesses.

Import Sample.

Lemma predict_step_witness :
  (exists (li : Kalman.locals) (zi : list (list Qc)) (a : list Qc),
      Kalman.kalman_prefix t4 acc_lab4 noise noise false (q 3 10) 2 z4
      = (Ok li, zi)
      /\ nth_error acc_lab4 2 = Some a
      /\ Kalman.state_naive li
         = vadd (mv (Kalman.F t4) (nth 1 (Kalman.state_guess (kalman_lf false)) []))
                (mv (Kalman.B t4) a)
      /\ Kalman.P_naive li
         = madd (mm (mm (Kalman.F t4) (nth 1 (Kalman.P (kalman_lf false)) []))
                    (transpose (Kalman.F t4)))
                (Kalman.Q noise))
  /\ nth 2 (ahrs_state (q 10 1)) []
     = vadd (mv (transition (mean_step ts3)) (nth 1 (ahrs_state (q 10 1)) []))
            (mv (control (mean_step ts3)) (nth 1 (ahrs_lab (q 10 1)) [])).
Proof.
  apply (@predict_step Qc NumQc norm updateIMU updateMARG quaternion rotate
           t4 acc_lab4 noise noise false (q 3 10) z4 (kalman_zf false)
           (kalman_lf false) gyro3 acc3 mag3 ts3 q_identity gravity (q 10 1)
           "IMU"%string (q 1 10) [] (ahrs_w (q 10 1)) (ahrs_lab (q 10 1))
           (ahrs_Q (q 10 1)) (ahrs_state (q 10 1)) 2 2).
  - vm_compute. reflexivity.
  - vm_compute. reflexivity.
  - cbn. lia.
  - cbn. lia.
  - vm_compute. reflexivity.
Defined.

(** The state of [apply_ahrs] at sample 1 is not the one that the
    acceleration of sample 1 predicts. *)
Lemma apply_ahrs_predicts_from_previous_sample :
  ahrs_run3 (q 10 1)
  = (Ok (ahrs_lab (q 10 1), ahrs_Q (q 10 1), Some (ahrs_state (q 10 1))),
     ahrs_w (q 10 1))
  /\ nth 1 (ahrs_state (q 10 1)) []
     <> vadd (mv (transition (mean_step ts3)) (nth 0 (ahrs_state (q 10 1)) []))
             (mv (control (mean_step ts3)) (nth 1 (ahrs_lab (q 10 1)) [])).
Proof.
  split.
  - vm_compute. reflexivity.
  - vm_compute. intros H. discriminate H.
Qed.

Lemma periodic_zeroing_witness :
  (Kalman.kalman_filter t4 acc_lab4 noise noise true (q 3 10) z4
   = (Ok (Kalman.state_guess (kalman_lf true)), kalman_zf true)
   /\ exists (lp li : Kalman.locals) (zp zi s : list (list Qc))
             (row : list Qc),
        Kalman.kalman_prefix t4 acc_lab4 noise noise true (q 3 10) 1 z4
        = (Ok lp, zp)
        /\ Kalman.kalman_prefix t4 acc_lab4 noise noise true (q 3 10) 2 z4
           = (Ok li, zi)
        /\ Kalman.next_zero lp = Kalman.boundary t4 (q 3 10) 1
        /\ inv (madd (Kalman.P_naive li) (Kalman.R noise)) = Ok s
        /\ nth_error zi 2 = Some row
        /\ if nltb (Kalman.next_zero lp) (nth 2 t4 n0)
           then nth 2 (Kalman.state_guess (kalman_lf true)) [] = zeros 6
                /\ nth 2 (Kalman.P (kalman_lf true)) [] = zeros2 6 6
                /\ Kalman.next_zero li
                   = nadd (Kalman.next_zero lp) (q 3 10)
           else nth 2 (Kalman.state_guess (kalman_lf true)) []
                = vadd (Kalman.state_naive li)
                       (mv (mm (Kalman.P_naive li) s)
                           (vsub row (Kalman.state_naive li)))
                /\ nth 2 (Kalman.P (kalman_lf true)) []
                   = mm (msub (identity 6) (mm (Kalman.P_naive li) s))
                        (Kalman.P_naive li)
                /\ Kalman.next_zero li = Kalman.next_zero lp)
  /\ exists (nzp nzj : Qc) (wp wj : workspace),
       ahrs_prefix norm updateIMU updateMARG quaternion rotate gyro3 acc3 mag3
                   ts3 q_identity gravity true (q 1 2) "IMU"%string (q 1 10)
                   0 []
       = (Ok nzp, wp)
       /\ ahrs_prefix norm updateIMU updateMARG quaternion rotate gyro3 acc3
                      mag3 ts3 q_identity gravity true (q 1 2) "IMU"%string
                      (q 1 10) 1 []
          = (Ok nzj, wj)
       /\ nzp = reset_boundary ts3 (q 1 2) 0
       /\ if nltb nzp (nth 1 ts3 n0)
          then nth 1 (ahrs_state (q 1 2)) [] = zeros 6
               /\ nzj = nadd (nth 1 ts3 n0) (q 1 2)
          else nth 1 (ahrs_state (q 1 2)) []
               = vadd (mv (transition (mean_step ts3))
                          (nth 0 (ahrs_state (q 1 2)) []))
                      (mv (control (mean_step ts3))
                          (nth 0 (ahrs_lab (q 1 2)) []))
               /\ nzj = nzp.
Proof.
  apply (@periodic_zeroing Qc NumQc norm updateIMU updateMARG quaternion rotate
           t4 acc_lab4 noise noise (q 3 10) z4 (kalman_zf true)
           (kalman_lf true) gyro3 acc3 mag3 ts3 q_identity gravity (q 1 2)
           "IMU"%string (q 1 10) [] (ahrs_w (q 1 2)) (ahrs_lab (q 1 2))
           (ahrs_Q (q 1 2)) (ahrs_state (q 1 2)) 2 1).
  - vm_compute. reflexivity.
  - vm_compute. reflexivity.
  - cbn. lia.
  - cbn. lia.
Defined.

Lemma kalman_filter_mutates_z_witness :
  length (kalman_zf false) = length z4
  /\ (forall j, length t4 <= j -> nth_error (kalman_zf false) j = nth_error z4 j)
  /\ (forall j, j < length t4 ->
        exists (x y w : Qc) (rest : list Qc),
          nth_error z4 j = Some (x :: y :: w :: rest)
          /\ nth_error (kalman_zf false) j
             = Some (if 1 <? j
                     then [x; y; w;
                           nth 3 (nth (j - 1) (Kalman.state_guess (kalman_lf false)) []) n0;
                           nth 4 (nth (j - 1) (Kalman.state_guess (kalman_lf false)) []) n0;
                           nth 5 (nth (j - 1) (Kalman.state_guess (kalman_lf false)) []) n0]
                     else [x; y; w; n0; n0; n0])).
Proof.
  apply (@kalman_filter_mutates_z Qc NumQc t4 acc_lab4 noise noise false (q 3 10)).
  vm_compute. reflexivity.
Defined.

Lemma apply_ahrs_length_mismatch_witness :
  ~ (length (repeat (v3 0 0 0) 2) = length acc3 /\ length acc3 = length mag3
     /\ length mag3 = length ts3)
  /\ Sample.ahrs (repeat (v3 0 0 0) 2) acc3 mag3 ts3 false (q 3 10) []
     = (Err AssertionError, []).
Proof.
  assert (H : ~ (length (repeat (v3 0 0 0) 2) = length acc3
                 /\ length acc3 = length mag3 /\ length mag3 = length ts3)).
  { cbn. lia. }
  split; [exact H |].
  apply (@apply_ahrs_length_mismatch Qc NumQc norm updateIMU updateMARG
           quaternion rotate _ _ _ _ _ _ _ _ _ _ _ H).
Defined.

End Estimator_witnesses.

(** ** [kalman_filter] without noise *)

Section Noise_claims.

Context {num : Type} {N : Num num} {L : @NumLaws num N}.

(** C5, as amended. Without process noise, with a lab-frame acceleration
    of zero at every step and with a measurement noise that is not zero on
    any axis, [kalman_filter] returns the zero state for every sample,
    whatever the measurements.  When the measurement noise is zero as well
    and there are two samples or more, the first update inverts the zero
    matrix and the call raises [LinAlgError]. *)
Theorem kalman_without_noise (t : list num) (acc_lab z : list (list num))
    (reset : bool) (time_period : num) (r0 r1 r2 r3 r4 r5 : num) :
  0 < length t ->
  (forall i, 1 <= i < length t -> nth_error acc_lab i = Some (zeros 3)) ->
  (forall i, i < length t ->
     exists row, nth_error z i = Some row /\ 3 <= length row) ->
  r0 <> n0 -> r1 <> n0 -> r2 <> n0 -> r3 <> n0 -> r4 <> n0 -> r5 <> n0 ->
  (exists zf : list (list num),
      Kalman.kalman_filter t acc_lab (zeros 6) [r0; r1; r2; r3; r4; r5]
                           reset time_period z
      = (Ok (repeat (zeros 6) (length t)), zf))
  /\ (2 <= length t ->
      exists z0 : list (list num),
        Kalman.kalman_filter t acc_lab (zeros 6) (zeros 6) reset time_period z
        = (Err LinAlgError, z0)).
Proof.
  intros Hn Hacc Hz H0 H1 H2 H3 H4 H5. split.
  - eapply kalman_zero_run; eauto.
  - intros H2n. eapply kalman_singular; [exact H2n | apply Hacc; lia | exact Hz].
Qed.

End Noise_claims.

Section Noise_witnesses.

Import Sample.

Lemma kalman_without_noise_witness :
  (exists zf : list (list Qc),
      Kalman.kalman_filter t4 at_rest4 (zeros 6) (repeat (q 1 10) 6) true
                           (q 3 10) z4
      = (Ok (repeat (zeros 6) (length t4)), zf))
  /\ (2 <= length t4 ->
      exists z0 : list (list Qc),
        Kalman.kalman_filter t4 at_rest4 (zeros 6) (zeros 6) true (q 3 10) z4
        = (Err LinAlgError, z0)).
Proof.
  apply (@kalman_without_noise Qc NumQc NumLawsQc t4 at_rest4 z4 true (q 3 10)
           (q 1 10) (q 1 10) (q 1 10) (q 1 10) (q 1 10) (q 1 10)).
  - cbn. lia.
  - intros i Hi. cbn in Hi.
    destruct i as [| [| [| [| i]]]]; try lia; reflexivity.
  - intros i Hi. cbn in Hi.
    destruct i as [| [| [| [| i]]]]; try lia;
      (eexists; split; [reflexivity | cbn; lia]).
  - apply neqb_false_ne. vm_compute. reflexivity.
  - apply neqb_false_ne. vm_compute. reflexivity.
  - apply neqb_false_ne. vm_compute. reflexivity.
  - apply neqb_false_ne. vm_compute. reflexivity.
  - apply neqb_false_ne. vm_compute. reflexivity.
  - apply neqb_false_ne. vm_compute. reflexivity.
Defined.

(** Without any noise and without acceleration the call fails. *)
Lemma kalman_without_any_noise_fails :
  fst (Kalman.kalman_filter t4 at_rest4 no_noise no_noise false (q 3 10) z4)
  = Err LinAlgError.
Proof.
  vm_compute. reflexivity.
Qed.

(** C9 fails on the code. Two calls of [apply_ahrs] that leave [workspace]
    out run on the one default dictionary: after a first call on three
    samples, a second call on the first two samples returns three rows of
    lab-frame acceleration, and the third is the row that the first call
    wrote; on a fresh dictionary the same second call returns two rows. *)
Lemma default_workspace_is_shared :
  let first := Sample.ahrs gyro3 acc3 mag3 ts3 false (q 3 10) in
  let second := Sample.ahrs (firstn 2 gyro3) (firstn 2 acc3) (firstn 2 mag3)
                            (firstn 2 ts3) false (q 3 10) in
  exists (lab1 Q1 lab2 Q2 lab Qf : list (list Qc)) (w1 w2 wf : workspace),
    first default_workspace = (Ok (lab1, Q1, None), w1)
    /\ second w1 = (Ok (lab2, Q2, None), w2)
    /\ second default_workspace = (Ok (lab, Qf, None), wf)
    /\ length lab = 2
    /\ length lab2 = 3
    /\ nth_error lab2 2 = nth_error lab1 2
    /\ nth_error lab1 2 = Some (v3 2 0 0).
Proof.
  cbv zeta. do 9 eexists.
  split; [vm_compute; reflexivity |].
  split; [vm_compute; reflexivity |].
  split; [vm_compute; reflexivity |].
  repeat split.
Qed.

End Noise_witnesses.

(** ** [apply_ahrs] on a workspace without arrays, and [msqError] *)

Lemma lift_index_run (S X : Type) (l : list X) (i : nat) (x : X) (s : S) :
  nth_error l i = Some x -> lift (index l i) s = (Ok x, s).
Proof.
  intros H. unfold lift, index. rewrite H. reflexivity.
Qed.

Lemma nth_error_nth_lt (X : Type) (l : list X) (i : nat) (d : X) :
  i < length l -> nth_error l i = Some (nth i l d).
Proof.
  revert i. induction l as [| h l IH]; intros [| i] H; cbn in *; try lia; auto.
  apply IH. lia.
Qed.

Lemma map_seq_ext (X : Type) (f : nat -> X) (l : list X) :
  (forall j, j < length l -> nth_error l j = Some (f j)) ->
  l = map f (seq 0 (length l)).
Proof.
  revert f. induction l as [| h l IH]; intros f H; cbn.
  - reflexivity.
  - f_equal.
    + specialize (H 0). cbn in H. injection (H ltac:(lia)) as ->. reflexivity.
    + rewrite <- seq_shift, map_map. apply IH.
      intros j Hj. apply (H (S j)). cbn. lia.
Qed.

Section Ahrs_imu_facts.

Context {num : Type} {N : Num num}.

Variable norm : list num -> num.
Variable updateIMU : num -> num -> list num -> list num -> list num -> list num.
Variable updateMARG :
  num -> num -> list num -> list num -> list num -> list num -> list num.
Variable quaternion : list num -> list num.
Variable rotate : list num -> list num -> list num.

Variables (gyro acc mag : list (list num)) (ts : list num) (q0 g : list num)
          (zero_period : num) (betaval : num).

Local Open Scope string_scope.

Local Notation step :=
  (ahrs_step updateIMU updateMARG quaternion rotate gyro acc mag ts g false
             zero_period "IMU" betaval).
Local Notation filtered :=
  (filtered_up_to norm updateIMU quaternion rotate gyro acc ts q0 g betaval).

Lemma allocate_absent (k : string) (a : list (list num))
    (w : workspace (num := num)) :
  dict_get k w = None -> allocate k a w = (Ok tt, dict_set k a w).
Proof.
  intros H. unfold allocate, bind, ws_mem, dict_mem. rewrite H. reflexivity.
Qed.

Ltac other_key :=
  repeat (rewrite dict_get_set_same || rewrite dict_get_set_other by reflexivity).

(** One iteration on a workspace whose samples up to [t] are filtered. *)
Lemma ahrs_step_imu (t : nat) (nz : num) (w : workspace (num := num)) :
  filtered t w ->
  S t < length ts ->
  length gyro = length ts -> length acc = length ts ->
  exists w' : workspace,
    step (S t) nz w = (Ok nz, w')
    /\ filtered (S t) w'
    /\ forall k, ("Q" =? k) = false -> ("Q_quat" =? k) = false ->
                 ("acc_lab" =? k) = false -> dict_get k w' = dict_get k w.
Proof.
  intros (Qk & Qqk & alk & HQ & HQq & Hal & L1 & L2 & L3 & Hc) Ht Lg La.
  destruct (Hc t) as [Hq _]; [lia | lia |].
  assert (Hgy : nth_error gyro (S t) = Some (nth (S t) gyro []))
    by (apply nth_error_nth_lt; lia).
  assert (Hacc : nth_error acc (S t) = Some (nth (S t) acc []))
    by (apply nth_error_nth_lt; lia).
  pose (qt := orientation norm updateIMU gyro acc ts q0 betaval (S t)).
  unfold ahrs_step. cbn [String.eqb Ascii.eqb Bool.eqb].
  replace (S t - 1) with t by lia.
  erewrite bind_run.
  2:{ erewrite bind_run; [| eapply ws_row_run; eassumption].
      erewrite bind_run; [| apply lift_index_run; exact Hgy].
      erewrite bind_run; [| apply lift_index_run; exact Hacc].
      apply ws_store_row_run; [exact HQ | lia]. }
  change (updateIMU betaval (frequency ts)
            (orientation norm updateIMU gyro acc ts q0 betaval t)
            (nth (S t) gyro []) (nth (S t) acc [])) with qt.
  erewrite bind_run;
    [| eapply ws_row_run; [apply dict_get_set_same
                          | apply nth_error_set_nth_same; lia]].
  erewrite bind_run;
    [| eapply ws_store_row_run; [other_key; exact HQq | lia]].
  erewrite bind_run;
    [| eapply ws_row_run; [other_key; reflexivity
                          | apply nth_error_set_nth_same; lia]].
  erewrite bind_run; [| apply lift_index_run; exact Hacc].
  erewrite bind_run;
    [| eapply ws_store_row_run; [other_key; exact Hal | lia]].
  eexists. split; [reflexivity |]. split.
  - exists (set_nth (S t) qt Qk), (set_nth (S t) (quaternion qt) Qqk),
      (set_nth (S t) (vsub (rotate (quaternion qt) (nth (S t) acc [])) g) alk).
    other_key. rewrite !set_nth_length.
    repeat split; auto.
    + destruct (Nat.eq_dec j (S t)) as [-> | Hne].
      * rewrite nth_error_set_nth_same by lia. reflexivity.
      * rewrite nth_error_set_nth_other by lia. apply Hc; lia.
    + destruct (Nat.eq_dec j (S t)) as [-> | Hne].
      * rewrite nth_error_set_nth_same by lia. reflexivity.
      * rewrite nth_error_set_nth_other by lia. apply Hc; lia.
  - intros k K1 K2 K3. rewrite !dict_get_set_other by assumption. reflexivity.
Qed.

Lemma ahrs_loop_imu (k a : nat) (nz : num) (w : workspace (num := num)) :
  filtered a w ->
  a + k < length ts ->
  length gyro = length ts -> length acc = length ts ->
  exists w' : workspace,
    for_each (seq (S a) k) step nz w = (Ok nz, w')
    /\ filtered (a + k) w'
    /\ forall key, ("Q" =? key) = false -> ("Q_quat" =? key) = false ->
                   ("acc_lab" =? key) = false -> dict_get key w' = dict_get key w.
Proof.
  revert a w. induction k as [| k IH]; intros a w Hf Hk Lg La; cbn [seq for_each].
  - exists w. rewrite Nat.add_0_r. repeat split; auto.
  - destruct (@ahrs_step_imu a nz w Hf) as (w1 & Hs & Hf1 & Hk1); auto; try lia.
    destruct (IH (S a) w1 Hf1) as (w2 & Hl & Hf2 & Hk2); auto; try lia.
    exists w2. rewrite (bind_run Hs).
    replace (a + S k) with (S a + k) by lia.
    repeat split; auto.
    intros key K1 K2 K3. rewrite Hk2, Hk1 by assumption. reflexivity.
Qed.

Lemma assert_true_run (S : Type) (b : bool) (s : S) :
  b = true -> assert b s = (Ok tt, s).
Proof.
  intros ->. reflexivity.
Qed.

(** On a workspace that holds none of the three arrays, a call with
    [position=False] in IMU mode returns the history of the lab-frame
    acceleration. *)
Lemma apply_ahrs_fresh (w : workspace (num := num)) :
  dict_get "Q" w = None -> dict_get "Q_quat" w = None ->
  dict_get "acc_lab" w = None ->
  length gyro = length acc -> length acc = length mag ->
  length mag = length ts ->
  0 < length ts -> length q0 = 4 -> length g = 3 ->
  exists (w' : workspace) (Qh : list (list num)),
    apply_ahrs norm updateIMU updateMARG quaternion rotate gyro acc mag ts q0 g
               false zero_period "IMU" betaval w
    = (Ok (lab_history norm updateIMU quaternion rotate gyro acc ts q0 g betaval,
           Qh, None), w')
    /\ forall key, ("Q" =? key) = false -> ("Q_quat" =? key) = false ->
                   ("acc_lab" =? key) = false -> dict_get key w' = dict_get key w.
Proof.
  intros WQ WQq Wal Lg La Lm Hn Lq Hg.
  set (uq := unit_q0 norm q0).
  set (n := length ts) in *.
  set (w1 := dict_set "acc_lab" (zeros2 n 3)
               (dict_set "Q_quat" (set_nth 0 (quaternion uq) (repeat (quaternion uq) n))
                  (dict_set "Q_quat" (repeat (quaternion uq) n)
                     (dict_set "Q" (set_nth 0 uq (repeat uq n))
                        (dict_set "Q" (repeat uq n) w))))).
  assert (Hf : filtered 0 w1).
  { exists (set_nth 0 uq (repeat uq n)),
      (set_nth 0 (quaternion uq) (repeat (quaternion uq) n)), (zeros2 n 3).
    unfold w1. other_key.
    unfold zeros2. rewrite !set_nth_length, !repeat_length.
    repeat split; auto.
    - assert (j = 0) by lia. subst j.
      apply nth_error_set_nth_same. rewrite repeat_length. exact Hn.
    - assert (j = 0) by lia. subst j. fold n in H0.
      destruct n; [lia | reflexivity]. }
  destruct (@ahrs_loop_imu (n - 1) 0 zero_period w1 Hf)
    as (w2 & Hloop & (Qk & Qqk & alk & HQ & HQq & Hal & L1 & L2 & L3 & Hc) & Hk);
    try (fold n; lia).
  exists w2, Qk. split.
  - unfold apply_ahrs.
    erewrite bind_run; [| apply assert_true_run, Nat.eqb_eq; exact Lg].
    erewrite bind_run; [| apply assert_true_run, Nat.eqb_eq; exact La].
    erewrite bind_run; [| apply assert_true_run, Nat.eqb_eq; exact Lm].
    erewrite bind_run;
      [| apply assert_true_run, Nat.eqb_eq; unfold unit_q0;
         rewrite length_map; exact Lq].
    erewrite bind_run; [| apply assert_true_run, Nat.eqb_eq; exact Hg].
    erewrite bind_run; [| apply allocate_absent; exact WQ].
    erewrite bind_run;
      [| eapply ws_store_row_run;
         [apply dict_get_set_same | rewrite repeat_length; exact Hn]].
    erewrite bind_run; [| apply allocate_absent; other_key; exact WQq].
    erewrite bind_run;
      [| eapply ws_store_row_run;
         [apply dict_get_set_same | rewrite repeat_length; exact Hn]].
    erewrite bind_run; [| apply allocate_absent; other_key; exact Wal].
    erewrite bind_run; [| reflexivity].
    fold uq n w1.
    erewrite bind_run; [| exact Hloop].
    erewrite bind_run; [| apply ws_load_run; exact Hal].
    erewrite bind_run; [| apply ws_load_run; exact HQ].
    unfold ret. repeat f_equal.
    unfold lab_history. subst n. rewrite <- L3.
    apply map_seq_ext. intros j Hj. apply Hc; lia.
  - intros key K1 K2 K3. rewrite Hk by assumption.
    unfold w1. rewrite !dict_get_set_other by assumption. reflexivity.
Qed.

End Ahrs_imu_facts.

(** ** [idx_filter], [calibrate] and [msqError] *)

Section Calibration_facts.

Context {num : Type} {N : Num num}.

Lemma select_map (X : Type) (p : num -> bool) (t : list num) (rows : list X) :
  length rows = length t ->
  select (map p t) rows
  = Ok (map snd (filter (fun pr => p (fst pr)) (combine t rows))).
Proof.
  revert rows. induction t as [| x t IH]; intros [| row rows] H; cbn in *;
    try discriminate H; try reflexivity.
  rewrite IH by lia. cbn. destruct (p x); reflexivity.
Qed.

Lemma mask_fold (intervals : list (num * num)) (t : list num) (h : num -> bool) :
  fold_left (fun mask interval =>
               zipWith orb mask
                       (map (fun x => nltb (fst interval) x
                                      && nltb x (snd interval)) t))
            intervals (map h t)
  = map (fun x => h x || inside intervals x) t.
Proof.
  revert h. induction intervals as [| iv ivs IH]; intros h; cbn.
  - apply map_ext. intros x. rewrite orb_false_r. reflexivity.
  - assert (E : zipWith orb (map h t)
                  (map (fun x => nltb (fst iv) x && nltb x (snd iv)) t)
                = map (fun x => h x || (nltb (fst iv) x && nltb x (snd iv))) t).
    { clear IH. induction t as [| x t IHt]; cbn; [reflexivity |].
      rewrite IHt. reflexivity. }
    rewrite E, IH. apply map_ext. intros x. rewrite orb_assoc. reflexivity.
Qed.

(** [idx_filter] keeps the rows whose time lies inside an interval. *)
Lemma idx_filter_quiet (t : list num) (data : list (list num))
    (intervals : list (num * num)) :
  length data = length t ->
  exists t' : list num,
    idx_filter t data intervals = Ok (t', quiet_rows intervals t data).
Proof.
  intros H. unfold idx_filter.
  replace (repeat false (length t)) with (map (fun _ : num => false) t)
    by (clear; induction t; cbn; congruence).
  rewrite mask_fold. cbn [orb].
  rewrite !select_map by (auto; lia). cbn [res_bind].
  eexists. reflexivity.
Qed.

Context {L : @NumLaws num N}.

Add Field num_field_theory_calibration : num_field.

(** On samples of three entries [calibrate] multiplies every entry by its
    scale and adds its bias. *)
Lemma calibrate_scale_bias (data : list (list num)) (params : list num) :
  6 <= length params ->
  Forall (fun a => length a = 3) data ->
  calibrate data (Some params) = map (scale_bias params) data.
Proof.
  intros Hp Hd.
  destruct params as [| s0 [| s1 [| s2 [| b0 [| b1 [| b2 rest]]]]]];
    cbn in Hp; try lia.
  unfold calibrate, scale_bias, mm. cbn [firstn skipn].
  rewrite map_map. apply map_ext_in. intros a Ha.
  rewrite Forall_forall in Hd. specialize (Hd a Ha).
  destruct a as [| a0 [| a1 [| a2 [| ? ?]]]]; try discriminate Hd.
  cbn. repeat (f_equal; try ring).
Qed.

Lemma calibrate_length (data : list (list num)) (params : list num) :
  length (calibrate data (Some params)) = length data.
Proof.
  unfold calibrate, mm. rewrite !length_map. reflexivity.
Qed.

End Calibration_facts.

Section Calibration_claims.

Context {num : Type} {N : Num num} {L : @NumLaws num N}.

Variable norm : list num -> num.
Variable updateIMU : num -> num -> list num -> list num -> list num -> list num.
Variable updateMARG :
  num -> num -> list num -> list num -> list num -> list num -> list num.
Variable quaternion : list num -> list num.
Variable rotate : list num -> list num -> list num.

Local Open Scope string_scope.

(** C6. On a workspace that holds no filter arrays yet, for every
    parameter vector of ten entries, every list of quiet intervals and
    every stream of one sample or more whose sequences have equal length,
    [msqError] returns the value of the calibration evaluator: it applies
    the scale-bias calibration to the accelerometer stream, runs the
    orientation filter seeded with [q0 = params[6:]], keeps the lab-frame
    acceleration of the samples inside the quiet intervals, and returns
    three times the mean of its squares. *)
Theorem msqError_evaluates_calibration (params : list num)
    (intervals : list (num * num)) (acc gyro mag : list (list num))
    (ts g : list num) (w : workspace (num := num)) :
  dict_get "Q" w = None -> dict_get "Q_quat" w = None ->
  dict_get "acc_lab" w = None ->
  length gyro = length acc -> length acc = length mag ->
  length mag = length ts -> 0 < length ts ->
  length params = 10 -> length g = 3 ->
  Forall (fun a => length a = 3) acc ->
  exists w' : workspace,
    msqError norm updateIMU updateMARG quaternion rotate params intervals
             acc gyro mag ts g w
    = (Ok (EvaluateCalibration norm updateIMU quaternion rotate params
             intervals acc gyro ts g), w').
Proof.
  intros WQ WQq Wal Lg La Lm Hn Lp Hg Hacc.
  set (cal := calibrate acc (Some params)).
  assert (Lcal : length cal = length acc) by apply calibrate_length.
  destruct (@apply_ahrs_fresh _ _ norm updateIMU updateMARG quaternion rotate
              gyro cal mag ts (skipn 6 params) g default_zero_period
              default_betaval (dict_set "acc_scratch" cal w))
    as (w2 & Qh & Hrun & Hk);
    try (rewrite dict_get_set_other by reflexivity; assumption);
    try congruence; auto.
  { rewrite length_skipn. lia. }
  set (lab := lab_history norm updateIMU quaternion rotate gyro cal ts
                (skipn 6 params) g default_betaval) in *.
  assert (Llab : length lab = length ts).
  { unfold lab, lab_history. rewrite length_map, length_seq. reflexivity. }
  destruct (@idx_filter_quiet _ _ ts lab intervals Llab) as (t' & Hfilter).
  eexists. unfold msqError. fold cal.
  erewrite bind_run; [| reflexivity].
  erewrite bind_run; [| apply ws_load_run, dict_get_set_same].
  erewrite bind_run; [| exact Hrun].
  cbn [fst].
  erewrite bind_run; [| reflexivity].
  erewrite bind_run; [| apply ws_load_run, dict_get_set_same].
  erewrite bind_run; [| unfold lift; rewrite Hfilter; reflexivity].
  erewrite bind_run; [| reflexivity].
  erewrite bind_run; [| apply ws_load_run, dict_get_set_same].
  cbn [snd]. unfold ret, EvaluateCalibration.
  rewrite <- calibrate_scale_bias by (auto; lia).
  reflexivity.
Qed.

End Calibration_claims.

Section Calibration_witness.

Import Sample.

Lemma msqError_evaluates_calibration_witness :
  exists w' : workspace,
    msqError norm updateIMU updateMARG quaternion rotate
             (v3 1 1 1 ++ v3 0 0 0 ++ q_identity) [(q 1 2, q 5 2)]
             acc3 gyro3 mag3 ts3 gravity default_workspace
    = (Ok (EvaluateCalibration norm updateIMU quaternion rotate
             (v3 1 1 1 ++ v3 0 0 0 ++ q_identity) [(q 1 2, q 5 2)]
             acc3 gyro3 ts3 gravity), w').
Proof.
  apply (@msqError_evaluates_calibration Qc NumQc NumLawsQc norm updateIMU
           updateMARG quaternion rotate);
    try reflexivity.
  - cbn. lia.
  - repeat constructor.
Defined.

End Calibration_witness.

(** * Further properties of the code *)

(** ** The rotation module *)

Section Rotation_extras.

Local Open Scope R_scope.

Lemma zipWith_mul_comm (u v : list real) : zipWith Rmult u v = zipWith Rmult v u.
Proof.
  revert v. induction u as [| a u IH]; intros [| b v]; cbn; try reflexivity.
  rewrite IH. f_equal. ring.
Qed.

Lemma squares_vsub_comm (u v : list real) :
  map (fun x => nmul x x) (vsub u v) = map (fun x => nmul x x) (vsub v u).
Proof.
  revert v. induction u as [| a u IH]; intros [| b v];
    cbn [vsub zipWith map]; try reflexivity.
  unfold vsub in IH. rewrite IH. f_equal. cbn. ring.
Qed.

(** X1. The misalignment cost is symmetric in its two arrays, whatever
    their shapes. *)
Theorem axb2_symmetric (a b : list (list real)) : Lie.axb2 a b = Lie.axb2 b a.
Proof.
  unfold Lie.axb2, Lie.cross_columns, msquare. cbn [map].
  rewrite (squares_vsub_comm (zipWith Rmult (nth 1 a []) (nth 2 b []))).
  rewrite (squares_vsub_comm (zipWith Rmult (nth 2 a []) (nth 0 b []))).
  rewrite (squares_vsub_comm (zipWith Rmult (nth 0 a []) (nth 1 b []))).
  repeat (f_equal; try apply zipWith_mul_comm).
Qed.

Lemma np_any3_zero (x y z : real) :
  x = 0 /\ y = 0 /\ z = 0 -> Lie.np_any [x; y; z] = false.
Proof.
  intros (-> & -> & ->). unfold Lie.np_any. cbn -[neqb].
  rewrite !neqb_R_refl. reflexivity.
Qed.

Lemma norm3_opp (x y z : real) : Lie.norm [- x; - y; - z] = Lie.norm [x; y; z].
Proof.
  unfold Lie.norm. f_equal. cbn. ring.
Qed.

Lemma zero3_dec (x y z : real) :
  {x = 0 /\ y = 0 /\ z = 0} + {~ (x = 0 /\ y = 0 /\ z = 0)}.
Proof.
  destruct (Req_dec_T x 0) as [Hx | Hx]; [| right; tauto].
  destruct (Req_dec_T y 0) as [Hy | Hy]; [| right; tauto].
  destruct (Req_dec_T z 0) as [Hz | Hz]; [left; tauto | right; tauto].
Qed.

(** X2. The rotation of the opposite Lie vector is the transpose, that is
    the inverse, of the rotation of the vector. *)
Theorem R_opposite_is_transpose (x y z : real) (m : list (list real)) :
  Lie.R [x; y; z] = Ok m -> Lie.R [- x; - y; - z] = Ok (transpose m).
Proof.
  destruct (zero3_dec x y z) as [Hz | Hnz].
  - destruct Hz as (-> & -> & ->). rewrite R_zeros. intros H.
    injection H as <-.
    replace (- 0) with 0 by ring. rewrite R_zeros. cbn. reflexivity.
  - assert (Hnz' : ~ (- x = 0 /\ - y = 0 /\ - z = 0)).
    { intros (A & B & C). apply Hnz. repeat split; lra. }
    unfold Lie.R.
    rewrite (np_any3_nonzero Hnz), (np_any3_nonzero Hnz').
    cbn [negb map index nth_error res_bind].
    rewrite norm3_opp.
    pose proof (norm3_nonzero Hnz) as Hn.
    set (nv := Lie.norm [x; y; z]) in *.
    intros H. injection H as <-. cbn.
    repeat (f_equal; try (field; exact Hn)).
Qed.

Lemma R_opposite_is_transpose_witness :
  Lie.R [0; 0; 0] = Ok [[1; 0; 0]; [0; 1; 0]; [0; 0; 1]]
  /\ Lie.R [- 0; - 0; - 0] = Ok (transpose [[1; 0; 0]; [0; 1; 0]; [0; 0; 1]]).
Proof.
  split; [exact R_zeros | apply (@R_opposite_is_transpose 0 0 0 _ R_zeros)].
Defined.

Lemma norm_x_axis (a : real) : Lie.norm [a; 0; 0] = Rabs a.
Proof.
  unfold Lie.norm. cbn.
  replace (a * a + (0 * 0 + (0 * 0 + 0))) with (Rsqr a) by (unfold Rsqr; ring).
  apply sqrt_Rsqr_abs.
Qed.

(** X3. The Lie vector [2 theta, 0, 0] gives the rotation by [theta] about
    the first axis: the norm of the vector is twice the angle. *)
Theorem R_about_first_axis (theta : real) :
  Lie.R [2 * theta; 0; 0] = Ok (Lie.rotation_x theta).
Proof.
  destruct (Rtotal_order theta 0) as [Hneg | [-> | Hpos]].
  - assert (Hnz : ~ (2 * theta = 0 /\ 0 = 0 /\ 0 = 0)) by (intros [H _]; lra).
    unfold Lie.R. rewrite (np_any3_nonzero Hnz).
    cbn [negb map index nth_error res_bind].
    rewrite norm_x_axis, Rabs_left by lra.
    replace (- (2 * theta) / 2) with (- theta) by field.
    rewrite cos_neg, sin_neg. unfold Lie.rotation_x.
    repeat (f_equal; try (field; lra)).
  - replace (2 * 0) with 0 by ring. rewrite R_zeros.
    unfold Lie.rotation_x. rewrite cos_0, sin_0.
    repeat (f_equal; try ring).
  - assert (Hnz : ~ (2 * theta = 0 /\ 0 = 0 /\ 0 = 0)) by (intros [H _]; lra).
    unfold Lie.R. rewrite (np_any3_nonzero Hnz).
    cbn [negb map index nth_error res_bind].
    rewrite norm_x_axis, Rabs_right by lra.
    replace (2 * theta / 2) with theta by field.
    unfold Lie.rotation_x.
    repeat (f_equal; try (field; lra)).
Qed.

(** X4. [lie_angle] is the angle of the rotation that [R] builds: the
    trace of the matrix of a nonzero Lie vector is [1 + 2 cos] of it. *)
Theorem R_trace_lie_angle (x y z : real) :
  ~ (x = 0 /\ y = 0 /\ z = 0) ->
  exists m : list (list real),
    Lie.R [x; y; z] = Ok m
    /\ Lie.trace3 m = 1 + 2 * cos (Lie.lie_angle [x; y; z]).
Proof.
  intros Hv. unfold Lie.R, Lie.lie_angle.
  rewrite (np_any3_nonzero Hv). cbn [negb map index nth_error res_bind].
  pose proof (norm3_nonzero Hv) as Hn.
  pose proof (norm3_sqr x y z) as Hsq.
  set (nv := Lie.norm [x; y; z]) in *.
  eexists. split; [reflexivity |]. cbn [Lie.trace3].
  assert (Hunit : (x / nv) ^ 2 + (y / nv) ^ 2 + (z / nv) ^ 2 = 1).
  { replace ((x / nv) ^ 2 + (y / nv) ^ 2 + (z / nv) ^ 2)
      with ((x * x + y * y + z * z) / (nv * nv)) by (field; exact Hn).
    rewrite <- Hsq. field. exact Hn. }
  set (c := cos (nv / 2)) in *.
  replace (c + (x / nv) ^ 2 * (1 - c) + (c + (y / nv) ^ 2 * (1 - c))
           + (c + (z / nv) ^ 2 * (1 - c)))
    with (3 * c + ((x / nv) ^ 2 + (y / nv) ^ 2 + (z / nv) ^ 2) * (1 - c))
    by ring.
  rewrite Hunit. ring.
Qed.

Lemma R_trace_lie_angle_witness :
  exists m : list (list real),
    Lie.R [0; 1; 0] = Ok m
    /\ Lie.trace3 m = 1 + 2 * cos (Lie.lie_angle [0; 1; 0]).
Proof.
  apply (@R_trace_lie_angle 0 1 0). intros (_ & H & _). lra.
Defined.

(** X5. A Lie vector with fewer than three entries: the empty vector gives
    the identity, like every vector of zeros, and a vector with a nonzero
    entry raises [IndexError] at the entry it lacks. *)
Theorem R_short_vector (x y : real) :
  x <> 0 ->
  Lie.R [] = Ok [[1; 0; 0]; [0; 1; 0]; [0; 0; 1]]
  /\ Lie.R [0; 0] = Ok [[1; 0; 0]; [0; 1; 0]; [0; 0; 1]]
  /\ Lie.R [x] = Err IndexError
  /\ Lie.R [x; y] = Err IndexError
  /\ Lie.R [y; x] = Err IndexError.
Proof.
  intros Hx. unfold Lie.R, Lie.np_any. cbn -[neqb Lie.norm].
  rewrite !neqb_R_refl, (neqb_R_neq Hx). cbn -[Lie.norm].
  repeat split; try reflexivity.
  rewrite orb_true_r. reflexivity.
Qed.

Lemma R_short_vector_witness :
  Lie.R [] = Ok [[1; 0; 0]; [0; 1; 0]; [0; 0; 1]]
  /\ Lie.R [0; 0] = Ok [[1; 0; 0]; [0; 1; 0]; [0; 0; 1]]
  /\ Lie.R [1] = Err IndexError
  /\ Lie.R [1; 2] = Err IndexError
  /\ Lie.R [2; 1] = Err IndexError.
Proof.
  apply (@R_short_vector 1 2). lra.
Defined.

Lemma vdot_comm (u v : list real) : vdot u v = vdot v u.
Proof.
  unfold vdot. rewrite zipWith_mul_comm. reflexivity.
Qed.

(** X6. The angle between two vectors does not depend on their order, and
    the angle between a vector of nonzero norm and itself is zero. *)
Theorem subangle_symmetric_and_self (v1 v2 v : list real) :
  Lie.norm v <> 0 ->
  Lie.subangle v1 v2 = Lie.subangle v2 v1
  /\ Lie.subangle v v = Lie.Finite 0.
Proof.
  intros Hn. split.
  - unfold Lie.subangle. rewrite vdot_comm, Rmult_comm. reflexivity.
  - unfold Lie.subangle, Lie.np_divide.
    rewrite neqb_R_neq by nra.
    replace (vdot v v / (Lie.norm v * Lie.norm v)) with 1.
    + cbn [Lie.np_arccos].
      destruct (Rle_dec (-1) 1) as [_ | H]; [| lra].
      destruct (Rle_dec 1 1) as [_ | H]; [| lra].
      rewrite acos_1. reflexivity.
    + unfold Lie.norm in *. rewrite sqrt_sqrt by apply vdot_self_nonneg.
      field. intros H0. apply Hn. rewrite H0. apply sqrt_0.
Qed.

Lemma subangle_symmetric_and_self_witness :
  Lie.subangle [1; 0; 0] [0; 1; 0] = Lie.subangle [0; 1; 0] [1; 0; 0]
  /\ Lie.subangle [1; 0; 0] [1; 0; 0] = Lie.Finite 0.
Proof.
  apply subangle_symmetric_and_self.
  unfold Lie.norm. cbn.
  replace (1 * 1 + (0 * 0 + (0 * 0 + 0))) with 1 by ring.
  rewrite sqrt_1. lra.
Defined.

(** X7. Without rotation the calibration matrix is the diagonal matrix of
    the scales. *)
Theorem cal_matrix_without_rotation (s0 s1 s2 : real) :
  Lie.cal_matrix [s0; s1; s2; 0; 0; 0] = Ok (diag [s0; s1; s2]).
Proof.
  unfold Lie.cal_matrix. cbn [firstn skipn]. rewrite R_zeros.
  cbn. repeat (f_equal; try ring).
Qed.

End Rotation_extras.

(** ** [calibrate], [idx_filter] and the sampling interval *)

Lemma bind_fail (S X Y : Type) (c : M S X) (k : X -> M S Y) (s s1 : S)
    (e : error) :
  c s = (Err e, s1) -> bind c k s = (Err e, s1).
Proof.
  intros H. unfold bind. rewrite H. reflexivity.
Qed.

Arguments bind_fail {S X Y c k s s1 e} _.

Section Calibration_extras.

Context {num : Type} {N : Num num}.

Lemma select_mismatch (X : Type) (mask : list bool) (a : list X) :
  length a <> length mask -> select mask a = Err IndexError.
Proof.
  revert a. induction mask as [| b mask IH]; intros [| x a] H; cbn in *;
    try reflexivity; try lia.
  rewrite IH by lia. reflexivity.
Qed.

Lemma select_same_length (p : num -> bool) (t : list num) :
  select (map p t) t = Ok (filter p t).
Proof.
  induction t as [| x t IH]; cbn; [reflexivity |].
  rewrite IH. cbn. destruct (p x); reflexivity.
Qed.

Lemma mask_inside (intervals : list (num * num)) (t : list num) :
  fold_left (fun mask interval =>
               zipWith orb mask
                       (map (fun x => nltb (fst interval) x
                                      && nltb x (snd interval)) t))
            intervals (repeat false (length t))
  = map (inside intervals) t.
Proof.
  replace (repeat false (length t)) with (map (fun _ : num => false) t)
    by (clear; induction t; cbn; congruence).
  rewrite mask_fold. reflexivity.
Qed.

(** X8. [idx_filter] raises [IndexError] when the data does not have one
    row per timestamp. *)
Theorem idx_filter_length_mismatch (t : list num) (data : list (list num))
    (intervals : list (num * num)) :
  length data <> length t ->
  idx_filter t data intervals = Err IndexError.
Proof.
  intros H. unfold idx_filter. rewrite mask_inside, select_same_length.
  cbn [res_bind]. rewrite select_mismatch by (rewrite length_map; exact H).
  reflexivity.
Qed.

Lemma quiet_rows_length (intervals : list (num * num)) (t : list num)
    (data : list (list num)) :
  length data = length t ->
  length (quiet_rows intervals t data) = length (filter (inside intervals) t).
Proof.
  unfold quiet_rows. rewrite length_map.
  revert data. induction t as [| x t IH]; intros [| row data] H; cbn in *;
    try discriminate H; try reflexivity.
  destruct (inside intervals x); cbn; rewrite IH by lia; reflexivity.
Qed.

(** X9. With one row per timestamp [idx_filter] returns the timestamps that
    lie strictly inside one of the intervals, in their order, and as many
    rows; without intervals it returns nothing. *)
Theorem idx_filter_keeps_inside (t : list num) (data : list (list num))
    (intervals : list (num * num)) :
  length data = length t ->
  exists (t' : list num) (data' : list (list num)),
    idx_filter t data intervals = Ok (t', data')
    /\ t' = filter (inside intervals) t
    /\ length data' = length t'
    /\ Forall (fun x => exists interval,
                 In interval intervals
                 /\ nltb (fst interval) x = true
                 /\ nltb x (snd interval) = true) t'
    /\ (intervals = [] -> t' = [] /\ data' = []).
Proof.
  intros H. unfold idx_filter.
  rewrite mask_inside, select_same_length, select_map by exact H.
  cbn [res_bind]. eexists. eexists. split; [reflexivity |].
  split; [reflexivity |].
  split; [apply quiet_rows_length; exact H |].
  split.
  - apply Forall_forall. intros x Hx. apply filter_In in Hx as [_ Hx].
    unfold inside in Hx. apply existsb_exists in Hx as (iv & Hin & Hiv).
    apply andb_true_iff in Hiv. exists iv. tauto.
  - intros ->.
    assert (E : forall (X : Type) (l : list X), filter (fun _ => false) l = []).
    { intros X l. induction l; cbn; auto. }
    split; [apply E |].
    change (fun pr : num * list num => inside ([] : list (num * num)) (fst pr))
      with (fun _ : num * list num => false).
    rewrite E. reflexivity.
Qed.

Context {L : @NumLaws num N}.

Add Field num_field_theory_extras : num_field.

(** X10. The calibration with the scales at one and the biases at zero, and
    the call without parameters, return the samples unchanged. *)
Theorem calibrate_identity (data : list (list num)) (rest : list num) :
  Forall (fun a => length a = 3) data ->
  calibrate data (Some ([n1; n1; n1; n0; n0; n0] ++ rest)) = data
  /\ calibrate data None = data.
Proof.
  intros Hd. split; [| reflexivity].
  rewrite calibrate_scale_bias by (auto; cbn; lia).
  rewrite <- (map_id data) at 2. apply map_ext_in. intros a Ha.
  rewrite Forall_forall in Hd. specialize (Hd a Ha).
  destruct a as [| a0 [| a1 [| a2 [| ? ?]]]]; try discriminate Hd.
  unfold scale_bias. cbn. repeat (f_equal; try ring).
Qed.

(** The sum of the successive differences telescopes. *)
Lemma differences_telescope (x : num) (t : list num) :
  vsum (vsub (tl (x :: t)) (removelast (x :: t))) = nsub (last (x :: t) n0) x.
Proof.
  revert x. induction t as [| y t IH]; intros x.
  - cbn. ring.
  - specialize (IH y). cbn [tl] in *.
    change (removelast (x :: y :: t)) with (x :: removelast (y :: t)).
    change (last (x :: y :: t) n0) with (last (y :: t) n0).
    destruct t as [| y' t'].
    + cbn. ring.
    + cbn [vsub zipWith vsum fold_right] in *. rewrite IH. ring.
Qed.

Lemma differences_length (x : num) (t : list num) :
  length (vsub (tl (x :: t)) (removelast (x :: t))) = length t.
Proof.
  cbn [tl]. revert x. induction t as [| y t IH]; intros x.
  - reflexivity.
  - change (removelast (x :: y :: t)) with (x :: removelast (y :: t)).
    cbn [vsub zipWith length]. f_equal. apply (IH y).
Qed.

(** X11. The sampling interval that both filters derive from the
    timestamps is the span of the stream over the number of its steps. *)
Theorem mean_step_is_span_over_steps (x : num) (t : list num) :
  mean_step (x :: t)
  = ndiv (nsub (last (x :: t) n0) x) (of_nat (length t)).
Proof.
  unfold mean_step, mean.
  rewrite differences_telescope, differences_length. reflexivity.
Qed.

End Calibration_extras.

Section Calibration_extras_witnesses.

Import Sample.

Lemma idx_filter_length_mismatch_witness :
  idx_filter ts3 acc_lab4 [(q 0 1, q 1 1)] = Err IndexError.
Proof.
  apply idx_filter_length_mismatch. cbn. lia.
Defined.

Lemma idx_filter_keeps_inside_witness :
  exists (t' : list Qc) (data' : list (list Qc)),
    idx_filter ts3 acc3 [(q 1 2, q 3 2)] = Ok (t', data')
    /\ t' = filter (inside [(q 1 2, q 3 2)]) ts3
    /\ length data' = length t'
    /\ Forall (fun x => exists interval,
                 In interval [(q 1 2, q 3 2)]
                 /\ nltb (fst interval) x = true
                 /\ nltb x (snd interval) = true) t'
    /\ ([(q 1 2, q 3 2)] = [] -> t' = [] /\ data' = []).
Proof.
  apply idx_filter_keeps_inside. reflexivity.
Defined.

Lemma calibrate_identity_witness :
  calibrate acc3 (Some ([n1; n1; n1; n0; n0; n0] ++ q_identity)) = acc3
  /\ calibrate acc3 None = acc3.
Proof.
  apply (@calibrate_identity Qc NumQc NumLawsQc). repeat constructor.
Defined.

Lemma mean_step_is_span_over_steps_witness :
  mean_step ts3 = ndiv (nsub (last ts3 n0) (q 0 1)) (of_nat 2).
Proof.
  apply (@mean_step_is_span_over_steps Qc NumQc NumLawsQc).
Defined.

End Calibration_extras_witnesses.

(** ** [apply_ahrs]: the checks at entry *)

Section Ahrs_entry_extras.

Context {num : Type} {N : Num num}.

Variable norm : list num -> num.
Variable updateIMU : num -> num -> list num -> list num -> list num -> list num.
Variable updateMARG :
  num -> num -> list num -> list num -> list num -> list num -> list num.
Variable quaternion : list num -> list num.
Variable rotate : list num -> list num -> list num.

Local Open Scope string_scope.

(** X12. With sequences of equal length, an initial quaternion that does
    not have four entries or a gravity vector that does not have three
    makes [apply_ahrs] raise [AssertionError] before it touches the
    workspace. *)
Theorem apply_ahrs_checks_q0_and_g
    (gyro acc mag : list (list num)) (ts q0 g : list num) (position : bool)
    (zero_period : num) (filter : string) (betaval : num)
    (w : workspace (num := num)) :
  length gyro = length acc -> length acc = length mag ->
  length mag = length ts ->
  length q0 <> 4 \/ length g <> 3 ->
  apply_ahrs norm updateIMU updateMARG quaternion rotate
             gyro acc mag ts q0 g position zero_period filter betaval w
  = (Err AssertionError, w).
Proof.
  intros Lg La Lm Hbad. unfold apply_ahrs.
  erewrite bind_run; [| apply assert_true_run, Nat.eqb_eq; exact Lg].
  erewrite bind_run; [| apply assert_true_run, Nat.eqb_eq; exact La].
  erewrite bind_run; [| apply assert_true_run, Nat.eqb_eq; exact Lm].
  unfold unit_q0. rewrite length_map.
  destruct (Nat.eq_dec (length q0) 4) as [E4 | N4].
  - erewrite bind_run; [| apply assert_true_run, Nat.eqb_eq; exact E4].
    destruct Hbad as [Hq | Hg]; [contradiction |].
    apply bind_fail. unfold assert.
    apply Nat.eqb_neq in Hg. rewrite Hg. reflexivity.
  - apply bind_fail. unfold assert.
    apply Nat.eqb_neq in N4. rewrite N4. reflexivity.
Qed.

(** X13. On a stream without samples and a workspace without a ["Q"]
    array, [apply_ahrs] allocates an empty ["Q"] and raises [IndexError]
    at [workspace['Q'][0] = q0]: the empty array stays in the workspace. *)
Theorem apply_ahrs_without_samples
    (q0 g : list num) (position : bool) (zero_period : num)
    (filter : string) (betaval : num) (w : workspace (num := num)) :
  length q0 = 4 -> length g = 3 ->
  dict_get "Q" w = None ->
  apply_ahrs norm updateIMU updateMARG quaternion rotate
             [] [] [] [] q0 g position zero_period filter betaval w
  = (Err IndexError, dict_set "Q" [] w).
Proof.
  intros Lq Hg WQ. unfold apply_ahrs.
  erewrite bind_run; [| reflexivity].
  erewrite bind_run; [| reflexivity].
  erewrite bind_run; [| reflexivity].
  erewrite bind_run;
    [| apply assert_true_run, Nat.eqb_eq; unfold unit_q0;
       rewrite length_map; exact Lq].
  erewrite bind_run; [| apply assert_true_run, Nat.eqb_eq; exact Hg].
  cbn [length repeat].
  erewrite bind_run; [| unfold allocate, bind, ws_mem, dict_mem; rewrite WQ; reflexivity].
  apply bind_fail.
  unfold ws_store_row. erewrite bind_run;
    [| apply ws_load_run, dict_get_set_same].
  apply bind_fail. reflexivity.
Qed.

End Ahrs_entry_extras.

(** ** [kalman_filter]: the edges *)

Section Kalman_edge_extras.

Context {num : Type} {N : Num num}.

Variables (acc_lab : list (list num)) (q r : list num)
          (reset : bool) (time_period : num).

(** X14. With fewer than two samples no filter step runs.  Without
    samples the call raises [IndexError], at [state_guess[0]], and leaves
    [z] as it was.  On a single sample it returns the one zero state,
    whatever the noise, and leaves in [z[0]] its three position entries
    followed by zeros. *)
Theorem kalman_filter_fewer_than_two_samples (t0 a b c : num)
    (rest : list num) (z : list (list num)) :
  Kalman.kalman_filter [] acc_lab q r reset time_period z = (Err IndexError, z)
  /\ Kalman.kalman_filter [t0] acc_lab q r reset time_period
                          ((a :: b :: c :: rest) :: z)
     = (Ok [zeros 6], [a; b; c; n0; n0; n0] :: z).
Proof.
  split; reflexivity.
Qed.

(** The initialisation loop raises when a row it needs is missing or has
    fewer than three entries. *)
Lemma clear_loop_fails (k a : nat) (z : list (list num)) :
  (exists j, a <= j < a + k
             /\ forall row, nth_error z j = Some row -> length row < 3) ->
  exists z' : list (list num),
    for_each (seq a k) (fun i _ => Kalman.clear_velocity (N := N) i) tt z
    = (Err IndexError, z').
Proof.
  revert a z. induction k as [| k IH]; intros a z (j & Hj & Hbad);
    cbn [seq for_each]; [lia |].
  destruct (nth_error z a) as [row |] eqn:Ea.
  - destruct row as [| x [| y [| w rest]]].
    + exists z. apply bind_fail. unfold Kalman.clear_velocity.
      erewrite bind_run; [| unfold Kalman.z_row, index; rewrite Ea; reflexivity].
      apply bind_fail. reflexivity.
    + exists z. apply bind_fail. unfold Kalman.clear_velocity.
      erewrite bind_run; [| unfold Kalman.z_row, index; rewrite Ea; reflexivity].
      erewrite bind_run; [| reflexivity].
      apply bind_fail. reflexivity.
    + exists z. apply bind_fail. unfold Kalman.clear_velocity.
      erewrite bind_run; [| unfold Kalman.z_row, index; rewrite Ea; reflexivity].
      erewrite bind_run; [| reflexivity].
      erewrite bind_run; [| reflexivity].
      apply bind_fail. reflexivity.
    + erewrite bind_run; [| eapply clear_velocity_run; exact Ea].
      apply IH.
      assert (j <> a).
      { intros ->. specialize (Hbad _ Ea). cbn in Hbad. lia. }
      exists j. split; [lia |].
      intros row Hrow. rewrite nth_error_set_nth_other in Hrow by lia.
      apply Hbad. exact Hrow.
  - exists z. apply bind_fail. unfold Kalman.clear_velocity.
    apply bind_fail. unfold Kalman.z_row, index. rewrite Ea. reflexivity.
Qed.

(** X15. [kalman_filter] raises [IndexError] when [z] has fewer rows than
    there are samples, or when one of its first [len(t)] rows has fewer
    than three entries. *)
Theorem kalman_filter_short_z (t : list num) (z : list (list num)) :
  length z < length t
  \/ (exists j row, j < length t /\ nth_error z j = Some row /\ length row < 3) ->
  exists z' : list (list num),
    Kalman.kalman_filter t acc_lab q r reset time_period z
    = (Err IndexError, z').
Proof.
  intros H.
  destruct (@clear_loop_fails (length t) 0 z) as (z' & Hc).
  { destruct H as [H | (j & row & Hj & Hrow & Hlen)].
    - exists (length z). split; [lia |].
      intros row Hrow.
      assert (E : nth_error z (length z) = None) by (apply nth_error_None; lia).
      congruence.
    - exists j. split; [lia |]. intros row' Hrow'. congruence. }
  exists z'.
  unfold Kalman.kalman_filter, Kalman.kalman_run, Kalman.kalman_init.
  apply bind_fail, bind_fail, bind_fail. exact Hc.
Qed.

(** X16. A call that returns has as many states as samples, and the first
    state is the zero state: no step estimates the first sample. *)
Theorem kalman_filter_shape (t : list num) (z zf out : list (list num)) :
  Kalman.kalman_filter t acc_lab q r reset time_period z = (Ok out, zf) ->
  0 < length t
  /\ length out = length t
  /\ nth_error out 0 = Some (zeros 6).
Proof.
  unfold Kalman.kalman_filter. intros H.
  apply bind_ok in H as (lf & z1 & Hrun & Hret).
  apply ret_ok in Hret as [E1 E2]. subst out z1.
  assert (Hcopy := Hrun). apply kalman_run_lengths in Hcopy as (L1 & _ & _).
  unfold Kalman.kalman_run, Kalman.kalman_loop in Hrun.
  apply bind_ok in Hrun as (l0 & z0 & H0 & Hloop).
  apply kalman_init_ok in H0 as (Hn & E0 & _).
  apply kalman_loop_frame in Hloop as (_ & _ & _ & F4 & _).
  repeat split; auto.
  rewrite (@nth_error_nth_lt _ _ 0 []) by lia.
  rewrite (F4 0) by lia. rewrite E0.
  destruct (length t); [lia | reflexivity].
Qed.

(** X17. With two samples or more and at most one row of acceleration,
    the first filter step raises [IndexError] at [acc_lab[1]], before any
    matrix is inverted. *)
Theorem kalman_filter_short_acceleration (t : list num) (z : list (list num)) :
  2 <= length t ->
  length acc_lab <= 1 ->
  (forall i, i < length t ->
     exists row, nth_error z i = Some row /\ 3 <= length row) ->
  exists z' : list (list num),
    Kalman.kalman_filter t acc_lab q r reset time_period z
    = (Err IndexError, z').
Proof.
  intros Hn Hacc Hz.
  destruct (@clear_loop_run _ _ (length t) 0 z) as (z0 & Hc).
  { intros j Hj. apply Hz. lia. }
  exists z0.
  unfold Kalman.kalman_filter, Kalman.kalman_run, Kalman.kalman_init,
    Kalman.kalman_loop.
  destruct (length t) as [| [| n]] eqn:En; try lia.
  apply bind_fail. erewrite bind_run.
  2:{ erewrite bind_run; [| exact Hc].
      cbn [repeat]. erewrite bind_run; [| reflexivity].
      erewrite bind_run; [| reflexivity]. reflexivity. }
  cbn [Nat.sub seq for_each]. apply bind_fail.
  unfold Kalman.kalman_step. apply bind_fail.
  unfold lift, index.
  assert (E : nth_error acc_lab 1 = None) by (apply nth_error_None; lia).
  rewrite E. reflexivity.
Qed.

End Kalman_edge_extras.

Section Edge_witnesses.

Import Sample.

Lemma apply_ahrs_checks_q0_and_g_witness :
  apply_ahrs norm updateIMU updateMARG quaternion rotate gyro3 acc3 mag3 ts3
             (v3 1 0 0) gravity false (q 3 10) "IMU"%string (q 1 10) []
  = (Err AssertionError, []).
Proof.
  apply apply_ahrs_checks_q0_and_g; try reflexivity.
  left. cbn. lia.
Defined.

Lemma apply_ahrs_without_samples_witness :
  apply_ahrs norm updateIMU updateMARG quaternion rotate [] [] [] []
             q_identity gravity false (q 3 10) "IMU"%string (q 1 10) []
  = (Err IndexError, dict_set "Q"%string [] []).
Proof.
  apply apply_ahrs_without_samples; reflexivity.
Defined.

Lemma kalman_filter_short_z_witness :
  exists z' : list (list Qc),
    Kalman.kalman_filter t4 acc_lab4 noise noise false (q 3 10) (firstn 2 z4)
    = (Err IndexError, z').
Proof.
  apply kalman_filter_short_z. left. cbn. lia.
Defined.

Lemma kalman_filter_shape_witness :
  0 < length t4
  /\ length (Kalman.state_guess (kalman_lf false)) = length t4
  /\ nth_error (Kalman.state_guess (kalman_lf false)) 0 = Some (zeros 6).
Proof.
  apply (@kalman_filter_shape Qc NumQc acc_lab4 noise noise false (q 3 10)
           t4 z4 (kalman_zf false)).
  vm_compute. reflexivity.
Defined.

Lemma kalman_filter_short_acceleration_witness :
  exists z' : list (list Qc),
    Kalman.kalman_filter t4 [v3 0 0 0] noise noise false (q 3 10) z4
    = (Err IndexError, z').
Proof.
  apply kalman_filter_short_acceleration.
  - cbn. lia.
  - cbn. lia.
  - intros i Hi. cbn in Hi.
    destruct i as [| [| [| [| i]]]]; try lia;
      (eexists; split; [reflexivity | cbn; lia]).
Defined.

End Edge_witnesses.

(** ** [apply_ahrs] and [msqError] on a workspace that earlier runs used *)

Section Reuse_extras.

Context {num : Type} {N : Num num}.

Variable norm : list num -> num.
Variable updateIMU : num -> num -> list num -> list num -> list num -> list num.
Variable updateMARG :
  num -> num -> list num -> list num -> list num -> list num -> list num.
Variable quaternion : list num -> list num.
Variable rotate : list num -> list num -> list num.

Local Open Scope string_scope.

Ltac other_key :=
  repeat (rewrite dict_get_set_same || rewrite dict_get_set_other by reflexivity).

Lemma allocate_run (k : string) (a : list (list num))
    (w : workspace (num := num)) :
  exists w1 : workspace,
    allocate k a w = (Ok tt, w1)
    /\ dict_get k w1
       = Some (match dict_get k w with Some a0 => a0 | None => a end)
    /\ forall k', String.eqb k k' = false -> dict_get k' w1 = dict_get k' w.
Proof.
  unfold allocate, bind, ws_mem, dict_mem.
  destruct (dict_get k w) as [a0 |] eqn:E.
  - exists w. repeat split; auto.
  - exists (dict_set k a w). repeat split.
    + apply dict_get_set_same.
    + intros k' Hk. apply dict_get_set_other. exact Hk.
Qed.

Section Run.

Variables (gyro acc mag : list (list num)) (ts q0 g : list num)
          (zero_period betaval : num).

(** On a workspace that is fresh or that earlier runs on as many samples
    have used, a call with [position=False] in IMU mode returns the
    histories of this stream, and leaves a workspace of the same kind. *)
Lemma apply_ahrs_reusable (w : workspace (num := num)) :
  reusable (length ts) w ->
  length gyro = length acc -> length acc = length mag ->
  length mag = length ts ->
  0 < length ts -> length q0 = 4 -> length g = 3 ->
  exists w' : workspace,
    apply_ahrs norm updateIMU updateMARG quaternion rotate gyro acc mag ts q0 g
               false zero_period "IMU" betaval w
    = (Ok (lab_history norm updateIMU quaternion rotate gyro acc ts q0 g betaval,
           map (orientation norm updateIMU gyro acc ts q0 betaval)
               (seq 0 (length ts)),
           None), w')
    /\ reusable (length ts) w'
    /\ forall key, ("Q" =? key) = false -> ("Q_quat" =? key) = false ->
                   ("acc_lab" =? key) = false -> dict_get key w' = dict_get key w.
Proof.
  intros [Hlen Hrow0] Lg La Lm Hn Lq Hg.
  set (uq := unit_q0 norm q0).
  destruct (allocate_run "Q" (repeat uq (length ts)) w) as (w1 & A1 & G1 & F1).
  set (Q1 := match dict_get "Q" w with
             | Some a0 => a0 | None => repeat uq (length ts) end) in *.
  assert (LQ1 : length Q1 = length ts).
  { unfold Q1. destruct (dict_get "Q" w) as [a0 |] eqn:E.
    - apply (Hlen "Q"); auto.
    - apply repeat_length. }
  set (w2 := dict_set "Q" (set_nth 0 uq Q1) w1).
  destruct (allocate_run "Q_quat" (repeat (quaternion uq) (length ts)) w2)
    as (w3 & A3 & G3 & F3).
  set (Qq3 := match dict_get "Q_quat" w2 with
              | Some a0 => a0 | None => repeat (quaternion uq) (length ts) end) in *.
  assert (LQq3 : length Qq3 = length ts).
  { unfold Qq3, w2. rewrite dict_get_set_other, F1 by reflexivity.
    destruct (dict_get "Q_quat" w) as [a0 |] eqn:E.
    - apply (Hlen "Q_quat"); auto.
    - apply repeat_length. }
  set (w4 := dict_set "Q_quat" (set_nth 0 (quaternion uq) Qq3) w3).
  destruct (allocate_run "acc_lab" (zeros2 (length ts) 3) w4)
    as (w5 & A5 & G5 & F5).
  set (al5 := match dict_get "acc_lab" w4 with
              | Some a0 => a0 | None => zeros2 (length ts) 3 end) in *.
  assert (Eal : dict_get "acc_lab" w4 = dict_get "acc_lab" w).
  { unfold w4. rewrite dict_get_set_other, F3 by reflexivity.
    unfold w2. rewrite dict_get_set_other, F1 by reflexivity. reflexivity. }
  assert (Lal5 : length al5 = length ts
                 /\ nth_error al5 0 = Some (zeros 3)).
  { unfold al5. rewrite Eal.
    destruct (dict_get "acc_lab" w) as [a0 |] eqn:E.
    - split; [apply (Hlen "acc_lab"); auto | apply Hrow0; reflexivity].
    - unfold zeros2. rewrite repeat_length. split; [reflexivity |].
      destruct (length ts); [lia | reflexivity]. }
  destruct Lal5 as [Lal5 Ral5].
  assert (Hf : filtered_up_to norm updateIMU quaternion rotate gyro acc ts q0 g
                              betaval 0 w5).
  { exists (set_nth 0 uq Q1), (set_nth 0 (quaternion uq) Qq3), al5.
    rewrite G5.
    rewrite !F5 by reflexivity. unfold w4. other_key.
    rewrite F3 by reflexivity. unfold w2. other_key.
    rewrite !set_nth_length.
    repeat split; auto.
    - assert (j = 0) by lia. subst j.
      apply nth_error_set_nth_same. lia.
    - assert (j = 0) by lia. subst j. exact Ral5. }
  destruct (@ahrs_loop_imu _ _ norm updateIMU updateMARG quaternion rotate
              gyro acc mag ts q0 g zero_period betaval (length ts - 1) 0
              zero_period w5 Hf)
    as (w6 & Hloop & Hf6 & Hk); try lia.
  assert (Hf6' := Hf6).
  destruct Hf6 as (Qk & Qqk & alk & HQ & HQq & Hal & L1 & L2 & L3 & Hc).
  exists w6. split; [| split].
  - unfold apply_ahrs.
    erewrite bind_run; [| apply assert_true_run, Nat.eqb_eq; exact Lg].
    erewrite bind_run; [| apply assert_true_run, Nat.eqb_eq; exact La].
    erewrite bind_run; [| apply assert_true_run, Nat.eqb_eq; exact Lm].
    erewrite bind_run;
      [| apply assert_true_run, Nat.eqb_eq; unfold unit_q0;
         rewrite length_map; exact Lq].
    erewrite bind_run; [| apply assert_true_run, Nat.eqb_eq; exact Hg].
    erewrite bind_run; [| exact A1].
    erewrite bind_run; [| eapply ws_store_row_run; [exact G1 | lia]].
    erewrite bind_run; [| exact A3].
    erewrite bind_run; [| eapply ws_store_row_run; [exact G3 | lia]].
    erewrite bind_run; [| exact A5].
    erewrite bind_run; [| reflexivity].
    erewrite bind_run; [| exact Hloop].
    erewrite bind_run; [| apply ws_load_run; exact Hal].
    erewrite bind_run; [| apply ws_load_run; exact HQ].
    unfold ret. repeat f_equal.
    + unfold lab_history. rewrite <- L3.
      apply map_seq_ext. intros j Hj. apply Hc; lia.
    + rewrite <- L1. apply map_seq_ext. intros j Hj. apply Hc; lia.
  - split.
    + intros k [-> | [-> | ->]] a Ha; congruence.
    + intros al Hal'. assert (al = alk) by congruence. subst al.
      apply (Hc 0); lia.
  - intros key K1 K2 K3. rewrite Hk by assumption.
    rewrite F5 by assumption. unfold w4.
    rewrite dict_get_set_other, F3 by assumption. unfold w2.
    rewrite dict_get_set_other, F1 by assumption. reflexivity.
Qed.

(** X18. In IMU mode without position tracking, on a workspace that is
    fresh or that earlier runs on as many samples have used, [apply_ahrs]
    returns one row per sample: the quaternions are the normalised [q0]
    followed by one Madgwick update per sample, each from the quaternion
    before it, and the lab-frame accelerations are the zero row followed,
    from the second sample on, by the accelerometer reading rotated by the
    quaternion of its sample, less [g]. *)
Theorem apply_ahrs_returns_histories (w : workspace (num := num)) :
  reusable (length ts) w ->
  length gyro = length acc -> length acc = length mag ->
  length mag = length ts ->
  0 < length ts -> length q0 = 4 -> length g = 3 ->
  exists (w' : workspace) (lab Qh : list (list num)),
    apply_ahrs norm updateIMU updateMARG quaternion rotate gyro acc mag ts q0 g
               false zero_period "IMU" betaval w
    = (Ok (lab, Qh, None), w')
    /\ length lab = length ts /\ length Qh = length ts
    /\ nth_error Qh 0 = Some (map (fun x => ndiv x (norm q0)) q0)
    /\ nth_error lab 0 = Some (zeros 3)
    /\ forall t, S t < length ts ->
         nth (S t) Qh []
         = updateIMU betaval (ndiv n1 (mean_step ts)) (nth t Qh [])
                     (nth (S t) gyro []) (nth (S t) acc [])
         /\ nth (S t) lab []
            = vsub (rotate (quaternion (nth (S t) Qh [])) (nth (S t) acc [])) g.
Proof.
  intros Hw Lg La Lm Hn Lq Hg.
  destruct (apply_ahrs_reusable Hw Lg La Lm Hn Lq Hg) as (w' & Hrun & _ & _).
  eexists. eexists. eexists. split; [exact Hrun |].
  unfold lab_history. rewrite !length_map, !length_seq.
  assert (Hnth : forall (X : Type) (f : nat -> X) (d : X) (j : nat),
            j < length ts -> nth j (map f (seq 0 (length ts))) d = f j).
  { intros X f d j Hj.
    rewrite (nth_indep _ d (f 0)) by (rewrite length_map, length_seq; exact Hj).
    rewrite (map_nth f), seq_nth by exact Hj. reflexivity. }
  repeat split.
  - destruct (length ts); [lia | reflexivity].
  - destruct (length ts); [lia | reflexivity].
  - rewrite !Hnth by lia. reflexivity.
  - rewrite !Hnth by lia. reflexivity.
Qed.

End Run.

Context {L : @NumLaws num N}.

(** X19. [msqError] on a workspace that is fresh or that earlier calls on
    streams of the same length have used returns the value of the
    calibration evaluator for its own arguments, and leaves the workspace
    fit for the next call: successive evaluations on one data set do not
    disturb each other. *)
Theorem msqError_reuses_workspace (params : list num)
    (intervals : list (num * num)) (acc gyro mag : list (list num))
    (ts g : list num) (w : workspace (num := num)) :
  reusable (length ts) w ->
  length gyro = length acc -> length acc = length mag ->
  length mag = length ts -> 0 < length ts ->
  length params = 10 -> length g = 3 ->
  Forall (fun a => length a = 3) acc ->
  exists w' : workspace,
    msqError norm updateIMU updateMARG quaternion rotate params intervals
             acc gyro mag ts g w
    = (Ok (EvaluateCalibration norm updateIMU quaternion rotate params
             intervals acc gyro ts g), w')
    /\ reusable (length ts) w'.
Proof.
  intros Hw Lg La Lm Hn Lp Hg Hacc.
  set (cal := calibrate acc (Some params)).
  assert (Lcal : length cal = length acc) by apply calibrate_length.
  assert (Hstore : forall (a : list (list num)) (w0 : workspace (num := num)),
            reusable (length ts) w0 ->
            reusable (length ts) (dict_set "acc_scratch" a w0)).
  { intros a w0 [H1 H2]. split.
    - intros k [-> | [-> | ->]] a0; rewrite dict_get_set_other by reflexivity;
        apply H1; auto.
    - intros al. rewrite dict_get_set_other by reflexivity. apply H2. }
  destruct (@apply_ahrs_reusable gyro cal mag ts (skipn 6 params) g
              default_zero_period default_betaval
              (dict_set "acc_scratch" cal w))
    as (w2 & Hrun & Hw2 & Hk); try congruence; auto.
  { rewrite length_skipn. lia. }
  set (lab := lab_history norm updateIMU quaternion rotate gyro cal ts
                (skipn 6 params) g default_betaval) in *.
  assert (Llab : length lab = length ts).
  { unfold lab, lab_history. rewrite length_map, length_seq. reflexivity. }
  destruct (@idx_filter_quiet _ _ ts lab intervals Llab) as (t' & Hfilter).
  eexists. split.
  - unfold msqError. fold cal.
    erewrite bind_run; [| reflexivity].
    erewrite bind_run; [| apply ws_load_run, dict_get_set_same].
    erewrite bind_run; [| exact Hrun].
    cbn [fst].
    erewrite bind_run; [| reflexivity].
    erewrite bind_run; [| apply ws_load_run, dict_get_set_same].
    erewrite bind_run; [| unfold lift; rewrite Hfilter; reflexivity].
    erewrite bind_run; [| reflexivity].
    erewrite bind_run; [| apply ws_load_run, dict_get_set_same].
    cbn [snd]. unfold ret, EvaluateCalibration.
    rewrite <- calibrate_scale_bias by (auto; lia).
    reflexivity.
  - apply Hstore, Hstore. exact Hw2.
Qed.

End Reuse_extras.

Section Reuse_witnesses.

Import Sample.

Lemma reusable_empty (n : nat) : reusable n ([] : workspace (num := Qc)).
Proof.
  split; intros; discriminate.
Qed.

Lemma apply_ahrs_returns_histories_witness :
  exists (w' : workspace) (lab Qh : list (list Qc)),
    apply_ahrs norm updateIMU updateMARG quaternion rotate gyro3 acc3 mag3 ts3
               q_identity gravity false (q 3 10) "IMU"%string (q 1 10) []
    = (Ok (lab, Qh, None), w')
    /\ length lab = length ts3 /\ length Qh = length ts3
    /\ nth_error Qh 0 = Some (map (fun x => ndiv x (norm q_identity)) q_identity)
    /\ nth_error lab 0 = Some (zeros 3)
    /\ forall t, S t < length ts3 ->
         nth (S t) Qh []
         = updateIMU (q 1 10) (ndiv n1 (mean_step ts3)) (nth t Qh [])
                     (nth (S t) gyro3 []) (nth (S t) acc3 [])
         /\ nth (S t) lab []
            = vsub (rotate (quaternion (nth (S t) Qh [])) (nth (S t) acc3 []))
                   gravity.
Proof.
  apply apply_ahrs_returns_histories; try reflexivity.
  - apply reusable_empty.
  - cbn. lia.
Defined.

Lemma msqError_reuses_workspace_witness :
  exists w' : workspace,
    msqError norm updateIMU updateMARG quaternion rotate
             (v3 1 1 1 ++ v3 0 0 0 ++ q_identity) [(q 1 2, q 5 2)]
             acc3 gyro3 mag3 ts3 gravity []
    = (Ok (EvaluateCalibration norm updateIMU quaternion rotate
             (v3 1 1 1 ++ v3 0 0 0 ++ q_identity) [(q 1 2, q 5 2)]
             acc3 gyro3 ts3 gravity), w')
    /\ reusable (length ts3) w'.
Proof.
  apply (@msqError_reuses_workspace Qc NumQc norm updateIMU updateMARG
           quaternion rotate NumLawsQc);
    try reflexivity.
  - apply reusable_empty.
  - cbn. lia.
  - repeat constructor.
Defined.

End Reuse_witnesses.

(** ** [apply_ahrs] on arrays of another length *)

Section Stale_extras.

Context {num : Type} {N : Num num}.

Variable norm : list num -> num.
Variable updateIMU : num -> num -> list num -> list num -> list num -> list num.
Variable updateMARG :
  num -> num -> list num -> list num -> list num -> list num -> list num.
Variable quaternion : list num -> list num.
Variable rotate : list num -> list num -> list num.

Variables (gyro acc mag : list (list num)) (ts q0 g : list num)
          (zero_period betaval : num).

Local Open Scope string_scope.

Local Notation step :=
  (ahrs_step updateIMU updateMARG quaternion rotate gyro acc mag ts g false
             zero_period "IMU" betaval).

Ltac other_key :=
  repeat (rewrite dict_get_set_same || rewrite dict_get_set_other by reflexivity).

(** One iteration writes row [t] of the three arrays, whatever their
    number of rows. *)
Lemma ahrs_step_rows (t : nat) (nz : num) (w : workspace (num := num))
    (Q Qq al : list (list num)) :
  dict_get "Q" w = Some Q -> dict_get "Q_quat" w = Some Qq ->
  dict_get "acc_lab" w = Some al ->
  1 <= t -> t < length Q -> t < length Qq -> t < length al ->
  t < length gyro -> t < length acc ->
  exists (w' : workspace) (qt x : list num),
    step t nz w = (Ok nz, w')
    /\ dict_get "Q" w' = Some (set_nth t qt Q)
    /\ dict_get "Q_quat" w' = Some (set_nth t (quaternion qt) Qq)
    /\ dict_get "acc_lab" w' = Some (set_nth t x al).
Proof.
  intros HQ HQq Hal Ht L1 L2 L3 Lg La.
  assert (Hq : nth_error Q (t - 1) = Some (nth (t - 1) Q []))
    by (apply nth_error_nth_lt; lia).
  assert (Hgy : nth_error gyro t = Some (nth t gyro []))
    by (apply nth_error_nth_lt; lia).
  assert (Hacc : nth_error acc t = Some (nth t acc []))
    by (apply nth_error_nth_lt; lia).
  unfold ahrs_step. cbn [String.eqb Ascii.eqb Bool.eqb].
  erewrite bind_run.
  2:{ erewrite bind_run; [| eapply ws_row_run; eassumption].
      erewrite bind_run; [| apply lift_index_run; exact Hgy].
      erewrite bind_run; [| apply lift_index_run; exact Hacc].
      apply ws_store_row_run; [exact HQ | lia]. }
  erewrite bind_run;
    [| eapply ws_row_run; [apply dict_get_set_same
                          | apply nth_error_set_nth_same; lia]].
  erewrite bind_run;
    [| eapply ws_store_row_run; [other_key; exact HQq | lia]].
  erewrite bind_run;
    [| eapply ws_row_run; [other_key; reflexivity
                          | apply nth_error_set_nth_same; lia]].
  erewrite bind_run; [| apply lift_index_run; exact Hacc].
  erewrite bind_run;
    [| eapply ws_store_row_run; [other_key; exact Hal | lia]].
  eexists. eexists. eexists.
  split; [reflexivity |]. other_key. repeat split.
Qed.

Lemma ahrs_loop_rows (k a : nat) (nz : num) (w : workspace (num := num))
    (Q Qq al : list (list num)) :
  dict_get "Q" w = Some Q -> dict_get "Q_quat" w = Some Qq ->
  dict_get "acc_lab" w = Some al ->
  a + k < length Q -> a + k < length Qq -> a + k < length al ->
  a + k < length gyro -> a + k < length acc ->
  exists (w' : workspace) (Q' Qq' al' : list (list num)),
    for_each (seq (S a) k) step nz w = (Ok nz, w')
    /\ dict_get "Q" w' = Some Q' /\ dict_get "Q_quat" w' = Some Qq'
    /\ dict_get "acc_lab" w' = Some al'
    /\ length Q' = length Q /\ length Qq' = length Qq
    /\ length al' = length al
    /\ forall j, j <= a \/ a + k < j ->
         nth_error Q' j = nth_error Q j /\ nth_error al' j = nth_error al j.
Proof.
  revert a w Q Qq al.
  induction k as [| k IH]; intros a w Q Qq al HQ HQq Hal L1 L2 L3 Lg La;
    cbn [seq for_each].
  - exists w, Q, Qq, al. repeat split; auto.
  - destruct (@ahrs_step_rows (S a) nz w Q Qq al)
      as (w1 & qt & x & Hs & HQ1 & HQq1 & Hal1); auto; try lia.
    destruct (IH (S a) w1 _ _ _ HQ1 HQq1 Hal1)
      as (w2 & Q2 & Qq2 & al2 & Hl & HQ2 & HQq2 & Hal2 & M1 & M2 & M3 & Hrows);
      rewrite ?set_nth_length; try lia.
    rewrite set_nth_length in M1, M2, M3.
    exists w2, Q2, Qq2, al2. rewrite (bind_run Hs).
    repeat split; auto.
    + destruct (Hrows j) as [E _]; [lia |]. rewrite E.
      apply nth_error_set_nth_other. lia.
    + destruct (Hrows j) as [_ E]; [lia |]. rewrite E.
      apply nth_error_set_nth_other. lia.
Qed.

(** The iteration whose index is the number of rows of ["Q"] raises. *)
Lemma ahrs_step_overflow (nz : num) (w : workspace (num := num))
    (Q : list (list num)) :
  dict_get "Q" w = Some Q -> 1 <= length Q ->
  length Q < length gyro -> length Q < length acc ->
  step (length Q) nz w = (Err IndexError, w).
Proof.
  intros HQ L1 Lg La.
  assert (Hq : nth_error Q (length Q - 1) = Some (nth (length Q - 1) Q []))
    by (apply nth_error_nth_lt; lia).
  assert (Hgy : nth_error gyro (length Q) = Some (nth (length Q) gyro []))
    by (apply nth_error_nth_lt; lia).
  assert (Hacc : nth_error acc (length Q) = Some (nth (length Q) acc []))
    by (apply nth_error_nth_lt; lia).
  unfold ahrs_step. cbn [String.eqb Ascii.eqb Bool.eqb].
  apply bind_fail.
  erewrite bind_run; [| eapply ws_row_run; eassumption].
  erewrite bind_run; [| apply lift_index_run; exact Hgy].
  erewrite bind_run; [| apply lift_index_run; exact Hacc].
  unfold ws_store_row.
  erewrite bind_run; [| apply ws_load_run; exact HQ].
  apply bind_fail. unfold lift, assign. rewrite Nat.ltb_irrefl. reflexivity.
Qed.

Section Arrays.

(** The three arrays that the workspace holds before the call. *)
Variables (w : workspace (num := num)) (Q Qq al : list (list num)).

Hypothesis HQ : dict_get "Q" w = Some Q.
Hypothesis HQq : dict_get "Q_quat" w = Some Qq.
Hypothesis Hal : dict_get "acc_lab" w = Some al.
Hypothesis Lg : length gyro = length acc.
Hypothesis La : length acc = length mag.
Hypothesis Lm : length mag = length ts.
Hypothesis Lq : length q0 = 4.
Hypothesis Hg : length g = 3.

Lemma apply_ahrs_entry (m k : nat) :
  length Q = m -> length Qq = m -> length al = m ->
  1 <= m -> k < m -> k < length ts ->
  exists (w' : workspace) (Q' Qq' al' : list (list num)),
    (apply_ahrs norm updateIMU updateMARG quaternion rotate gyro acc mag ts
                   q0 g false zero_period "IMU" betaval w
        = bind (for_each (seq 1 (length ts - 1)) step zero_period)
               (fun _ =>
                  bind (ws_load "acc_lab") (fun acc_lab =>
                  bind (ws_load "Q") (fun Qh => ret (acc_lab, Qh, None))))
               (dict_set "Q_quat" (set_nth 0 (quaternion (unit_q0 norm q0)) Qq)
                  (dict_set "Q" (set_nth 0 (unit_q0 norm q0) Q) w)))
    /\ for_each (seq 1 k) step zero_period
         (dict_set "Q_quat" (set_nth 0 (quaternion (unit_q0 norm q0)) Qq)
            (dict_set "Q" (set_nth 0 (unit_q0 norm q0) Q) w))
       = (Ok zero_period, w')
    /\ dict_get "Q" w' = Some Q' /\ dict_get "Q_quat" w' = Some Qq'
    /\ dict_get "acc_lab" w' = Some al'
    /\ length Q' = m /\ length Qq' = m /\ length al' = m
    /\ forall j, k < j ->
         nth_error Q' j = nth_error Q j /\ nth_error al' j = nth_error al j.
Proof.
  intros M1 M2 M3 Hm Hk Hkn.
  set (w0 := dict_set "Q_quat" (set_nth 0 (quaternion (unit_q0 norm q0)) Qq)
               (dict_set "Q" (set_nth 0 (unit_q0 norm q0) Q) w)).
  destruct (@ahrs_loop_rows k 0 zero_period w0
              (set_nth 0 (unit_q0 norm q0) Q)
              (set_nth 0 (quaternion (unit_q0 norm q0)) Qq) al)
    as (w' & Q' & Qq' & al' & Hl & HQ' & HQq' & Hal' & N1 & N2 & N3 & Hrows);
    unfold w0; other_key; rewrite ?set_nth_length; auto; try lia.
  exists w', Q', Qq', al'.
  rewrite set_nth_length in N1, N2.
  split; [| repeat split; auto; try congruence].
  - unfold apply_ahrs.
    erewrite bind_run; [| apply assert_true_run, Nat.eqb_eq; exact Lg].
    erewrite bind_run; [| apply assert_true_run, Nat.eqb_eq; exact La].
    erewrite bind_run; [| apply assert_true_run, Nat.eqb_eq; exact Lm].
    erewrite bind_run;
      [| apply assert_true_run, Nat.eqb_eq; unfold unit_q0;
         rewrite length_map; exact Lq].
    erewrite bind_run; [| apply assert_true_run, Nat.eqb_eq; exact Hg].
    erewrite bind_run;
      [| unfold allocate, bind, ws_mem, dict_mem; rewrite HQ; reflexivity].
    erewrite bind_run; [| eapply ws_store_row_run; [exact HQ | lia]].
    erewrite bind_run;
      [| unfold allocate, bind, ws_mem, dict_mem; other_key; rewrite HQq;
         reflexivity].
    erewrite bind_run;
      [| eapply ws_store_row_run; [other_key; exact HQq | lia]].
    erewrite bind_run;
      [| unfold allocate, bind, ws_mem, dict_mem; other_key; rewrite Hal;
         reflexivity].
    erewrite bind_run; [| reflexivity].
    reflexivity.
  - destruct (Hrows j) as [E _]; [lia |]. rewrite E.
    apply nth_error_set_nth_other. lia.
  - destruct (Hrows j) as [_ E]; [lia |]. exact E.
Qed.

(** X20. When the workspace already holds the three arrays with fewer
    rows than there are samples, [apply_ahrs] raises [IndexError]: the
    arrays are not allocated again, and the iteration whose index is their
    number of rows writes outside them. *)
Theorem apply_ahrs_workspace_too_short (m : nat) :
  length Q = m -> length Qq = m -> length al = m ->
  1 <= m -> m < length ts ->
  exists w' : workspace,
    apply_ahrs norm updateIMU updateMARG quaternion rotate gyro acc mag ts
               q0 g false zero_period "IMU" betaval w
    = (Err IndexError, w').
Proof.
  intros M1 M2 M3 Hm Hn.
  destruct (@apply_ahrs_entry m (m - 1) M1 M2 M3 Hm)
    as (w' & Q' & Qq' & al' & Heq & Hl & HQ' & _ & _ & N1 & _); try lia.
  exists w'. rewrite Heq.
  apply bind_fail.
  rewrite (@seq_split 1 (m - 1) (length ts - 1)) by lia.
  rewrite for_each_app, (bind_run Hl).
  replace (length ts - 1 - (m - 1)) with (S (length ts - 1 - m)) by lia.
  replace (1 + (m - 1)) with (length Q') by lia.
  cbn [seq for_each].
  apply bind_fail, ahrs_step_overflow; [exact HQ' | lia | lia | lia].
Qed.

(** X21. When the workspace already holds the three arrays with at least
    as many rows as there are samples, [apply_ahrs] returns the arrays of
    the workspace: they keep the workspace's number of rows, and every row
    from the number of samples on is the one the workspace held before the
    call. *)
Theorem apply_ahrs_workspace_longer (m : nat) :
  length Q = m -> length Qq = m -> length al = m ->
  1 <= length ts -> length ts <= m ->
  exists (w' : workspace) (lab Qh : list (list num)),
    apply_ahrs norm updateIMU updateMARG quaternion rotate gyro acc mag ts
               q0 g false zero_period "IMU" betaval w
    = (Ok (lab, Qh, None), w')
    /\ length lab = m /\ length Qh = m
    /\ forall j, length ts <= j ->
         nth_error lab j = nth_error al j /\ nth_error Qh j = nth_error Q j.
Proof.
  intros M1 M2 M3 Hn Hm.
  destruct (@apply_ahrs_entry m (length ts - 1) M1 M2 M3)
    as (w' & Q' & Qq' & al' & Heq & Hl & HQ' & _ & Hal' & N1 & _ & N3 & Hrows);
    try lia.
  exists w', al', Q'. rewrite Heq, (bind_run Hl).
  rewrite (bind_run (ws_load_run _ _ Hal')), (bind_run (ws_load_run _ _ HQ')).
  repeat split; auto; apply Hrows; lia.
Qed.

End Arrays.

End Stale_extras.

Section Stale_witnesses.

Import Sample.

Local Open Scope string_scope.

Lemma apply_ahrs_workspace_too_short_witness :
  exists w' : workspace,
    apply_ahrs norm updateIMU updateMARG quaternion rotate gyro3 acc3 mag3 ts3
               q_identity gravity false (q 3 10) "IMU" (q 1 10)
               [("Q", repeat q_identity 2); ("Q_quat", repeat q_identity 2);
                ("acc_lab", repeat (v3 0 0 0) 2)]
    = (Err IndexError, w').
Proof.
  apply (@apply_ahrs_workspace_too_short Qc NumQc norm updateIMU updateMARG
           quaternion rotate gyro3 acc3 mag3 ts3 q_identity gravity (q 3 10)
           (q 1 10) _ (repeat q_identity 2) (repeat q_identity 2)
           (repeat (v3 0 0 0) 2)) with (m := 2);
    try reflexivity; cbn; lia.
Defined.

Lemma apply_ahrs_workspace_longer_witness :
  exists (w' : workspace) (lab Qh : list (list Qc)),
    apply_ahrs norm updateIMU updateMARG quaternion rotate gyro3 acc3 mag3 ts3
               q_identity gravity false (q 3 10) "IMU" (q 1 10)
               [("Q", repeat [q 7 1; q 7 1; q 7 1; q 7 1] 5); ("Q_quat", repeat q_identity 5);
                ("acc_lab", repeat (v3 9 9 9) 5)]
    = (Ok (lab, Qh, None), w')
    /\ length lab = 5 /\ length Qh = 5
    /\ forall j, length ts3 <= j ->
         nth_error lab j = nth_error (repeat (v3 9 9 9) 5) j
         /\ nth_error Qh j = nth_error (repeat [q 7 1; q 7 1; q 7 1; q 7 1] 5) j.
Proof.
  apply (@apply_ahrs_workspace_longer Qc NumQc norm updateIMU updateMARG
           quaternion rotate gyro3 acc3 mag3 ts3 q_identity gravity (q 3 10)
           (q 1 10) _ (repeat [q 7 1; q 7 1; q 7 1; q 7 1] 5) (repeat q_identity 5)
           (repeat (v3 9 9 9) 5)) with (m := 5);
    try reflexivity; cbn; lia.
Defined.

End Stale_witnesses.

(** ** The cost functions *)

Section Cost_extras.

Local Open Scope R_scope.

Lemma sum_squares_nonneg (m : list (list real)) :
  0 <= vsum (concat (msquare m)).
Proof.
  induction m as [| row m IH]; cbn [msquare map concat].
  - cbn. lra.
  - induction row as [| x row IHrow]; cbn [map app].
    + exact IH.
    + unfold vsum in *. cbn [fold_right].
      apply Rplus_le_le_0_compat; [apply Rle_0_sqr | exact IHrow].
Qed.

Lemma sum_squares_zero (m : list (list real)) :
  Forall (Forall (fun x => x = 0)) m -> vsum (concat (msquare m)) = 0.
Proof.
  induction 1 as [| row m Hrow _ IH]; cbn [msquare map concat].
  - reflexivity.
  - induction Hrow as [| x row Hx _ IHrow]; cbn [map app].
    + exact IH.
    + unfold vsum in *. cbn [fold_right]. subst x.
      rewrite IHrow. cbn. ring.
Qed.

Lemma vsub_self (u : list real) : Forall (fun x => x = 0) (vsub u u).
Proof.
  induction u as [| a u IH]; cbn [vsub zipWith]; constructor.
  - cbn. ring.
  - exact IH.
Qed.

Lemma msub_self (m : list (list real)) :
  Forall (Forall (fun x => x = 0)) (msub m m).
Proof.
  induction m as [| row m IH]; cbn [msub zipWith]; constructor.
  - apply vsub_self.
  - exact IH.
Qed.

Lemma map_nth_seq (u : list real) :
  map (fun j => nth j u 0) (seq 0 (length u)) = u.
Proof.
  induction u as [| a u IH]; cbn [length seq map nth]; [reflexivity |].
  f_equal. rewrite <- seq_shift, map_map. exact IH.
Qed.

(** The identity matrix leaves a 3xN array as it is. *)
Lemma identity_mm (a0 a1 a2 : list real) :
  length a1 = length a0 -> length a2 = length a0 ->
  mm [[1; 0; 0]; [0; 1; 0]; [0; 0; 1]] [a0; a1; a2] = [a0; a1; a2].
Proof.
  intros L1 L2. unfold mm, transpose, width. cbn [map].
  rewrite !map_map.
  f_equal; [| f_equal; [| f_equal]].
  - etransitivity; [| apply (map_nth_seq a0)].
    apply map_ext; intros j; cbn; ring.
  - etransitivity; [| apply (map_nth_seq a1)]. rewrite L1.
    apply map_ext; intros j; cbn; ring.
  - etransitivity; [| apply (map_nth_seq a2)]. rewrite L2.
    apply map_ext; intros j; cbn; ring.
Qed.

(** X22. The alignment cost of 3xN arrays is never negative, and it is
    zero for an array against itself without rotation. *)
Theorem alignment_cost_minimum (a0 a1 a2 : list real) :
  length a1 = length a0 -> length a2 = length a0 ->
  Lie.alignment_cost [a0; a1; a2] [a0; a1; a2] [0; 0; 0] = Ok 0
  /\ forall (b0 b1 b2 lie_params : list real) (cost : real),
       length b0 = length a0 -> length b1 = length a0 ->
       length b2 = length a0 ->
       Lie.alignment_cost [a0; a1; a2] [b0; b1; b2] lie_params = Ok cost ->
       0 <= cost.
Proof.
  intros L1 L2. split.
  - unfold Lie.alignment_cost. rewrite R_zeros. cbn [res_bind].
    rewrite identity_mm by assumption.
    unfold Lie.axb2. f_equal. apply sum_squares_zero.
    unfold Lie.cross_columns. cbn [nth].
    repeat constructor.
    + rewrite (zipWith_mul_comm a2 a1). apply vsub_self.
    + rewrite (zipWith_mul_comm a0 a2). apply vsub_self.
    + rewrite (zipWith_mul_comm a1 a0). apply vsub_self.
  - intros b0 b1 b2 p cost _ _ _ H. unfold Lie.alignment_cost in H.
    destruct (Lie.R p) as [rot | e]; cbn [res_bind] in H; [| discriminate H].
    assert (E : cost = Lie.axb2 [a0; a1; a2] (mm rot [b0; b1; b2]))
      by congruence.
    rewrite E. apply sum_squares_nonneg.
Qed.

(** X23. The calibration cost of 3xN arrays is never negative, and it is
    zero on the data that the calibration matrix of the parameters
    produces. *)
Theorem calibration_cost_minimum (b0 b1 b2 : list real) (c : list (list real))
    (params : list real) :
  (3 <= length params)%nat ->
  length b1 = length b0 -> length b2 = length b0 ->
  Lie.cal_matrix params = Ok c ->
  Lie.calibration_cost (mm c [b0; b1; b2]) [b0; b1; b2] params = Ok 0
  /\ forall (a0 a1 a2 : list real) (cost : real),
       length a0 = length b0 -> length a1 = length b0 ->
       length a2 = length b0 ->
       Lie.calibration_cost [a0; a1; a2] [b0; b1; b2] params = Ok cost ->
       0 <= cost.
Proof.
  intros _ _ _ Hc. unfold Lie.calibration_cost. rewrite Hc. cbn [res_bind].
  split.
  - f_equal. apply sum_squares_zero, msub_self.
  - intros a0 a1 a2 cost _ _ _ H.
    assert (E : cost
                = vsum (concat (msquare (msub [a0; a1; a2]
                                              (mm c [b0; b1; b2])))))
      by congruence.
    rewrite E. apply sum_squares_nonneg.
Qed.

Lemma alignment_cost_minimum_witness :
  Lie.alignment_cost [[1; 2]; [0; 1]; [3; 0]] [[1; 2]; [0; 1]; [3; 0]]
                     [0; 0; 0] = Ok 0
  /\ forall (b0 b1 b2 lie_params : list real) (cost : real),
       length b0 = 2%nat -> length b1 = 2%nat -> length b2 = 2%nat ->
       Lie.alignment_cost [[1; 2]; [0; 1]; [3; 0]] [b0; b1; b2] lie_params
       = Ok cost ->
       0 <= cost.
Proof.
  apply (@alignment_cost_minimum [1; 2] [0; 1] [3; 0]); reflexivity.
Defined.

Lemma calibration_cost_minimum_witness :
  Lie.calibration_cost (mm (diag [2; 3; 4]) [[1; 2]; [0; 1]; [3; 0]])
                       [[1; 2]; [0; 1]; [3; 0]] [2; 3; 4; 0; 0; 0] = Ok 0
  /\ forall (a0 a1 a2 : list real) (cost : real),
       length a0 = 2%nat -> length a1 = 2%nat -> length a2 = 2%nat ->
       Lie.calibration_cost [a0; a1; a2] [[1; 2]; [0; 1]; [3; 0]]
                            [2; 3; 4; 0; 0; 0]
       = Ok cost -> 0 <= cost.
Proof.
  apply (@calibration_cost_minimum [1; 2] [0; 1] [3; 0] (diag [2; 3; 4])
           [2; 3; 4; 0; 0; 0]).
  - cbn. lia.
  - reflexivity.
  - reflexivity.
  - unfold Lie.cal_matrix. cbn [firstn skipn]. rewrite R_zeros.
    cbn. repeat (f_equal; try ring).
Defined.

End Cost_extras.

(** ** [kalman_filter]: the measurements *)

Section Kalman_velocity_extras.

Context {num : Type} {N : Num num}.

Variables (t : list num) (acc_lab : list (list num)) (q r : list num)
          (reset : bool) (time_period : num).

(** X24. [kalman_filter] reads the first three entries of the rows of [z]
    only: on two measurement lists whose rows agree on them, it returns the
    same result and leaves the same list behind. *)
Theorem kalman_filter_ignores_velocity (z z' : list (list num)) :
  (forall i, i < length t ->
     exists (a b c : num) (rest rest' : list num),
       nth_error z i = Some (a :: b :: c :: rest)
       /\ nth_error z' i = Some (a :: b :: c :: rest')) ->
  (forall i, length t <= i -> nth_error z i = nth_error z' i) ->
  Kalman.kalman_filter t acc_lab q r reset time_period z
  = Kalman.kalman_filter t acc_lab q r reset time_period z'.
Proof.
  intros Hrows Htail.
  destruct (@clear_loop_run num N (length t) 0 z) as (z0 & Hc).
  { intros j Hj. destruct (Hrows j) as (a & b & c & rest & _ & E & _); [lia |].
    eexists. split; [exact E | cbn; lia]. }
  destruct (@clear_loop_run num N (length t) 0 z') as (z0' & Hc').
  { intros j Hj. destruct (Hrows j) as (a & b & c & _ & rest' & _ & E); [lia |].
    eexists. split; [exact E | cbn; lia]. }
  assert (E : z0 = z0').
  { assert (A := Hc). assert (A' := Hc').
    apply clear_loop_ok in A as (_ & A2 & A3).
    apply clear_loop_ok in A' as (_ & A2' & A3').
    apply nth_error_ext. intros j.
    destruct (Nat.lt_ge_cases j (length t)) as [Hj | Hj].
    - destruct (A3 j) as (x & y & w & rest & E1 & ->); [lia |].
      destruct (A3' j) as (x' & y' & w' & rest' & E1' & ->); [lia |].
      destruct (Hrows j) as (a & b & c & s & s' & E2 & E2'); [lia |].
      congruence.
    - rewrite A2, A2' by lia. apply Htail. exact Hj. }
  unfold Kalman.kalman_filter, Kalman.kalman_run, Kalman.kalman_init, bind.
  rewrite Hc, Hc', E. reflexivity.
Qed.

End Kalman_velocity_extras.

Section Kalman_exact_extras.

Context {num : Type} {N : Num num} {L : @NumLaws num N}.

Add Field num_field_theory_exact : num_field.

Lemma exact_covariance (dt q0 q1 q2 q3 q4 q5 : num) :
  madd (mm (mm (transition dt) (zeros2 6 6)) (transpose (transition dt)))
       (diag [q0; q1; q2; q3; q4; q5])
  = diag [q0; q1; q2; q3; q4; q5].
Proof. cbn. repeat (f_equal; try ring). Qed.

Lemma exact_plus_zero (q0 q1 q2 q3 q4 q5 : num) :
  madd (diag [q0; q1; q2; q3; q4; q5]) (diag (zeros 6))
  = diag [q0; q1; q2; q3; q4; q5].
Proof. cbn. repeat (f_equal; try ring). Qed.

Lemma exact_gain (q0 q1 q2 q3 q4 q5 : num) :
  q0 <> n0 -> q1 <> n0 -> q2 <> n0 -> q3 <> n0 -> q4 <> n0 -> q5 <> n0 ->
  mm (diag [q0; q1; q2; q3; q4; q5])
     (diag [ninv q0; ninv q1; ninv q2; ninv q3; ninv q4; ninv q5])
  = identity 6.
Proof. intros. cbn. repeat (f_equal; try (field; assumption)). Qed.

Lemma exact_update (a0 a1 a2 a3 a4 a5 b0 b1 b2 b3 b4 b5 : num) :
  vadd [a0; a1; a2; a3; a4; a5]
       (mv (identity 6) (vsub [b0; b1; b2; b3; b4; b5] [a0; a1; a2; a3; a4; a5]))
  = [b0; b1; b2; b3; b4; b5].
Proof. cbn. repeat (f_equal; try ring). Qed.

Lemma exact_covariance_update (q0 q1 q2 q3 q4 q5 : num) :
  mm (msub (identity 6) (identity 6)) (diag [q0; q1; q2; q3; q4; q5])
  = zeros2 6 6.
Proof. cbn. repeat (f_equal; try ring). Qed.

Lemma set_nth_same (X : Type) (i : nat) (x : X) (l : list X) :
  nth_error l i = Some x -> set_nth i x l = l.
Proof.
  revert i. induction l as [| h l IH]; intros [| i] H; cbn in *;
    try discriminate; try congruence.
  f_equal. apply IH. exact H.
Qed.

Section Exact_run.

Variables (t : list num) (acc_lab : list (list num)) (time_period : num)
          (q0 q1 q2 q3 q4 q5 : num).

Hypothesis H0 : q0 <> n0.
Hypothesis H1 : q1 <> n0.
Hypothesis H2 : q2 <> n0.
Hypothesis H3 : q3 <> n0.
Hypothesis H4 : q4 <> n0.
Hypothesis H5 : q5 <> n0.

Local Notation step :=
  (Kalman.kalman_step t acc_lab [q0; q1; q2; q3; q4; q5] (zeros 6) false
                      time_period).

Lemma exact_step (i : nat) (l : Kalman.locals) (z : list (list num))
    (a : list num) (x y w x' y' w' : num) :
  1 <= i < length t ->
  Kalman.P l = repeat (zeros2 6 6) (length t) ->
  length (Kalman.state_guess l) = length t ->
  nth (i - 1) (Kalman.state_guess l) [] = [x'; y'; w'; n0; n0; n0] ->
  nth_error acc_lab i = Some a ->
  nth_error z i = Some [x; y; w; n0; n0; n0] ->
  exists l' : Kalman.locals,
    step i l z = (Ok l', z)
    /\ Kalman.P l' = repeat (zeros2 6 6) (length t)
    /\ Kalman.state_guess l'
       = set_nth i [x; y; w; n0; n0; n0] (Kalman.state_guess l).
Proof.
  intros Hi HP Hlen Hprev Hacc Hrow.
  unfold Kalman.kalman_step.
  rewrite Hprev, HP, nth_repeat_lt by lia.
  unfold bind at 1. unfold lift at 1. unfold index at 1. rewrite Hacc.
  unfold Kalman.F, Kalman.B, Kalman.Q, Kalman.R.
  set (dt := mean_step t).
  rewrite exact_covariance, exact_plus_zero.
  rewrite inv_diag_6 by assumption.
  assert (Hnaive : exists b0 b1 b2 b3 b4 b5,
             vadd (mv (transition dt) [x'; y'; w'; n0; n0; n0])
                  (mv (control dt) a) = [b0; b1; b2; b3; b4; b5]).
  { unfold vadd, mv, transition, control. cbn [map zipWith].
    do 6 eexists. reflexivity. }
  destruct Hnaive as (b0 & b1 & b2 & b3 & b4 & b5 & ->).
  assert (Hz : z = set_nth i (Kalman.with_velocity [x; y; w; n0; n0; n0]
                                [x'; y'; w'; n0; n0; n0]) z).
  { symmetry. apply set_nth_same. exact Hrow. }
  assert (Hcarry : (if 1 <? i
                    then Kalman.carry_velocity i [x'; y'; w'; n0; n0; n0]
                    else ret tt) z = (Ok tt, z)).
  { destruct (1 <? i).
    - rewrite Hz at 2. apply carry_velocity_run with (row := [x; y; w; n0; n0; n0]);
        [exact Hrow | cbn; lia].
    - reflexivity. }
  rewrite (bind_run Hcarry).
  unfold bind at 1. unfold lift at 1. cbv beta iota.
  rewrite exact_gain, exact_covariance_update by assumption.
  unfold bind at 1. unfold Kalman.z_row, index. rewrite Hrow.
  rewrite exact_update. cbn [andb].
  eexists. split; [reflexivity |]. cbn [Kalman.P Kalman.state_guess].
  split; [apply set_nth_repeat | reflexivity].
Qed.

Lemma exact_loop (k a : nat) (l : Kalman.locals) (z : list (list num))
    (x' y' w' : num) :
  1 <= a -> a + k <= length t ->
  Kalman.P l = repeat (zeros2 6 6) (length t) ->
  length (Kalman.state_guess l) = length t ->
  nth (a - 1) (Kalman.state_guess l) [] = [x'; y'; w'; n0; n0; n0] ->
  (forall i, a <= i < a + k -> exists row, nth_error acc_lab i = Some row) ->
  (forall i, a <= i < a + k ->
     exists x y w, nth_error z i = Some [x; y; w; n0; n0; n0]) ->
  exists l' : Kalman.locals,
    for_each (seq a k) step l z = (Ok l', z)
    /\ length (Kalman.state_guess l') = length t
    /\ (forall j, j < a ->
          nth_error (Kalman.state_guess l') j
          = nth_error (Kalman.state_guess l) j)
    /\ (forall j, a <= j < a + k ->
          nth_error (Kalman.state_guess l') j = nth_error z j).
Proof.
  revert a l x' y' w'.
  induction k as [| k IH]; intros a l x' y' w' Ha Hk HP Hlen Hprev Hacc Hz;
    cbn [seq for_each].
  - exists l. repeat split; auto. intros j Hj. lia.
  - destruct (Hacc a) as (row & Hrow); [lia |].
    destruct (Hz a) as (x & y & w & Hza); [lia |].
    destruct (@exact_step a l z row x y w x' y' w')
      as (l1 & Hs & HP1 & Hsg1); auto; try lia.
    destruct (IH (S a) l1 x y w) as (l' & Hl & Hlen' & Hframe & Hnew);
      auto; try lia.
    + rewrite Hsg1, set_nth_length. exact Hlen.
    + rewrite Hsg1. replace (S a - 1) with a by lia.
      apply nth_set_nth_same. lia.
    + intros i Hi. apply Hacc. lia.
    + intros i Hi. apply Hz. lia.
    + exists l'. rewrite (bind_run Hs). repeat split; auto.
      * intros j Hj. rewrite Hframe by lia. rewrite Hsg1.
        apply nth_error_set_nth_other. lia.
      * intros j Hj. destruct (Nat.eq_dec j a) as [-> | Hne].
        -- rewrite Hframe by lia. rewrite Hsg1, Hza.
           apply nth_error_set_nth_same. lia.
        -- apply Hnew. lia.
Qed.

(** X25. With a process noise that is not zero on any axis, no measurement
    noise and no resets, the filter, in exact arithmetic, returns the
    measured positions with zero velocity for every sample after the
    first, whatever the accelerations; the first state is zero. *)
Theorem kalman_exact_measurements (z : list (list num)) :
  0 < length t ->
  (forall i, 1 <= i < length t ->
     exists row, nth_error acc_lab i = Some row /\ length row = 3) ->
  (forall i, i < length t ->
     exists row, nth_error z i = Some row /\ 3 <= length row) ->
  exists out zf : list (list num),
    Kalman.kalman_filter t acc_lab [q0; q1; q2; q3; q4; q5] (zeros 6) false
                         time_period z
    = (Ok out, zf)
    /\ length out = length t
    /\ nth_error out 0 = Some (zeros 6)
    /\ forall (i : nat) (a b c : num) (rest : list num),
         1 <= i < length t ->
         nth_error z i = Some (a :: b :: c :: rest) ->
         nth_error out i = Some [a; b; c; n0; n0; n0].
Proof.
  intros Hn Hacc Hz.
  destruct (@clear_loop_run num N (length t) 0 z) as (z0 & Hc).
  { intros j Hj. apply Hz. lia. }
  assert (Hc' := Hc). apply clear_loop_ok in Hc' as (_ & _ & C3).
  set (l0 := {| Kalman.state_guess := repeat (zeros 6) (length t);
                Kalman.P := repeat (zeros2 6 6) (length t);
                Kalman.next_zero := nopp n1;
                Kalman.state_naive := zeros 6;
                Kalman.P_naive := zeros2 6 6 |} : Kalman.locals (num := num)).
  assert (Hinit : Kalman.kalman_init t z = (Ok l0, z0)).
  { unfold Kalman.kalman_init, bind. rewrite Hc. unfold lift, index, ret.
    destruct (length t) as [| n]; [lia |]. reflexivity. }
  destruct (@exact_loop (length t - 1) 1 l0 z0 n0 n0 n0)
    as (lf & Hloop & Hlen & Hframe & Hnew); auto; try lia.
  { apply repeat_length. }
  { cbn [Kalman.state_guess l0 Nat.sub]. unfold l0. cbn [Kalman.state_guess].
    rewrite nth_repeat_lt by lia. reflexivity. }
  { intros i Hi. destruct (Hacc i) as (row & E & _); [lia |]. eauto. }
  { intros i Hi. destruct (C3 i) as (x & y & w & rest & _ & E); [lia |].
    eauto. }
  exists (Kalman.state_guess lf), z0.
  unfold Kalman.kalman_filter, Kalman.kalman_run, Kalman.kalman_loop.
  unfold bind at 1 2. rewrite Hinit, Hloop. unfold ret.
  repeat split; auto.
  - rewrite Hframe by lia. unfold l0. cbn [Kalman.state_guess].
    destruct (length t); [lia | reflexivity].
  - intros i a b c rest Hi Hrow. rewrite Hnew by lia.
    destruct (C3 i) as (x & y & w & rest' & E1 & E2); [lia |].
    rewrite E2. congruence.
Qed.

End Exact_run.

End Kalman_exact_extras.

Section Kalman_measurement_witnesses.

Import Sample.

Lemma kalman_filter_ignores_velocity_witness :
  Kalman.kalman_filter t4 acc_lab4 noise noise true (q 3 10) z4
  = Kalman.kalman_filter t4 acc_lab4 noise noise true (q 3 10)
                         (repeat [q 1 1; q 2 1; q 3 1] 4).
Proof.
  apply kalman_filter_ignores_velocity.
  - intros i Hi. cbn in Hi.
    destruct i as [| [| [| [| i]]]]; try lia;
      (do 5 eexists; split; reflexivity).
  - intros i Hi. cbn in Hi.
    destruct i as [| [| [| [| i]]]]; try lia. reflexivity.
Defined.

Lemma kalman_exact_measurements_witness :
  exists out zf : list (list Qc),
    Kalman.kalman_filter t4 acc_lab4
                         [q 1 10; q 1 10; q 1 10; q 1 10; q 1 10; q 1 10]
                         (zeros 6) false (q 3 10) z4
    = (Ok out, zf)
    /\ length out = length t4
    /\ nth_error out 0 = Some (zeros 6)
    /\ forall (i : nat) (a b c : Qc) (rest : list Qc),
         1 <= i < length t4 ->
         nth_error z4 i = Some (a :: b :: c :: rest) ->
         nth_error out i = Some [a; b; c; n0; n0; n0].
Proof.
  apply (@kalman_exact_measurements Qc NumQc NumLawsQc t4 acc_lab4 (q 3 10)
           (q 1 10) (q 1 10) (q 1 10) (q 1 10) (q 1 10) (q 1 10)).
  - apply neqb_false_ne. vm_compute. reflexivity.
  - apply neqb_false_ne. vm_compute. reflexivity.
  - apply neqb_false_ne. vm_compute. reflexivity.
  - apply neqb_false_ne. vm_compute. reflexivity.
  - apply neqb_false_ne. vm_compute. reflexivity.
  - apply neqb_false_ne. vm_compute. reflexivity.
  - cbn. lia.
  - intros i Hi. cbn in Hi.
    destruct i as [| [| [| [| i]]]]; try lia;
      (eexists; split; reflexivity).
  - intros i Hi. cbn in Hi.
    destruct i as [| [| [| [| i]]]]; try lia;
      (eexists; split; [reflexivity | cbn; lia]).
Defined.

End Kalman_measurement_witnesses.
